(** * Region aggregation and correlation engine: a shallow embedding

    The development follows the Python sources file by file:
    [regions.py] (the [Region] data class), [regression.py] (least-squares
    fit and R²), [dataset.py] (the merge and derivation passes of
    [DataSet]), [plots.py] (the points that are plotted), [twitter.py]
    (the ratings of the tweets) and [final_report.py] (the two top-10
    rankings and the figures).

    Python dictionaries keyed by year are finite maps [gmap Z _]; a key
    that is missing makes a subscript raise [KeyError], a key bound to
    [None] is the "no data" sentinel.  The registry [self.regions] is an
    insertion-ordered dictionary and is modelled as an association list
    with the dictionary operations written out.  Exceptions are values of
    an error monad.  The code is duck-typed in its numbers: it is embedded
    once, over a class of number operations, and read at two instances,
    exact rationals and binary64 floats. *)

From Stdlib Require Import ZArith QArith Qcanon Floats Uint63 String Ascii.
From stdpp Require Import base decidable option list numbers gmap strings sorting.

Local Open Scope string_scope.
Local Open Scope list_scope.
Local Open Scope Z_scope.

(** ** Numbers *)

(** What the code asks of a number: the literal [0], [+], [-], [*], the
    quotient of a true division [/] by a divisor that is not zero, the test
    [== 0] that [/] performs before dividing, [<], the conversion of a
    length, and the power [x ** 2], where [None] stands for the
    [OverflowError] that a float power raises when its result is out of
    range.  A theorem that is stated for every instance holds whatever the
    operations return, the power included. *)
Class PyNum (A : Type) := {
  num_zero : A;
  num_add : A → A → A;
  num_sub : A → A → A;
  num_mul : A → A → A;
  num_quot : A → A → A;
  num_is_zero : A → bool;
  num_ltb : A → A → bool;
  num_of_nat : nat → A;
  num_pow2 : A → option A;
}.

(** Exact arithmetic. *)
#[export] Instance Qc_num : PyNum Qc := {|
  num_zero := 0%Qc;
  num_add := Qcplus;
  num_sub := Qcminus;
  num_mul := Qcmult;
  num_quot := Qcdiv;
  num_is_zero := λ x, bool_decide (x = 0%Qc);
  num_ltb := λ x y, bool_decide (x < y)%Qc;
  num_of_nat := λ n, Qc_of_Z (Z.of_nat n);
  num_pow2 := λ x, Some (x * x)%Qc;
|}.

(** Python's [float]: IEEE 754 binary64, round to nearest even.  [+], [-]
    and [*] overflow to an infinity without an exception; [x ** 2] on a
    finite [x] raises [OverflowError] when the square is out of range, and
    is an infinity or a NaN on an infinity or a NaN.  The square that the
    power returns is taken to be the rounded product [x * x]. *)
#[export] Instance float_num : PyNum float := {|
  num_zero := 0%float;
  num_add := PrimFloat.add;
  num_sub := PrimFloat.sub;
  num_mul := PrimFloat.mul;
  num_quot := PrimFloat.div;
  num_is_zero := λ x, PrimFloat.eqb x 0%float;
  num_ltb := PrimFloat.ltb;
  num_of_nat := λ n, PrimFloat.of_uint63 (Uint63.of_Z (Z.of_nat n));
  num_pow2 := λ x,
    let y := PrimFloat.mul x x in
    if PrimFloat.is_infinity y && negb (PrimFloat.is_infinity x) then None
    else Some y;
|}.

(** ** Exceptions *)

Inductive exn : Set :=
  | ZeroDivisionError
  | KeyError
  | IndexError
  | ValueError
  | OverflowError
  | TypeError.

Inductive result (T : Type) : Type :=
  | Ok (v : T)
  | Err (e : exn).
Arguments Ok {T} v.
Arguments Err {T} e.

#[export] Instance result_ret : MRet result := λ _ v, Ok v.
#[export] Instance result_bind : MBind result := λ _ _ f r,
  match r with
  | Ok v => f v
  | Err e => Err e
  end.

(** [for x in xs: s = body(s, x)], stopping at the first exception. *)
Fixpoint for_each {S X : Type} (body : S → X → result S) (xs : list X) (s : S)
    : result S :=
  match xs with
  | [] => Ok s
  | x :: xs' => s' ← body s x; for_each body xs' s'
  end.

(** [range(n)] and [range(a, b)]. *)
Definition range (n : nat) : list nat := seq 0 n.
Definition rangeZ (a b : Z) : list Z := seqZ a (b - a).

(** [xs[i]] on a list. *)
Definition list_get {T : Type} (xs : list T) (i : nat) : result T :=
  match xs !! i with
  | Some x => Ok x
  | None => Err IndexError
  end.

(** [d[k]] on a dictionary. *)
Definition dict_get `{Countable K} {V : Type} (d : gmap K V) (k : K) : result V :=
  match d !! k with
  | Some v => Ok v
  | None => Err KeyError
  end.

(** [a / b]: a zero divisor raises. *)
Definition true_div `{PyNum A} (a b : A) : result A :=
  if num_is_zero b then Err ZeroDivisionError else Ok (num_quot a b).

(** [float(n)] for an integer [n], from the conversion of a length. *)
Definition num_of_int `{PyNum A} (n : Z) : A :=
  if bool_decide (n < 0) then num_sub num_zero (num_of_nat (Z.to_nat (- n)))
  else num_of_nat (Z.to_nat n).

(** ** regression.py *)

Module Regression.
Section Regression.
Context {A : Type} `{PyNum A}.

(** [sum(values)]: the running total starts at [0]. *)
Definition sum (values : list A) : A := foldl num_add num_zero values.

Definition mean (values : list A) : result A :=
  true_div (sum values) (num_of_nat (length values)).

(** [x ** 2] *)
Definition sq (x : A) : result A :=
  match num_pow2 x with
  | Some y => Ok y
  | None => Err OverflowError
  end.

(** The two statements of each loop body run in the order of the source,
    so that the exceptions come in its order; a subscript that a statement
    reads again ([x_values[i]], [y_values[i]]) is read once. *)
Definition linear_regression (x_values y_values : list A) : result (A * A) :=
  let n := length x_values in
  x_mean ← mean x_values;
  y_mean ← mean y_values;
  '(numerator, denominator) ←
    for_each (λ '(numerator, denominator) i,
        xi ← list_get x_values i;
        yi ← list_get y_values i;
        let numerator :=
          num_add numerator (num_mul (num_sub xi x_mean) (num_sub yi y_mean)) in
        square ← sq (num_sub xi x_mean);
        Ok (numerator, num_add denominator square))
      (range n) (num_zero, num_zero);
  slope ← true_div numerator denominator;
  let intercept := num_sub y_mean (num_mul slope x_mean) in
  Ok (slope, intercept).

Definition strength_of_correlation (slope intercept : A)
    (x_values y_values : list A) : result A :=
  y_mean ← mean y_values;
  '(s_tot, s_res) ←
    for_each (λ '(s_tot, s_res) i,
        yi ← list_get y_values i;
        square ← sq (num_sub yi y_mean);
        let s_tot := num_add s_tot square in
        xi ← list_get x_values i;
        square ← sq (num_sub yi (num_add intercept (num_mul slope xi)));
        Ok (s_tot, num_add s_res square))
      (range (length y_values)) (num_zero, num_zero);
  q ← true_div s_res s_tot;
  Ok (num_sub (num_of_nat 1) q).
End Regression.
End Regression.

(** ** Strings and ordered dictionaries *)

Module Str.
(** [s.replace(old, new)] for a non-empty [old]: occurrences are replaced
    from the left and do not overlap; [skip] counts the characters of a
    matched occurrence still to be passed over. *)
Fixpoint replace_from (old new : string) (skip : nat) (s : string) : string :=
  match s with
  | EmptyString => EmptyString
  | String c s' =>
      match skip with
      | S k => replace_from old new k s'
      | O =>
          if String.prefix old s
          then new +:+ replace_from old new (String.length old - 1) s'
          else String c (replace_from old new 0 s')
      end
  end.
Definition replace (old new s : string) : string := replace_from old new 0 s.

(** [s.split(sep)] for a one-character separator: one field more than
    there are separators. *)
Fixpoint split (sep : ascii) (s : string) : list string :=
  match s with
  | EmptyString => [EmptyString]
  | String c s' =>
      if Ascii.eqb c sep then EmptyString :: split sep s'
      else match split sep s' with
           | f :: fs => String c f :: fs
           | [] => [String c EmptyString]
           end
  end.

(** [s[:-2]] *)
Definition drop_last2 (s : string) : string :=
  String.substring 0 (String.length s - 2) s.

Definition quote : string := String (ascii_of_nat 34) EmptyString.
Definition comma : ascii := ascii_of_nat 44.
Definition tab : ascii := ascii_of_nat 9.

(** [sep.join(items)]: an item that is not a string, here [None], raises
    [TypeError]. *)
Definition join (sep : string) (items : list (option string)) : result string :=
  strings ← for_each (λ strings item,
      match item with
      | Some s => Ok (strings ++ [s])
      | None => Err TypeError
      end) items [];
  Ok (String.concat sep strings).
End Str.

(** An insertion-ordered dictionary with string keys. *)
Module Dict.
Section Dict.
Context {V : Type}.
Implicit Types d : list (string * V).

Definition keys d : list string := d.*1.

(** [k in d] *)
Definition mem (k : string) d : bool := bool_decide (k ∈ keys d).

Fixpoint find d (k : string) : option V :=
  match d with
  | [] => None
  | (k', v) :: d' => if decide (k' = k) then Some v else find d' k
  end.

(** [d[k]] *)
Definition get d (k : string) : result V :=
  match find d k with
  | Some v => Ok v
  | None => Err KeyError
  end.

(** [d[k] = v]: an existing key keeps its place, a new key goes last. *)
Fixpoint set (k : string) (v : V) d : list (string * V) :=
  match d with
  | [] => [(k, v)]
  | (k', v') :: d' => if decide (k' = k) then (k, v) :: d' else (k', v') :: set k v d'
  end.

Fixpoint remove (k : string) d : list (string * V) :=
  match d with
  | [] => []
  | (k', v') :: d' => if decide (k' = k) then d' else (k', v') :: remove k d'
  end.

(** [del d[k]] *)
Definition del (k : string) d : result (list (string * V)) :=
  if mem k d then Ok (remove k d) else Err KeyError.
End Dict.
End Dict.

(** ** regions.py *)

(** The analysis window, [range(1951, 2017)]. *)
Definition window : list Z := rangeZ 1951 2017.

Section Regions.
Context {A : Type}.

Definition defualt_dict : gmap Z (option A) :=
  list_to_map ((λ year, (year, None)) <$> window).

Record Region : Type := mkRegion {
  name : string;
  continent : option string;
  population : gmap Z (option A);
  has_carbon_tax : bool;
  co2_emissions : gmap Z (option A);
  co2_emissions_per_capita : gmap Z (option A);
  gdp : gmap Z (option A);
  gdp_per_capita : gmap Z (option A);
  renewable_energy : gmap Z (option A);
  renewable_energy_per_capita : gmap Z (option A);
  projected_damage : option A;
  percentage_concerned : option Z;
  region_score : option A;
}.

(** [Region(name=name, continent=continent)]: every other field takes its
    default, each series a fresh [defualt_dict()]. *)
Definition new_Region (name : string) (continent : string) : Region := {|
  name := name;
  continent := Some continent;
  population := defualt_dict;
  has_carbon_tax := false;
  co2_emissions := defualt_dict;
  co2_emissions_per_capita := defualt_dict;
  gdp := defualt_dict;
  gdp_per_capita := defualt_dict;
  renewable_energy := defualt_dict;
  renewable_energy_per_capita := defualt_dict;
  projected_damage := None;
  percentage_concerned := None;
  region_score := None;
|}.

(** Attribute assignments [region.field = v]. *)
Definition set_population (v : gmap Z (option A)) (r : Region) : Region :=
  mkRegion (name r) (continent r) v (has_carbon_tax r) (co2_emissions r)
    (co2_emissions_per_capita r) (gdp r) (gdp_per_capita r) (renewable_energy r)
    (renewable_energy_per_capita r) (projected_damage r) (percentage_concerned r)
    (region_score r).
Definition set_has_carbon_tax (v : bool) (r : Region) : Region :=
  mkRegion (name r) (continent r) (population r) v (co2_emissions r)
    (co2_emissions_per_capita r) (gdp r) (gdp_per_capita r) (renewable_energy r)
    (renewable_energy_per_capita r) (projected_damage r) (percentage_concerned r)
    (region_score r).
Definition set_co2_emissions (v : gmap Z (option A)) (r : Region) : Region :=
  mkRegion (name r) (continent r) (population r) (has_carbon_tax r) v
    (co2_emissions_per_capita r) (gdp r) (gdp_per_capita r) (renewable_energy r)
    (renewable_energy_per_capita r) (projected_damage r) (percentage_concerned r)
    (region_score r).
Definition set_co2_emissions_per_capita (v : gmap Z (option A)) (r : Region) : Region :=
  mkRegion (name r) (continent r) (population r) (has_carbon_tax r) (co2_emissions r)
    v (gdp r) (gdp_per_capita r) (renewable_energy r)
    (renewable_energy_per_capita r) (projected_damage r) (percentage_concerned r)
    (region_score r).
Definition set_gdp (v : gmap Z (option A)) (r : Region) : Region :=
  mkRegion (name r) (continent r) (population r) (has_carbon_tax r) (co2_emissions r)
    (co2_emissions_per_capita r) v (gdp_per_capita r) (renewable_energy r)
    (renewable_energy_per_capita r) (projected_damage r) (percentage_concerned r)
    (region_score r).
Definition set_gdp_per_capita (v : gmap Z (option A)) (r : Region) : Region :=
  mkRegion (name r) (continent r) (population r) (has_carbon_tax r) (co2_emissions r)
    (co2_emissions_per_capita r) (gdp r) v (renewable_energy r)
    (renewable_energy_per_capita r) (projected_damage r) (percentage_concerned r)
    (region_score r).
Definition set_renewable_energy (v : gmap Z (option A)) (r : Region) : Region :=
  mkRegion (name r) (continent r) (population r) (has_carbon_tax r) (co2_emissions r)
    (co2_emissions_per_capita r) (gdp r) (gdp_per_capita r) v
    (renewable_energy_per_capita r) (projected_damage r) (percentage_concerned r)
    (region_score r).
Definition set_renewable_energy_per_capita (v : gmap Z (option A)) (r : Region) : Region :=
  mkRegion (name r) (continent r) (population r) (has_carbon_tax r) (co2_emissions r)
    (co2_emissions_per_capita r) (gdp r) (gdp_per_capita r) (renewable_energy r)
    v (projected_damage r) (percentage_concerned r) (region_score r).
Definition set_projected_damage (v : option A) (r : Region) : Region :=
  mkRegion (name r) (continent r) (population r) (has_carbon_tax r) (co2_emissions r)
    (co2_emissions_per_capita r) (gdp r) (gdp_per_capita r) (renewable_energy r)
    (renewable_energy_per_capita r) v (percentage_concerned r) (region_score r).
Definition set_percentage_concerned (v : option Z) (r : Region) : Region :=
  mkRegion (name r) (continent r) (population r) (has_carbon_tax r) (co2_emissions r)
    (co2_emissions_per_capita r) (gdp r) (gdp_per_capita r) (renewable_energy r)
    (renewable_energy_per_capita r) (projected_damage r) v (region_score r).
Definition set_region_score (v : option A) (r : Region) : Region :=
  mkRegion (name r) (continent r) (population r) (has_carbon_tax r) (co2_emissions r)
    (co2_emissions_per_capita r) (gdp r) (gdp_per_capita r) (renewable_energy r)
    (renewable_energy_per_capita r) (projected_damage r) (percentage_concerned r) v.

(** The seven year-indexed series of a region. *)
Definition metric_series : list (Region → gmap Z (option A)) :=
  [population; co2_emissions; co2_emissions_per_capita; gdp; gdp_per_capita;
   renewable_energy; renewable_energy_per_capita].
End Regions.
Arguments Region A : clear implicits.
Arguments defualt_dict : simpl never.

(** ** dataset.py *)

Definition COUNTRIES_WITH_CARBON_TAX : list string := [
  "Argentina"; "Canada"; "Chile"; "Colombia";
  "Denmark"; "Estonia"; "Finland";
  "France"; "Iceland"; "Ireland";
  "Japan"; "Latvia"; "Liechtenstein";
  "Mexico"; "Norway"; "Poland"; "Portugal";
  "Singapore"; "Slovenia"; "South Africa";
  "Spain"; "Sweden"; "Switzerland"; "United Kingdom"; "Ukraine"
].

(** One record of a region's ['data'] list in [CO2_emissions.json]: its
    ['year'] and its other keys, a JSON [null] being [None]. *)
Record json_line (A : Type) : Type := mk_line {
  line_year : Z;
  line_keys : gmap string (option A);
}.
Arguments mk_line {A} _ _.
Arguments line_year {A} _.
Arguments line_keys {A} _.

(** The contents of the files that [DataSet.__init__] opens. *)
Record files (A : Type) : Type := mk_files {
  country_names_csv : list string;
  CO2_emissions_json : gmap string (list (json_line A));
  IRENA_csv : list string;
  projected_GDP_change_txt : list string;
  climate_change_opinion_txt : list string;
}.
Arguments mk_files {A} _ _ _ _ _.
Arguments country_names_csv {A} _.
Arguments CO2_emissions_json {A} _.
Arguments IRENA_csv {A} _.
Arguments projected_GDP_change_txt {A} _.
Arguments climate_change_opinion_txt {A} _.

Module DataSet.
Section DataSet.
Context {A : Type} `{PyNum A}.
(** [float(s)] and [int(s)]: [None] stands for [ValueError]. *)
Variable float : string → option A.
Variable int : string → option Z.

Definition parse_float (s : string) : result A :=
  match float s with Some v => Ok v | None => Err ValueError end.
Definition parse_int (s : string) : result Z :=
  match int s with Some v => Ok v | None => Err ValueError end.

(** [for region in self.regions: ...] for a body that reads and assigns
    only attributes of [self.regions[region]]. *)
Fixpoint for_regions (body : string → Region A → result (Region A))
    (regions : list (string * Region A)) : result (list (string * Region A)) :=
  match regions with
  | [] => Ok []
  | (region, r) :: rest =>
      r' ← body region r;
      rest' ← for_regions body rest;
      Ok ((region, r') :: rest')
  end.

Definition parse_csv_line (line : string) : result (string * string) :=
  let line := Str.split Str.comma (Str.replace Str.quote "" line) in
  name ← list_get line 2;
  continent ← list_get line 0;
  Ok (name, continent).

Definition initialise_regions (data : list string)
    : result (list (string * Region A)) :=
  regions ← for_each (λ regions line,
      '(name, continent) ← parse_csv_line line;
      Ok (Dict.set name (new_Region name continent) regions))
    (drop 1 data) [];
  uk ← Dict.get regions "United Kingdom of Great Britain & Northern Ireland";
  regions ← Dict.del "United Kingdom of Great Britain & Northern Ireland" regions;
  let regions := Dict.set "United Kingdom" uk regions in
  us ← Dict.get regions "United States of America";
  regions ← Dict.del "United States of America" regions;
  Ok (Dict.set "United States" us regions).

(** [1951 <= year <= 2016] *)
Definition in_window (year : Z) : bool := bool_decide (1951 ≤ year ≤ 2016).

(** The inner loop of the three JSON passes:
    [if 1951 <= line['year'] <= 2016 and key in line:
         series[line['year']] = line[key]]. *)
Definition merge_lines (key : string) (data : list (json_line A))
    (series : gmap Z (option A)) : gmap Z (option A) :=
  foldl (λ series line,
      if in_window (line_year line) then
        match line_keys line !! key with
        | Some v => <[line_year line := v]> series
        | None => series
        end
      else series)
    series data.

Definition initialise_co2_emissions (data_set : gmap string (list (json_line A)))
    (regions : list (string * Region A)) : result (list (string * Region A)) :=
  for_regions (λ region r,
      match data_set !! region with
      | None => Ok r
      | Some data =>
          Ok (set_co2_emissions (merge_lines "co2" data (co2_emissions r)) r)
      end) regions.

Definition initialise_gdp (data_set : gmap string (list (json_line A)))
    (regions : list (string * Region A)) : result (list (string * Region A)) :=
  for_regions (λ region r,
      match data_set !! region with
      | None => Ok r
      | Some data => Ok (set_gdp (merge_lines "gdp" data (gdp r)) r)
      end) regions.

Definition initialise_population (data_set : gmap string (list (json_line A)))
    (regions : list (string * Region A)) : result (list (string * Region A)) :=
  for_regions (λ region r,
      match data_set !! region with
      | None => Ok r
      | Some data =>
          Ok (set_population (merge_lines "population" data (population r)) r)
      end) regions.

(** [d == {}] and [min(d)] on a dictionary keyed by year. *)
Definition is_empty (d : gmap Z (option A)) : bool :=
  bool_decide (dom d = (∅ : gset Z)).
Definition dict_min (d : gmap Z (option A)) : result Z :=
  match elements (dom d : gset Z) with
  | [] => Err ValueError
  | k :: ks => Ok (foldr Z.min k ks)
  end.

(** The body shared by the three per-capita passes, [base] being the
    series divided by the population and [derived] the series written.
    First one year,
    [if base[year] is not None and population[year] is not None:
         derived[year] = base[year] / population[year]],
    then the loop over the years. *)
Definition per_capita_year (population base derived : gmap Z (option A))
    (year : Z) : result (gmap Z (option A)) :=
  b ← dict_get base year;
  match b with
  | None => Ok derived
  | Some b =>
      p ← dict_get population year;
      match p with
      | None => Ok derived
      | Some p =>
          q ← true_div b p;
          Ok (<[year := Some q]> derived)
      end
  end.

Definition per_capita (population base derived : gmap Z (option A))
    : result (gmap Z (option A)) :=
  if is_empty population || is_empty base then Ok derived
  else
    min_population ← dict_min population;
    min_base ← dict_min base;
    let start_year := Z.max min_population min_base in
    for_each (per_capita_year population base)
      (rangeZ start_year 2017) derived.

Definition initialise_gdp_per_capita (regions : list (string * Region A))
    : result (list (string * Region A)) :=
  for_regions (λ region r,
      d ← per_capita (population r) (gdp r) (gdp_per_capita r);
      Ok (set_gdp_per_capita d r)) regions.

Definition initialise_co2_emissions_per_capita (regions : list (string * Region A))
    : result (list (string * Region A)) :=
  for_regions (λ region r,
      d ← per_capita (population r) (co2_emissions r) (co2_emissions_per_capita r);
      Ok (set_co2_emissions_per_capita d r)) regions.

Definition initialise_renewables_per_capita (regions : list (string * Region A))
    : result (list (string * Region A)) :=
  for_regions (λ region r,
      d ← per_capita (population r) (renewable_energy r)
            (renewable_energy_per_capita r);
      Ok (set_renewable_energy_per_capita d r)) regions.

(** The renaming at the head of the loop body of [energy_production]. *)
Definition energy_region (region : string) : string :=
  if String.eqb region "USA" then "United States"
  else if String.eqb region "UK" then "United Kingdom"
  else region.

Definition energy_production (data : list string)
    (regions : list (string * Region A)) : result (list (string * Region A)) :=
  for_each (λ regions line,
      let line := Str.split Str.comma line in
      region ← list_get line 1;
      let region := energy_region region in
      if negb (Dict.mem region regions) then Ok regions
      else
        for_each (λ regions i,
            cell ← list_get line i;
            let amount := Str.replace " " "" cell in
            if String.eqb amount "" then Ok regions
            else
              v ← parse_float amount;
              r ← Dict.get regions region;
              Ok (Dict.set region
                    (set_renewable_energy
                       (<[1997 + Z.of_nat i := Some v]> (renewable_energy r)) r)
                    regions))
          (seq 3 17) regions)
    (drop 9 data) regions.

Definition initialise_carbon_tax (regions : list (string * Region A))
    : result (list (string * Region A)) :=
  for_each (λ regions country,
      region ← Dict.get regions country;
      Ok (Dict.set country (set_has_carbon_tax true region) regions))
    COUNTRIES_WITH_CARBON_TAX regions.

(** U+2212 MINUS SIGN, as UTF-8. *)
Definition minus_sign : string :=
  String (ascii_of_nat 226) (String (ascii_of_nat 136)
    (String (ascii_of_nat 146) EmptyString)).

(** [line[-1] = line[-1].replace("−", "-")] on a split line. *)
Definition fix_last (line : list string) : result (list string) :=
  match last line with
  | Some l => Ok (<[pred (length line) := Str.replace minus_sign "-" l]> line)
  | None => Err IndexError
  end.

(** [self.regions[key].projected_damage = float(line[-1])] *)
Definition store_damage (key : string) (line : list string)
    (regions : list (string * Region A)) : result (list (string * Region A)) :=
  l ← match last line with Some l => Ok l | None => Err IndexError end;
  v ← parse_float l;
  r ← Dict.get regions key;
  Ok (Dict.set key (set_projected_damage (Some v) r) regions).

Definition initialise_projected_damage (data : list string)
    (regions : list (string * Region A)) : result (list (string * Region A)) :=
  for_each (λ regions line,
      let line := Str.split Str.tab line in
      l0 ← list_get line 0;
      if Dict.mem l0 regions then
        line ← fix_last line;
        l0 ← list_get line 0;
        store_damage l0 line regions
      else if String.eqb l0 "United States of America" then
        line ← fix_last line;
        store_damage "United States" line regions
      else Ok regions)
    (drop 1 data) regions.

(** [self.regions[key].percentage_concerned = int(line[1][:-2])] *)
Definition store_concerned (key : string) (line : list string)
    (regions : list (string * Region A)) : result (list (string * Region A)) :=
  l1 ← list_get line 1;
  v ← parse_int (Str.drop_last2 l1);
  r ← Dict.get regions key;
  Ok (Dict.set key (set_percentage_concerned (Some v) r) regions).

Definition initialise_climate_opinion (data : list string)
    (regions : list (string * Region A)) : result (list (string * Region A)) :=
  for_each (λ regions line,
      let line := Str.split Str.tab line in
      l0 ← list_get line 0;
      if Dict.mem l0 regions then store_concerned l0 line regions
      else if String.eqb l0 "U.S." then store_concerned "United States" line regions
      else if String.eqb l0 "UK" then store_concerned "United Kingdom" line regions
      else Ok regions)
    data regions.

Definition initialise_region_score (regions : list (string * Region A))
    : result (list (string * Region A)) :=
  for_regions (λ region_name region,
      renewable ← dict_get (renewable_energy region) 2016;
      emission ← dict_get (co2_emissions region) 2016;
      match renewable, emission with
      | Some renewable, Some emission =>
          score ← true_div renewable emission;
          let score :=
            if has_carbon_tax region
            then num_mul score (num_of_nat 10) else score in
          Ok (set_region_score (Some score) region)
      | _, _ => Ok region
      end) regions.

(** The passes of [__init__] that follow [initialise_regions], in the
    order of the calls (the tweets are not part of the registry). *)
Definition passes (f : files A)
    : list (list (string * Region A) → result (list (string * Region A))) :=
  [ initialise_co2_emissions (CO2_emissions_json f);
    initialise_gdp (CO2_emissions_json f);
    energy_production (IRENA_csv f);
    initialise_population (CO2_emissions_json f);
    initialise_gdp_per_capita;
    initialise_co2_emissions_per_capita;
    initialise_renewables_per_capita;
    initialise_carbon_tax;
    initialise_projected_damage (projected_GDP_change_txt f);
    initialise_climate_opinion (climate_change_opinion_txt f);
    initialise_region_score ].

Definition run (ps : list (list (string * Region A) → result (list (string * Region A))))
    (regions : list (string * Region A)) : result (list (string * Region A)) :=
  for_each (λ regions pass, pass regions) ps regions.

Definition init (f : files A) : result (list (string * Region A)) :=
  regions ← initialise_regions (country_names_csv f);
  run (passes f) regions.
End DataSet.
End DataSet.

(** ** twitter.py *)

(** The four sets of hashtags and of words, in the order they are written
    in: the loops over them count the matches, whatever the order. *)
Definition DENYING_HASHTAGS : list string := [
  "climatechangehoax";
  "globalwarminghoax";
  "climatedeniers";
  "climatechangeisfalse";
  "climatechangenotreal"
].
Definition NON_DENYING_HASHTAGS : list string := [
  "actonclimate";
  "climateaction";
  "climatechangeisreal";
  "globalwarmingisreal"
].
Definition DENYING_WORDS : list string := [
  "hoax";
  "not real";
  "debunk";
  "fake";
  "conspiracy"
].
Definition NON_DENYING_WORDS : list string := [
  "not a hoax";
  "quick";
  "real";
  "act"
].

(** A [datetime]. *)
Module datetime.
Record datetime : Set := mk {
  year : Z;
  month : Z;
  day : Z;
  hour : Z;
  minute : Z;
  second : Z;
}.
End datetime.

Record Tweet : Type := mk_Tweet {
  text : string;
  hashtags : gset string;
  date : datetime.datetime;
  location : string;
  user : string;
}.

Module TweetAnalyser.
Section TweetAnalyser.
Context {A : Type} `{PyNum A}.
(** [s.lower()] *)
Variable lower : string → string.
(** [tweet.location], where a parameter is called [location] as well. *)
Local Abbreviation tweet_location := location.

(** [sub in s] on strings. *)
Fixpoint contains (sub s : string) : bool :=
  String.prefix sub s ||
  match s with
  | EmptyString => false
  | String _ s' => contains sub s'
  end.

(** One of the four counting loops:
    [for word in words: if <test>: score += step; total += 1]. *)
Definition count_matches (test : string → bool) (step : Z) (words : list string)
    (score total : Z) : Z * Z :=
  foldl (λ '(score, total) word,
      if test word then (score + step, total + 1) else (score, total))
    (score, total) words.

Definition tweet_denial_rating (tweet : Tweet) : result A :=
  let denying_words_score := 0 in
  let denying_hashtags_score := 0 in
  let total_words := 0 in
  let total_hashtags := 0 in
  let '(denying_words_score, total_words) :=
    count_matches (λ denying_word, contains denying_word (text tweet)) 1
      DENYING_WORDS denying_words_score total_words in
  let '(denying_words_score, total_words) :=
    count_matches (λ non_denying_word, contains non_denying_word (text tweet)) (-1)
      NON_DENYING_WORDS denying_words_score total_words in
  let '(denying_hashtags_score, total_hashtags) :=
    count_matches (λ denying_hashtag, bool_decide (denying_hashtag ∈ hashtags tweet)) 1
      DENYING_HASHTAGS denying_hashtags_score total_hashtags in
  let '(denying_hashtags_score, total_hashtags) :=
    count_matches (λ non_denying_hashtag,
        bool_decide (non_denying_hashtag ∈ hashtags tweet)) (-1)
      NON_DENYING_HASHTAGS denying_hashtags_score total_hashtags in
  if total_words + total_hashtags =? 0 then Ok num_zero
  else
    true_div (num_of_int (denying_hashtags_score + denying_words_score))
      (num_of_int (total_words + total_hashtags)).

Definition location_score (tweets : list Tweet) (location : string) (is_code : bool)
    : result (A * nat) :=
  for_each (λ '(total, amount) tweet,
      if is_code then
        if contains location (tweet_location tweet) then
          rating ← tweet_denial_rating tweet;
          Ok (num_add total rating, S amount)
        else Ok (total, amount)
      else
        if contains location (lower (tweet_location tweet)) then
          rating ← tweet_denial_rating tweet;
          Ok (num_add total rating, S amount)
        else Ok (total, amount))
    tweets (num_zero, 0%nat).

(** [d.date()]: the year, the month and the day. *)
Definition date_of (d : datetime.datetime) : Z * Z * Z :=
  (datetime.year d, datetime.month d, datetime.day d).

(** [if date in dates: dates[date] += 1 else: dates[date] = 1] on an
    insertion-ordered dictionary. *)
Fixpoint count_date (date : Z * Z * Z) (dates : list (Z * Z * Z * Z))
    : list (Z * Z * Z * Z) :=
  match dates with
  | [] => [(date, 1)]
  | (d, count) :: dates' =>
      if decide (d = date) then (d, count + 1) :: dates'
      else (d, count) :: count_date date dates'
  end.

(** The inner loop of [common_times], over the indices still to visit:
    [for i in range(10):
         if top10[i][1] < dates[date]:
             top10.insert(i, (date, dates[date])); top10 = top10[:10]; break]. *)
Fixpoint place (top10 : list (option (Z * Z * Z) * Z)) (date : Z * Z * Z) (count : Z)
    (indices : list nat) : result (list (option (Z * Z * Z) * Z)) :=
  match indices with
  | [] => Ok top10
  | i :: rest =>
      e ← list_get top10 i;
      if e.2 <? count
      then Ok (take 10 (take i top10 ++ (Some date, count) :: drop i top10))
      else place top10 date count rest
  end.

(** [print(dates)] has no part in the result. *)
Definition common_times (tweets : list Tweet)
    : result (list (option (Z * Z * Z) * Z)) :=
  let dates :=
    foldl (λ dates tweet,
        if datetime.year (date tweet) =? 2020 then dates
        else count_date (date_of (date tweet)) dates)
      [] tweets in
  for_each (λ top10 '(date, count), place top10 date count (range 10))
    dates (replicate 10 (None, 0)).
End TweetAnalyser.
End TweetAnalyser.

(** ** final_report.py *)

Module FinalReport.
Section FinalReport.
Context {A : Type} `{PyNum A}.

(** [l.insert(i, x)] *)
Definition list_insert_at {T : Type} (i : nat) (x : T) (l : list T) : list T :=
  take i l ++ x :: drop i l.

(** The inner loop of both rankings, over the indices still to visit:
    [for i in range(10):
         if top10[i][1] < score:
             top10.insert(i, (region, score)); top10 = top10[:10]; break]. *)
Fixpoint place (top10 : list (option string * A)) (region : string) (score : A)
    (indices : list nat) : result (list (option string * A)) :=
  match indices with
  | [] => Ok top10
  | i :: rest =>
      e ← list_get top10 i;
      if num_ltb e.2 score
      then Ok (take 10 (list_insert_at i (Some region, score) top10))
      else place top10 region score rest
  end.

Definition largest_co2 (regions : list (string * Region A))
    : result (list (option string)) :=
  top10 ← for_each (λ top10 '(region, r),
      emissions ← dict_get (co2_emissions r) 2016;
      match emissions with
      | None => Ok top10
      | Some emissions => place top10 region emissions (range 10)
      end)
    regions (replicate 10 (None, num_zero));
  Ok (top10.*1).

Definition greatest_help (regions : list (string * Region A))
    : result (list (option string)) :=
  top10 ← for_each (λ top10 '(region, r),
      let score := region_score r in
      match score with
      | None => Ok top10
      | Some score => place top10 region score (range 10)
      end)
    regions (replicate 10 (None, num_zero));
  Ok (top10.*1).

Definition most_contributing_regions (regions : list (string * Region A))
    : result string :=
  names ← largest_co2 regions;
  Str.join ", " names.

Definition most_helpful_regions (regions : list (string * Region A))
    : result string :=
  names ← greatest_help regions;
  Str.join ", " names.

(** [s.lower()], [str(x)] and [round(x, ndigits)] *)
Variable lower : string → string.
Variable str : A → string.
Variable round : A → Z → A.

(** [self.tweets] is the argument [tweets].  The value returned is the
    quotient itself. *)
Definition average_score_of_state (tweets : list Tweet)
    (state_name state_abbreviation : string) : result A :=
  '(score0, total0) ← TweetAnalyser.location_score lower tweets state_name false;
  '(score1, total1) ← TweetAnalyser.location_score lower tweets state_abbreviation true;
  true_div (num_add score0 score1) (num_of_nat (total0 + total1)).

(** [d[key]] for a key that may be [None]: no dictionary of the program
    has the key [None], and the subscript raises [KeyError]. *)
Definition get_opt {V : Type} (d : list (string * V)) (key : option string)
    : result V :=
  match key with
  | Some key => Dict.get d key
  | None => Err KeyError
  end.

(** The two lists [data_points[0]] and [data_points[1]] that the table is
    made of are returned. *)
Definition location_and_emissions (regions : list (string * Region A))
    : result (list string * list A) :=
  let continents_emissions :=
    [ ("North America", num_zero);
      ("South America", num_zero);
      ("Africa", num_zero);
      ("Asia", num_zero);
      ("Oceania", num_zero);
      ("Europe", num_zero);
      ("Antarctica", num_zero) ] in
  let continents_total :=
    [ ("North America", 0%nat);
      ("South America", 0%nat);
      ("Africa", 0%nat);
      ("Asia", 0%nat);
      ("Oceania", 0%nat);
      ("Europe", 0%nat);
      ("Antarctica", 0%nat) ] in
  '(continents_emissions, continents_total) ←
    for_each (λ '(continents_emissions, continents_total) '(region_name, region),
        let continent := continent region in
        emissions ← dict_get (co2_emissions region) 2016;
        match emissions with
        | None => Ok (continents_emissions, continents_total)
        | Some emissions =>
            match continent with
            | None => Err KeyError
            | Some continent =>
                total ← Dict.get continents_total continent;
                let continents_total := Dict.set continent (S total) continents_total in
                sum ← Dict.get continents_emissions continent;
                let continents_emissions :=
                  Dict.set continent (num_add sum emissions) continents_emissions in
                Ok (continents_emissions, continents_total)
            end
        end)
      regions (continents_emissions, continents_total);
  for_each (λ '(names, averages) '(continent, emissions),
      total ← Dict.get continents_total continent;
      if (total =? 0)%nat then Ok (names, averages)
      else
        average ← true_div emissions (num_of_nat total);
        Ok (names ++ [continent], averages ++ [average]))
    continents_emissions ([], []).

Definition average_damage_helping_regions (regions : list (string * Region A))
    : result string :=
  top10 ← greatest_help regions;
  total ← for_each (λ total region,
      r ← get_opt regions region;
      match projected_damage r with
      | Some projected_damage => Ok (num_add total projected_damage)
      | None => Ok total
      end)
    top10 num_zero;
  average ← true_div total (num_of_nat 10);
  Ok (str (round average 3)).

(** The four functions below show figures: the slope, the intercept and
    R² that the title of each figure has are returned.  The percentages
    and the marks [1] and [0] are integers, read as numbers. *)
Definition denial_and_energy_production (regions : list (string * Region A))
    : result (A * A * A) :=
  '(x_values, y_values) ←
    for_each (λ '(x_values, y_values) '(region, r),
        let concerned := percentage_concerned r in
        match concerned with
        | Some concerned =>
            renewable_energy ← dict_get (renewable_energy r) 2016;
            match renewable_energy with
            | Some renewable_energy =>
                Ok (x_values ++ [num_of_int concerned], y_values ++ [renewable_energy])
            | None => Ok (x_values, y_values)
            end
        | None => Ok (x_values, y_values)
        end)
      regions ([], []);
  '(slope, intercept) ← Regression.linear_regression x_values y_values;
  r_squared ← Regression.strength_of_correlation slope intercept x_values y_values;
  Ok (slope, intercept, r_squared).

Definition denial_and_carbon_tax (regions : list (string * Region A))
    : result (A * A * A) :=
  '(x_values, y_values) ←
    for_each (λ '(x_values, y_values) '(region, r),
        let concerned := percentage_concerned r in
        match concerned with
        | Some concerned =>
            let carbon_tax := has_carbon_tax r in
            if carbon_tax
            then Ok (x_values ++ [num_of_int concerned], y_values ++ [num_of_int 1])
            else if negb carbon_tax
            then Ok (x_values ++ [num_of_int concerned], y_values ++ [num_of_int 0])
            else Ok (x_values, y_values)
        | None => Ok (x_values, y_values)
        end)
      regions ([], []);
  '(slope, intercept) ← Regression.linear_regression x_values y_values;
  r_squared ← Regression.strength_of_correlation slope intercept x_values y_values;
  Ok (slope, intercept, r_squared).

Definition gdp_per_capita_and_carbon_taxes (regions : list (string * Region A))
    : result (A * A * A) :=
  '(x_values, y_values) ←
    for_each (λ '(x_values, y_values) '(region, r),
        gdp_per_capita ← dict_get (gdp_per_capita r) 2016;
        match gdp_per_capita with
        | Some gdp_per_capita =>
            let carbon_tax := has_carbon_tax r in
            if carbon_tax
            then Ok (x_values ++ [gdp_per_capita], y_values ++ [num_of_int 1])
            else if negb carbon_tax
            then Ok (x_values ++ [gdp_per_capita], y_values ++ [num_of_int 0])
            else Ok (x_values, y_values)
        | None => Ok (x_values, y_values)
        end)
      regions ([], []);
  '(slope, intercept) ← Regression.linear_regression x_values y_values;
  r_squared ← Regression.strength_of_correlation slope intercept x_values y_values;
  Ok (slope, intercept, r_squared).

Definition damage_and_emissions (regions : list (string * Region A))
    : result ((A * A * A) * (A * A * A)) :=
  '(x0_values, x1_values, y0_values, y1_values) ←
    for_each (λ '(x0_values, x1_values, y0_values, y1_values) '(region, r),
        let concerned := projected_damage r in
        match concerned with
        | Some concerned =>
            emissions ← dict_get (co2_emissions r) 2016;
            emissions_per_capita ← dict_get (co2_emissions_per_capita r) 2016;
            let '(x0_values, y0_values) :=
              match emissions with
              | Some emissions => (x0_values ++ [concerned], y0_values ++ [emissions])
              | None => (x0_values, y0_values)
              end in
            let '(x1_values, y1_values) :=
              match emissions_per_capita with
              | Some emissions_per_capita =>
                  (x1_values ++ [concerned], y1_values ++ [emissions_per_capita])
              | None => (x1_values, y1_values)
              end in
            Ok (x0_values, x1_values, y0_values, y1_values)
        | None => Ok (x0_values, x1_values, y0_values, y1_values)
        end)
      regions ([], [], [], []);
  '(slope0, intercept0) ← Regression.linear_regression x0_values y0_values;
  '(slope1, intercept1) ← Regression.linear_regression x1_values y1_values;
  r_squared0 ← Regression.strength_of_correlation slope0 intercept0 x0_values y0_values;
  r_squared1 ← Regression.strength_of_correlation slope1 intercept1 x1_values y1_values;
  Ok ((slope0, intercept0, r_squared0), (slope1, intercept1, r_squared1)).
End FinalReport.
End FinalReport.

(** ** plots.py *)

Module Plots.
Section Plots.
Context {A : Type} `{PyNum A}.

(** [{year: year for year in range(1951, 2017)}]: the years are positive
    integers, read as numbers. *)
Definition years : gmap Z (option A) :=
  list_to_map ((λ year, (year, Some (num_of_nat (Z.to_nat year)))) <$> window).

Definition clean_time_data (x_values y_values : gmap Z (option A))
    : result (list A * list A) :=
  for_each (λ '(cleaned_x_values, cleaned_y_values) year,
      x ← dict_get x_values year;
      match x with
      | None => Ok (cleaned_x_values, cleaned_y_values)
      | Some x =>
          y ← dict_get y_values year;
          match y with
          | None => Ok (cleaned_x_values, cleaned_y_values)
          | Some y => Ok (cleaned_x_values ++ [x], cleaned_y_values ++ [y])
          end
      end)
    window ([], []).

(** The figure shows the points and the fitted line, and has the slope,
    the intercept and R² in its title: these three numbers are returned. *)
Definition linear_plot (x_values y_values : list A) : result (A * A * A) :=
  '(slope, intercept) ← Regression.linear_regression x_values y_values;
  r_squared ← Regression.strength_of_correlation slope intercept x_values y_values;
  Ok (slope, intercept, r_squared).

(** [len(xs) != 0 and len(ys) != 0] *)
Definition both_nonempty (xs ys : list A) : bool :=
  negb (length xs =? 0)%nat && negb (length ys =? 0)%nat.

(** [getattr(region, var)] for one of the series that the menu offers is
    the series itself, [var region].  [None] is returned when nothing is
    displayed. *)
Definition in_region_over_time (region : Region A)
    (y_var : Region A → gmap Z (option A)) : result (option (A * A * A)) :=
  let x_values := years in
  let y_values := y_var region in
  '(cleaned_x_values, cleaned_y_values) ← clean_time_data x_values y_values;
  if both_nonempty cleaned_x_values cleaned_y_values
  then
    fit ← linear_plot cleaned_x_values cleaned_y_values;
    Ok (Some fit)
  else Ok None.

Definition in_region (region : Region A)
    (x_var y_var : Region A → gmap Z (option A)) : result (option (A * A * A)) :=
  let x_values := x_var region in
  let y_values := y_var region in
  '(cleaned_x_values, cleaned_y_values) ← clean_time_data x_values y_values;
  if both_nonempty cleaned_x_values cleaned_y_values
  then
    fit ← linear_plot cleaned_x_values cleaned_y_values;
    Ok (Some fit)
  else Ok None.

Definition average_all_regions_over_time (regions : list (string * Region A))
    (var : Region A → gmap Z (option A)) : result (gmap Z (option A)) :=
  let values : gmap Z (option A) := list_to_map ((λ key, (key, None)) <$> window) in
  for_each (λ values year,
      '(total, amount) ←
        for_each (λ '(total, amount) '(region, r),
            val ← dict_get (var r) year;
            match val with
            | Some val => Ok (num_add total val, S amount)
            | None => Ok (total, amount)
            end)
          regions (num_zero, 0%nat);
      if (amount =? 0)%nat then Ok (<[year := None]> values)
      else
        average ← true_div total (num_of_nat amount);
        Ok (<[year := Some average]> values))
    window values.

Definition final_over_all_regions (regions : list (string * Region A))
    (x_var y_var : Region A → gmap Z (option A)) : result (list A * list A) :=
  for_each (λ '(x_values, y_values) '(region, r),
      x_val ← dict_get (x_var r) 2016;
      y_val ← dict_get (y_var r) 2016;
      match x_val, y_val with
      | Some x_val, Some y_val => Ok (x_values ++ [x_val], y_values ++ [y_val])
      | _, _ => Ok (x_values, y_values)
      end)
    regions ([], []).

Definition all_regions_over_time (regions : list (string * Region A))
    (y_var : Region A → gmap Z (option A)) : result (option (A * A * A)) :=
  let x_values := years in
  y_values ← average_all_regions_over_time regions y_var;
  '(cleaned_x_values, cleaned_y_values) ← clean_time_data x_values y_values;
  if both_nonempty cleaned_x_values cleaned_y_values
  then
    fit ← linear_plot cleaned_x_values cleaned_y_values;
    Ok (Some fit)
  else Ok None.

Definition all_regions (regions : list (string * Region A))
    (x_var y_var : Region A → gmap Z (option A)) : result (A * A * A) :=
  '(x_values, y_values) ← final_over_all_regions regions x_var y_var;
  linear_plot x_values y_values.
End Plots.
End Plots.

(** ** Vocabulary of the properties *)

(** The years of the window as a set of keys. *)
Definition window_set : gset Z := list_to_set window.

Section Vocabulary.
Context {A : Type} `{PyNum A}.

(** A region whose seven series have sets of keys with the property [P]. *)
Definition series_keys (P : gset Z → Prop) (r : Region A) : Prop :=
  ∀ sel, sel ∈ metric_series → P (dom (sel r)).

(** A region whose seven series are keyed by the years of the window,
    all of them and no other. *)
Definition well_keyed (r : Region A) : Prop :=
  ∀ sel, sel ∈ metric_series → dom (sel r) = window_set.

(** A region whose seven series have their keys in the window. *)
Definition keys_in_window (r : Region A) : Prop :=
  ∀ sel, sel ∈ metric_series → dom (sel r) ⊆ window_set.

(** The three indicators that have a per-capita variant, with the series
    each pass divides, the series it writes and the pass itself. *)
Inductive indicator : Set := Gdp | Co2 | Renewables.

Definition base_of (m : indicator) : Region A → gmap Z (option A) :=
  match m with
  | Gdp => gdp
  | Co2 => co2_emissions
  | Renewables => renewable_energy
  end.

Definition derived_of (m : indicator) : Region A → gmap Z (option A) :=
  match m with
  | Gdp => gdp_per_capita
  | Co2 => co2_emissions_per_capita
  | Renewables => renewable_energy_per_capita
  end.

Definition store_derived (m : indicator)
    : gmap Z (option A) → Region A → Region A :=
  match m with
  | Gdp => set_gdp_per_capita
  | Co2 => set_co2_emissions_per_capita
  | Renewables => set_renewable_energy_per_capita
  end.

Definition derive (m : indicator)
    : list (string * Region A) → result (list (string * Region A)) :=
  match m with
  | Gdp => DataSet.initialise_gdp_per_capita
  | Co2 => DataSet.initialise_co2_emissions_per_capita
  | Renewables => DataSet.initialise_renewables_per_capita
  end.
End Vocabulary.

(** ** Vocabulary of the rankings *)

Section RankingVocabulary.
Context {A : Type} `{PyNum A}.

(** The two rankings of [final_report.py] and the score each ranks by:
    the emissions of 2016, the composite score. *)
Inductive ranking : Set := ByEmissions | ByScore.

Definition rank (which : ranking)
    : list (string * Region A) → result (list (option string)) :=
  match which with
  | ByEmissions => FinalReport.largest_co2
  | ByScore => FinalReport.greatest_help
  end.

Definition rank_score (which : ranking) (r : Region A) : option A :=
  match which with
  | ByEmissions => default None (co2_emissions r !! 2016)
  | ByScore => region_score r
  end.

(** The names of a registry with the score each is ranked by. *)
Definition candidates (which : ranking) (regions : list (string * Region A))
    : list (string * option A) :=
  (λ e, (e.1, rank_score which e.2)) <$> regions.

(** A score that is present and above the [0] of the empty slots. *)
Definition positive (score : option A) : bool :=
  match score with
  | Some s => num_ltb num_zero s
  | None => false
  end.

(** The inner loop read on the list itself: the candidate goes before
    the first leader with a lower score, and nowhere if there is none. *)
Fixpoint insert_before_lower (c : option string * A)
    (top : list (option string * A)) : list (option string * A) :=
  match top with
  | [] => []
  | e :: top' =>
      if num_ltb e.2 c.2 then c :: e :: top'
      else e :: insert_before_lower c top'
  end.

(** The outer loop over the candidates. *)
Definition top10_step (top : list (option string * A))
    (c : string * option A) : list (option string * A) :=
  match c.2 with
  | None => top
  | Some s => take 10 (insert_before_lower (Some c.1, s) top)
  end.

Definition top10_of (cands : list (string * option A))
    : list (option string * A) :=
  foldl top10_step (replicate 10 (None, num_zero)) cands.
End RankingVocabulary.

(** What holds of the ten leaders [top] once the candidates [cands] have
    been seen, in exact arithmetic: ten entries, in descending order of
    score; each an empty slot or a candidate seen with a positive score; a
    candidate seen with a positive score is among them or is no higher than
    any of them; no name twice. *)
Record leaders (top : list (option string * Qc)) (cands : list (string * option Qc))
    : Prop := mk_leaders {
  leaders_length : length top = 10%nat;
  leaders_sorted : StronglySorted (λ a b, (b.2 ≤ a.2)%Qc) top;
  leaders_seen : ∀ e, e ∈ top →
    e = (None, 0%Qc) ∨ ∃ n s, e = (Some n, s) ∧ (n, Some s) ∈ cands ∧ (0 < s)%Qc;
  leaders_highest : ∀ n s, (n, Some s) ∈ cands → (0 < s)%Qc →
    (Some n, s) ∈ top ∨ ∀ e, e ∈ top → (s ≤ e.2)%Qc;
  leaders_distinct : NoDup (omap fst top);
}.

(** ** Sample data *)

Section Samples.
Context {A : Type} `{PyNum A}.

(** A fresh series with some years filled in. *)
Definition fill (entries : list (Z * A)) : gmap Z (option A) :=
  foldr (λ e d, <[e.1 := Some e.2]> d) defualt_dict entries.

(** A fresh region with some years of its population, GDP, CO2 and
    renewable-energy series filled in, and its carbon-tax flag. *)
Definition sample_region (name : string)
    (population gdp co2 renewable : list (Z * A)) (tax : bool) : Region A :=
  set_population (fill population)
    (set_gdp (fill gdp)
       (set_co2_emissions (fill co2)
          (set_renewable_energy (fill renewable)
             (set_has_carbon_tax tax (new_Region name ""))))).

(** A fresh region with a score. *)
Definition scored_region (name : string) (score : option A) : Region A :=
  set_region_score score (new_Region name "").

(** A small [CO2_emissions.json]: France has records of 1950, 2000 and
    2020, the United States one of 2016. *)
Definition sample_json : gmap string (list (json_line A)) :=
  {[ "France" :=
       [ mk_line 1950 {[ "co2" := Some (num_of_nat 1) ]};
         mk_line 2000 (<[ "population" := Some (num_of_nat 3) ]>
                         {[ "co2" := Some (num_of_nat 2) ]});
         mk_line 2020 {[ "co2" := Some (num_of_nat 4) ]} ];
     "United States" :=
       [ mk_line 2016 (<[ "gdp" := Some (num_of_nat 9) ]>
                         {[ "co2" := Some (num_of_nat 5) ]}) ] ]}.
End Samples.

(** A small [country_names.csv]: a header, the countries that have a carbon
    tax, and the two countries that [initialise_regions] renames. *)
Definition sample_country_names : list string :=
  "Continent_Name,Continent_Code,Country_Name" ::
  "Europe,EU,United Kingdom of Great Britain & Northern Ireland" ::
  "North America,NA,United States of America" ::
  ((λ country, "Earth,EA," +:+ country) <$>
     filter (λ country, country ≠ "United Kingdom") COUNTRIES_WITH_CARBON_TAX).

(** A small IRENA file: nine lines of header, then one line for "USA" with
    the amounts of 2000 and 2016, and one for a region that is not
    registered. *)
Definition sample_IRENA : list string :=
  replicate 9 "" ++
  [ "NA,USA,Total,5,,,,,,,,,,,,,,,,7";
    "NA,Atlantis,Total,1,,,,,,,,,,,,,,,,1" ].

(** A small projected-damage file and a small opinion file, tab-separated. *)
Definition tsv (fields : list string) : string :=
  String.concat (String Str.tab EmptyString) fields.
Definition sample_projected_damage : list string :=
  [ tsv ["Country"; "Change"];
    tsv ["United States of America"; "2"];
    tsv ["France"; "3"] ].
Definition sample_opinion : list string :=
  [ tsv ["U.S."; "45%."]; tsv ["France"; "60%."] ].

(** [float] and [int] on unsigned decimal literals. *)
Fixpoint digits (s : string) (acc : Z) : option Z :=
  match s with
  | EmptyString => Some acc
  | String c s' =>
      let n := Z.of_nat (nat_of_ascii c) - 48 in
      if bool_decide (0 ≤ n ≤ 9) then digits s' (10 * acc + n) else None
  end.
Definition sample_int (s : string) : option Z :=
  match s with
  | EmptyString => None
  | _ => digits s 0
  end.
Definition sample_float (s : string) : option Qc := Qc_of_Z <$> sample_int s.

Definition sample_files : files Qc :=
  mk_files sample_country_names sample_json sample_IRENA
    sample_projected_damage sample_opinion.

(** ** Vocabulary of the further properties *)

(** The sum of [f] over a list, in exact arithmetic. *)
Definition sum_of {X : Type} (f : X → Qc) (l : list X) : Qc :=
  foldr (λ x acc, (f x + acc)%Qc) 0%Qc l.

(** The mean of [f] over a list, in exact arithmetic. *)
Definition mean_of {X : Type} (f : X → Qc) (l : list X) : Qc :=
  (sum_of f l / Qc_of_Z (Z.of_nat (length l)))%Qc.

(** The number of occurrences of a character in a string. *)
Fixpoint occurrences (c : ascii) (s : string) : nat :=
  match s with
  | EmptyString => 0
  | String c' s' => (if Ascii.eqb c' c then 1 else 0) + occurrences c s'
  end.

(** A field of a line of [country_names.csv] that needs no quoting: it has
    no comma and no quotation mark. *)
Definition quotation_mark : ascii := ascii_of_nat 34.
Definition plain (field : string) : Prop :=
  occurrences Str.comma field = 0%nat ∧ occurrences quotation_mark field = 0%nat.

(** The records of a region's JSON data for one year that have the key. *)
Definition records_for {A : Type} (key : string) (year : Z)
    (data : list (json_line A)) : list (json_line A) :=
  filter (λ line, line_year line = year ∧ is_Some (line_keys line !! key)) data.

(** The registry with the carbon-tax flag set for the listed countries. *)
Definition with_carbon_tax {A : Type} (regions : list (string * Region A))
    : list (string * Region A) :=
  (λ e, (e.1, if bool_decide (e.1 ∈ COUNTRIES_WITH_CARBON_TAX)
              then set_has_carbon_tax true e.2 else e.2)) <$> regions.

(** The attributes of a region that the passes of [__init__] assign. *)
Inductive attribute : Set :=
  | Attr_population | Attr_has_carbon_tax
  | Attr_co2_emissions | Attr_co2_emissions_per_capita
  | Attr_gdp | Attr_gdp_per_capita
  | Attr_renewable_energy | Attr_renewable_energy_per_capita
  | Attr_projected_damage | Attr_percentage_concerned | Attr_region_score.

Section Attributes.
Context {A : Type}.

(** The region [r] with one attribute taken from [r']. *)
Definition with_attribute (a : attribute) (r r' : Region A) : Region A :=
  match a with
  | Attr_population => set_population (population r') r
  | Attr_has_carbon_tax => set_has_carbon_tax (has_carbon_tax r') r
  | Attr_co2_emissions => set_co2_emissions (co2_emissions r') r
  | Attr_co2_emissions_per_capita =>
      set_co2_emissions_per_capita (co2_emissions_per_capita r') r
  | Attr_gdp => set_gdp (gdp r') r
  | Attr_gdp_per_capita => set_gdp_per_capita (gdp_per_capita r') r
  | Attr_renewable_energy => set_renewable_energy (renewable_energy r') r
  | Attr_renewable_energy_per_capita =>
      set_renewable_energy_per_capita (renewable_energy_per_capita r') r
  | Attr_projected_damage => set_projected_damage (projected_damage r') r
  | Attr_percentage_concerned => set_percentage_concerned (percentage_concerned r') r
  | Attr_region_score => set_region_score (region_score r') r
  end.

(** Two registries with the same names in the same order, whose regions
    differ in one attribute at most. *)
Definition differ_in (a : attribute) (regions regions' : list (string * Region A))
    : Prop :=
  Forall2 (λ e e', e'.1 = e.1 ∧ e'.2 = with_attribute a e.2 e'.2) regions regions'.
End Attributes.

(** The attribute that each pass of [__init__] assigns, in the order of
    the calls. *)
Definition pass_attribute : list attribute :=
  [ Attr_co2_emissions; Attr_gdp; Attr_renewable_energy; Attr_population;
    Attr_gdp_per_capita; Attr_co2_emissions_per_capita;
    Attr_renewable_energy_per_capita; Attr_has_carbon_tax;
    Attr_projected_damage; Attr_percentage_concerned; Attr_region_score ].

(** A registry of the countries that have a carbon tax and of one that has
    none, without data. *)
Definition sample_taxed : list (string * Region Qc) :=
  (λ country, (country, new_Region country "Earth")) <$>
    (COUNTRIES_WITH_CARBON_TAX ++ ["Atlantis"]).

(** The pairs of values of two series in the years of the window that have
    both, in the order of the years. *)
Definition paired {A : Type} (x_values y_values : gmap Z (option A)) : list (A * A) :=
  omap (λ year,
      match default None (x_values !! year), default None (y_values !! year) with
      | Some x, Some y => Some (x, y)
      | _, _ => None
      end) window.

(** The pairs of values of two series in 2016, over the regions that have
    both, and the values of a series in one year over the regions that have
    one, in the order of the registry. *)
Definition paired_2016 {A : Type} (x_var y_var : Region A → gmap Z (option A))
    (regions : list (string * Region A)) : list (A * A) :=
  omap (λ e,
      match default None (x_var e.2 !! 2016), default None (y_var e.2 !! 2016) with
      | Some x, Some y => Some (x, y)
      | _, _ => None
      end) regions.
Definition values_in {A : Type} (var : Region A → gmap Z (option A)) (year : Z)
    (regions : list (string * Region A)) : list A :=
  omap (λ e, default None (var e.2 !! year)) regions.

(** The number of the words of a list that pass a test, and the numbers of
    denying and of non-denying words and hashtags that a tweet matches. *)
Definition matched (test : string → bool) (words : list string) : Z :=
  Z.of_nat (length (filter (λ word, test word) words)).
Definition denying_matches (tweet : Tweet) : Z :=
  matched (λ word, TweetAnalyser.contains word (text tweet)) DENYING_WORDS
  + matched (λ hashtag, bool_decide (hashtag ∈ hashtags tweet)) DENYING_HASHTAGS.
Definition non_denying_matches (tweet : Tweet) : Z :=
  matched (λ word, TweetAnalyser.contains word (text tweet)) NON_DENYING_WORDS
  + matched (λ hashtag, bool_decide (hashtag ∈ hashtags tweet)) NON_DENYING_HASHTAGS.

(** The rating: the difference of the two numbers over their sum, and [0]
    when nothing matches. *)
Definition rating_of (tweet : Tweet) : Qc :=
  if decide (denying_matches tweet + non_denying_matches tweet = 0) then 0%Qc
  else (Qc_of_Z (denying_matches tweet - non_denying_matches tweet)
        / Qc_of_Z (denying_matches tweet + non_denying_matches tweet))%Qc.

(** The tweets that [location_score] counts. *)
Definition located (lower : string → string) (place : string) (is_code : bool)
    (tweets : list Tweet) : list Tweet :=
  filter (λ tweet,
      TweetAnalyser.contains place
        (if is_code then location tweet else lower (location tweet)))
    tweets.

(** A tweet that says that climate change is not real, without hashtags. *)
Definition sample_tweet : Tweet :=
  mk_Tweet "climate change is not real" ∅ (datetime.mk 2019 12 21 20 50 12)
    "Austin, TX" "someone".

(** The projected damage of a region of the registry, [0] when it has
    none. *)
Definition damage_in (regions : list (string * Region Qc)) (name : string) : Qc :=
  match Dict.find regions name with
  | Some r => default 0%Qc (projected_damage r)
  | None => 0%Qc
  end.

(** The keys of the two dictionaries of [location_and_emissions], and the
    emissions of 2016 of the regions of a continent that have them. *)
Definition CONTINENTS : list string :=
  ["North America"; "South America"; "Africa"; "Asia"; "Oceania"; "Europe";
   "Antarctica"].
Definition emissions_of {A : Type} (continent_name : string)
    (regions : list (string * Region A)) : list A :=
  omap (λ e,
      if decide (continent e.2 = Some continent_name)
      then default None (co2_emissions e.2 !! 2016) else None)
    regions.

(** A dictionary given by a function on its keys. *)
Definition table_of {V : Type} (keys : list string) (f : string → V)
    : list (string * V) :=
  (λ key, (key, f key)) <$> keys.

(** A fresh region of a continent with some years of its CO2 series
    filled in. *)
Definition sample_emitter {A : Type} (name continent : string) (co2 : list (Z * A))
    : Region A :=
  set_co2_emissions (fill co2) (new_Region name continent).

(** The number of the tweets of a day. *)
Definition tweets_on (day : Z * Z * Z) (tweets : list Tweet) : Z :=
  Z.of_nat (length (filter (λ tweet, TweetAnalyser.date_of (date tweet) = day) tweets)).

(** The points of a figure of [final_report.py]: the regions that have an
    [x] and a [y], in the order of the registry. *)
Definition points_of {A : Type} (x_of y_of : Region A → option A)
    (regions : list (string * Region A)) : list (A * A) :=
  omap (λ e, x ← x_of e.2; y ← y_of e.2; Some (x, y)) regions.

(** The points of a plot over time: the years of the window in which the
    series has a value, each as a number, with the value. *)
Definition dated `{PyNum A} (series : gmap Z (option A)) : list (A * A) :=
  omap (λ year,
      v ← default None (series !! year); Some (num_of_nat (Z.to_nat year), v))
    window.

(** The coordinates: the percentage concerned, the value of a series in
    2016, and the mark of the carbon tax. *)
Definition concerned_of `{PyNum A} (r : Region A) : option A :=
  num_of_int <$> percentage_concerned r.
Definition in_2016 {A : Type} (var : Region A → gmap Z (option A)) (r : Region A)
    : option A :=
  default None (var r !! 2016).
Definition tax_of `{PyNum A} (r : Region A) : option A :=
  Some (num_of_int (if has_carbon_tax r then 1 else 0)).

(** A fresh region with a percentage concerned, a carbon-tax flag and some
    years of its renewable-energy and GDP-per-capita series, and one with a
    projected damage and some years of its two CO2 series. *)
Definition sample_polled {A : Type} (name : string) (concerned : option Z) (tax : bool)
    (renewable gdp_per_capita : list (Z * A)) : Region A :=
  set_percentage_concerned concerned
    (set_has_carbon_tax tax
       (set_renewable_energy (fill renewable)
          (set_gdp_per_capita (fill gdp_per_capita) (new_Region name "")))).
Definition sample_damaged {A : Type} (name : string) (damage : option A)
    (co2 co2_per_capita : list (Z * A)) : Region A :=
  set_projected_damage damage
    (set_co2_emissions (fill co2)
       (set_co2_emissions_per_capita (fill co2_per_capita) (new_Region name ""))).

(** * Properties *)

(** ** The error monad and loops *)

Lemma bind_Ok {T U : Type} (r : result T) (k : T → result U) (u : U) :
  r ≫= k = Ok u ↔ ∃ t, r = Ok t ∧ k t = Ok u.
Proof.
  destruct r as [t|e]; simpl; split.
  - eauto.
  - by intros (t' & [= <-] & ?).
  - done.
  - by intros (t' & ? & ?).
Qed.

Lemma for_each_app {S X : Type} (body : S → X → result S) (xs ys : list X) (s : S) :
  for_each body (xs ++ ys) s = for_each body xs s ≫= for_each body ys.
Proof.
  revert s. induction xs as [|x xs IH]; intros s; simpl; [done|].
  destruct (body s x) as [s'|e]; simpl; [apply IH|done].
Qed.

Lemma list_get_Ok {T : Type} (xs : list T) (i : nat) (x : T) :
  list_get xs i = Ok x ↔ xs !! i = Some x.
Proof. unfold list_get. destruct (xs !! i); naive_solver. Qed.

Lemma list_get_lt {T : Type} (xs : list T) (i : nat) :
  (i < length xs)%nat → ∃ x, list_get xs i = Ok x.
Proof.
  intros [x Hx]%lookup_lt_is_Some_2. exists x. by apply list_get_Ok.
Qed.

Lemma list_get_replicate {T : Type} (n i : nat) (x : T) :
  (i < n)%nat → list_get (replicate n x) i = Ok x.
Proof. intros. by apply list_get_Ok, lookup_replicate_2. Qed.

Lemma dict_get_Ok `{Countable K} {V : Type} (d : gmap K V) (k : K) (v : V) :
  dict_get d k = Ok v ↔ d !! k = Some v.
Proof. unfold dict_get. destruct (d !! k); naive_solver. Qed.

(** A property that every iteration keeps is kept by the loop. *)
Lemma for_each_invariant {S X : Type} (P : S → Prop) (body : S → X → result S)
    (xs : list X) (s s' : S) :
  (∀ s x s', x ∈ xs → P s → body s x = Ok s' → P s') →
  P s → for_each body xs s = Ok s' → P s'.
Proof.
  revert s. induction xs as [|x xs IH]; intros s Hbody Hs; simpl.
  - by intros [= <-].
  - intros (s1 & H1 & H2)%bind_Ok.
    apply (IH s1); [|by eapply Hbody; [left|..]|done].
    intros ????; apply Hbody. by right.
Qed.

(** A loop whose iterations all succeed is a fold. *)
Lemma for_each_pure {S X : Type} (step : S → X → S) (body : S → X → result S)
    (xs : list X) (s : S) :
  (∀ s x, x ∈ xs → body s x = Ok (step s x)) →
  for_each body xs s = Ok (foldl step s xs).
Proof.
  revert s. induction xs as [|x xs IH]; intros s Hbody; simpl; [done|].
  rewrite Hbody by left. simpl. apply IH. intros; apply Hbody. by right.
Qed.

(** ** regression.py in exact arithmetic *)

Section RegressionExact.
Local Open Scope Qc_scope.
Import Regression.

Lemma Qc_of_nat_S (n : nat) : Qc_of_Z (Z.of_nat (S n)) = Qc_of_Z (Z.of_nat n) + 1.
Proof. by rewrite Nat2Z.inj_succ, <-Z.add_1_r, Z2Qc_inj_add, Z2Qc_inj_1. Qed.

Lemma Qc_of_nat_S_nonzero (n : nat) : Qc_of_Z (Z.of_nat (S n)) ≠ 0.
Proof. rewrite <-Z2Qc_inj_0. intros ?%Z2Qc_inj. lia. Qed.

Lemma foldl_plus_replicate (c a : Qc) (n : nat) :
  foldl Qcplus a (replicate n c) = a + Qc_of_Z (Z.of_nat n) * c.
Proof.
  revert a. induction n as [|n IH]; intros a.
  - change (Z.of_nat 0) with 0%Z. rewrite Z2Qc_inj_0. cbn [replicate foldl]. ring.
  - rewrite Qc_of_nat_S. cbn [replicate foldl]. rewrite IH. ring.
Qed.

Lemma mean_replicate (c : Qc) (n : nat) : mean (replicate (S n) c) = Ok c.
Proof.
  unfold mean, true_div, sum. rewrite length_replicate.
  cbn [num_is_zero num_quot num_of_nat num_add num_zero Qc_num].
  rewrite bool_decide_false by apply Qc_of_nat_S_nonzero.
  f_equal. rewrite foldl_plus_replicate.
  field. apply Qc_of_nat_S_nonzero.
Qed.

Lemma sq_diag (c : Qc) : 0 + (c - c) * (c - c) = 0.
Proof. ring. Qed.

Lemma mean_nil_Qc : mean (A:=Qc) [] = Err ZeroDivisionError.
Proof. reflexivity. Qed.

Lemma all_equal_replicate (c : Qc) (xs : list Qc) :
  (∀ x, x ∈ xs → x = c) → xs = replicate (length xs) c.
Proof.
  intros Hxs. symmetry. apply replicate_as_Forall. split; [done|].
  apply Forall_forall. intros x Hx. symmetry. auto.
Qed.

(** The accumulation loop of [linear_regression] when every [x] is the
    mean: the denominator stays [0]. *)
Lemma regression_loop_degenerate (c y_mean : Qc) (n : nat) (ys : list Qc)
    (indices : list nat) (numerator : Qc) :
  length ys = n → (∀ i, i ∈ indices → (i < n)%nat) →
  ∃ numerator',
    for_each (λ '(numerator, denominator) i,
        xi ← list_get (replicate n c) i;
        yi ← list_get ys i;
        let numerator :=
          num_add numerator (num_mul (num_sub xi c) (num_sub yi y_mean)) in
        square ← sq (num_sub xi c);
        Ok (numerator, num_add denominator square))
      indices (numerator, num_zero) = Ok (numerator', num_zero).
Proof.
  intros Hlen. revert numerator.
  induction indices as [|i indices IH]; intros numerator Hi; simpl; [by eauto|].
  assert (i < n)%nat as Hin by (apply Hi; left).
  rewrite list_get_replicate by done.
  destruct (list_get_lt ys i) as [y ->]; [lia|]. simpl.
  rewrite sq_diag.
  apply IH. intros; apply Hi. by right.
Qed.

Lemma linear_regression_degenerate (c : Qc) (xs ys : list Qc) :
  xs ≠ [] → (∀ x, x ∈ xs → x = c) → length ys = length xs →
  linear_regression xs ys = Err ZeroDivisionError.
Proof.
  intros Hne Hxs Hlen.
  assert (∃ m, length xs = S m) as [m Hm] by (destruct xs; [done|eauto]).
  rewrite (all_equal_replicate c xs Hxs), Hm. rewrite Hm in Hlen.
  unfold linear_regression. rewrite length_replicate, mean_replicate.
  cbn [mbind result_bind].
  destruct (mean ys) as [y_mean|e] eqn:Hmean; cbn [mbind result_bind].
  - destruct (regression_loop_degenerate c y_mean (S m) ys (range (S m)) num_zero)
      as [numerator' Hloop]; [done| |].
    { intros i [_ ?]%elem_of_seq. lia. }
    cbn zeta in Hloop |- *. by rewrite Hloop.
  - destruct ys; [done|]. unfold mean, true_div in Hmean.
    cbn [num_is_zero num_of_nat Qc_num length] in Hmean.
    by rewrite bool_decide_false in Hmean by apply Qc_of_nat_S_nonzero.
Qed.

(** The accumulation loop of [strength_of_correlation] when every [y] is
    the mean: the total sum of squares stays [0]. *)
Lemma correlation_loop_degenerate (c slope intercept : Qc) (n : nat)
    (xs : list Qc) (indices : list nat) (s_res : Qc) :
  length xs = n → (∀ i, i ∈ indices → (i < n)%nat) →
  ∃ s_res',
    for_each (λ '(s_tot, s_res) i,
        yi ← list_get (replicate n c) i;
        square ← sq (num_sub yi c);
        let s_tot := num_add s_tot square in
        xi ← list_get xs i;
        square ← sq (num_sub yi (num_add intercept (num_mul slope xi)));
        Ok (s_tot, num_add s_res square))
      indices (num_zero, s_res) = Ok (num_zero, s_res').
Proof.
  intros Hlen. revert s_res.
  induction indices as [|i indices IH]; intros s_res Hi; simpl; [by eauto|].
  assert (i < n)%nat as Hin by (apply Hi; left).
  rewrite list_get_replicate by done.
  destruct (list_get_lt xs i) as [x ->]; [lia|]. simpl.
  rewrite sq_diag.
  apply IH. intros; apply Hi. by right.
Qed.

Lemma strength_of_correlation_degenerate (c slope intercept : Qc)
    (xs ys : list Qc) :
  (∀ y, y ∈ ys → y = c) → length xs = length ys →
  strength_of_correlation slope intercept xs ys = Err ZeroDivisionError.
Proof.
  intros Hys Hlen. destruct ys as [|y ys]; [done|].
  rewrite (all_equal_replicate c _ Hys). simpl length in *.
  unfold strength_of_correlation. rewrite length_replicate, mean_replicate.
  cbn [mbind result_bind].
  destruct (correlation_loop_degenerate c slope intercept (S (length ys)) xs
              (range (S (length ys))) num_zero) as [s_res' Hloop]; [done| |].
  { intros i [_ ?]%elem_of_seq. lia. }
  cbn zeta in Hloop |- *. by rewrite Hloop.
Qed.
End RegressionExact.

Local Abbreviation qc := Qc_of_Z.

Section RegressionClaims.
Import Regression.

Local Ltac qc_compute :=
  vm_compute; repeat first [ by apply Qc_is_canon | f_equal ].

(** C9. On the sample points (1,2), (2,4), (3,6) [linear_regression]
    returns slope 2 and intercept 0, and [strength_of_correlation] applied
    to that slope, that intercept and those samples returns 1; so it is in
    exact arithmetic, and so it is, without any rounding, in binary64. *)
Theorem regression_on_sample_points :
  linear_regression [qc 1; qc 2; qc 3] [qc 2; qc 4; qc 6] = Ok (qc 2, qc 0) ∧
  strength_of_correlation (qc 2) (qc 0) [qc 1; qc 2; qc 3] [qc 2; qc 4; qc 6] = Ok (qc 1) ∧
  linear_regression [1; 2; 3]%float [2; 4; 6]%float = Ok (2, 0)%float ∧
  strength_of_correlation 2%float 0%float [1; 2; 3]%float [2; 4; 6]%float
    = Ok 1%float.
Proof.
  split; [qc_compute|]. split; [qc_compute|].
  split; vm_compute; reflexivity.
Qed.

(** C2, as the code has it.  With zero samples [linear_regression] raises
    [ZeroDivisionError] (out of [mean]), in exact arithmetic and in
    binary64.  In exact arithmetic, [linear_regression] on one or more
    equal x-values with as many y-values, and [strength_of_correlation]
    on equal y-values with as many x-values, raise [ZeroDivisionError].
    The exception reaches the caller: it is the result of the call.  In
    binary64 equal values do not always raise: there are equal x-values on
    which [linear_regression] returns a line, and equal y-values on which
    [strength_of_correlation] returns a number. *)
Theorem regression_degenerate_inputs :
  (∀ ys : list Qc, linear_regression [] ys = Err ZeroDivisionError) ∧
  (∀ ys : list float, linear_regression [] ys = Err ZeroDivisionError) ∧
  (∀ (c : Qc) (xs ys : list Qc),
     xs ≠ [] → (∀ x, x ∈ xs → x = c) → length ys = length xs →
     linear_regression xs ys = Err ZeroDivisionError) ∧
  (∀ (c slope intercept : Qc) (xs ys : list Qc),
     (∀ y, y ∈ ys → y = c) → length xs = length ys →
     strength_of_correlation slope intercept xs ys = Err ZeroDivisionError) ∧
  (∃ (c : float) (xs ys : list float) line,
     xs ≠ [] ∧ (∀ x, x ∈ xs → x = c) ∧ length ys = length xs ∧
     linear_regression xs ys = Ok line) ∧
  (∃ (c slope intercept : float) (xs ys : list float) r_squared,
     ys ≠ [] ∧ (∀ y, y ∈ ys → y = c) ∧ length xs = length ys ∧
     strength_of_correlation slope intercept xs ys = Ok r_squared).
Proof.
  split; [done|]. split; [done|]. split; [apply linear_regression_degenerate|].
  split; [apply strength_of_correlation_degenerate|]. split.
  - exists 0x1.999999999999ap-4%float, (replicate 3 0x1.999999999999ap-4%float),
      [1; 2; 3]%float, (0, 2)%float.
    split; [done|]. split; [by intros x [-> _]%elem_of_replicate|].
    split; [done|]. vm_compute. reflexivity.
  - exists 0x1.999999999999ap-4%float, 0%float, 2%float, [1; 2; 3]%float,
      (replicate 3 0x1.999999999999ap-4%float), (-0x1.ce147ae147ae1p+113)%float.
    split; [done|]. split; [by intros y [-> _]%elem_of_replicate|].
    split; [done|]. vm_compute. reflexivity.
Qed.

Lemma regression_degenerate_inputs_witness :
  linear_regression [qc 5; qc 5] [qc 1; qc 2] = Err ZeroDivisionError ∧
  strength_of_correlation (qc 1) (qc 0) [qc 1; qc 2] [qc 5; qc 5] = Err ZeroDivisionError.
Proof.
  split.
  - apply (proj1 (proj2 (proj2 regression_degenerate_inputs)) (qc 5)).
    + discriminate.
    + intros x Hx. repeat (apply elem_of_cons in Hx as [->|Hx]; [reflexivity|]).
      by apply elem_of_nil in Hx.
    + reflexivity.
  - apply (proj1 (proj2 (proj2 (proj2 regression_degenerate_inputs))) (qc 5)).
    + intros x Hx. repeat (apply elem_of_cons in Hx as [->|Hx]; [reflexivity|]).
      by apply elem_of_nil in Hx.
    + reflexivity.
Defined.

(** C2 fails in binary64: the x-values 0.1, 0.1, 0.1 (the float
    [0x1.999999999999ap-4]) are all equal, their computed mean is
    0.10000000000000002, the sum of squares is not zero, and
    [linear_regression] returns a line; likewise [strength_of_correlation]
    on the y-values 0.1, 0.1, 0.1 returns a number.  No error is raised. *)
Lemma regression_degenerate_binary64 :
  linear_regression
    [0x1.999999999999ap-4; 0x1.999999999999ap-4; 0x1.999999999999ap-4]%float
    [1; 2; 3]%float = Ok (0, 2)%float ∧
  strength_of_correlation 0%float 2%float [1; 2; 3]%float
    [0x1.999999999999ap-4; 0x1.999999999999ap-4; 0x1.999999999999ap-4]%float
    = Ok (-0x1.ce147ae147ae1p+113)%float.
Proof. split; vm_compute; reflexivity. Qed.
End RegressionClaims.

(** ** Loops over the registry and over the years *)

(** A loop fails with [e] when one iteration fails with [e] whatever the
    state, and the others can only succeed or fail with [e]. *)
Lemma for_each_Err {S X : Type} (e : exn) (body : S → X → result S)
    (xs : list X) (s : S) :
  (∀ s x, x ∈ xs → (∃ s', body s x = Ok s') ∨ body s x = Err e) →
  (∃ x, x ∈ xs ∧ ∀ s, body s x = Err e) →
  for_each body xs s = Err e.
Proof.
  revert s. induction xs as [|x xs IH]; intros s Hbody (x0 & Hx0 & Hfail).
  - by apply elem_of_nil in Hx0.
  - simpl. destruct (Hbody s x) as [[s' Hs']|Hs']; [left| |by rewrite Hs'].
    rewrite Hs'. simpl. apply elem_of_cons in Hx0 as [->|Hx0].
    + by rewrite Hfail in Hs'.
    + apply IH; [|by eauto]. intros; apply Hbody. by right.
Qed.

Lemma Forall2_impl_elem {X Y : Type} (P Q : X → Y → Prop) (l : list X) (k : list Y) :
  Forall2 P l k → (∀ x y, x ∈ l → P x y → Q x y) → Forall2 Q l k.
Proof.
  induction 1 as [|x y l k HP _ IH]; intros Himpl; constructor.
  - apply Himpl; [left|done].
  - apply IH. intros; apply Himpl; [by right|done].
Qed.

(** Membership in a list that is written out. *)
Ltac in_list := solve [repeat first [left | right]].

Lemma for_each_cases {S X : Type} (e : exn) (body : S → X → result S)
    (xs : list X) (s : S) :
  (∀ s x, x ∈ xs → (∃ s', body s x = Ok s') ∨ body s x = Err e) →
  (∃ s', for_each body xs s = Ok s') ∨ for_each body xs s = Err e.
Proof.
  revert s. induction xs as [|x xs IH]; intros s Hbody; simpl; [by eauto|].
  destruct (Hbody s x) as [[s' ->]| ->]; [left| |by right].
  cbn [mbind result_bind]. apply IH. intros; apply Hbody. by right.
Qed.

Section ForRegions.
Context {A : Type} `{PyNum A}.
Implicit Types regions : list (string * Region A).
Implicit Types body : string → Region A → result (Region A).

Lemma for_regions_Ok body regions regions' :
  DataSet.for_regions body regions = Ok regions' ↔
  Forall2 (λ e e', e.1 = e'.1 ∧ body e.1 e.2 = Ok e'.2) regions regions'.
Proof.
  revert regions'. induction regions as [|[k r] regions IH]; intros regions'; simpl.
  - split; [intros [= <-]; constructor|by intros ->%Forall2_nil_inv_l].
  - split.
    + intros (r' & Hr' & (rest' & Hrest & [= <-])%bind_Ok)%bind_Ok.
      constructor; [done|]. by apply IH.
    + intros ([k' r'] & rest' & [Hk Hr'] & Hrest & ->)%Forall2_cons_inv_l.
      simpl in *. subst k'. rewrite Hr'. simpl.
      apply IH in Hrest. by rewrite Hrest.
Qed.

Lemma for_regions_total body regions :
  (∀ k r, (k, r) ∈ regions → ∃ r', body k r = Ok r') →
  ∃ regions', DataSet.for_regions body regions = Ok regions'.
Proof.
  induction regions as [|[k r] regions IH]; intros Hbody; simpl; [by eauto|].
  destruct (Hbody k r) as [r' ->]; [left|]. simpl.
  destruct IH as [rest' ->]; [|by eauto].
  intros; eapply Hbody. by right.
Qed.

Lemma for_regions_Err (e : exn) body regions :
  (∀ k r, (k, r) ∈ regions → (∃ r', body k r = Ok r') ∨ body k r = Err e) →
  (∃ k r, (k, r) ∈ regions ∧ body k r = Err e) →
  DataSet.for_regions body regions = Err e.
Proof.
  induction regions as [|[k r] regions IH]; intros Hbody (k0 & r0 & Hin & Hfail).
  - by apply elem_of_nil in Hin.
  - simpl. destruct (Hbody k r) as [[r' Hr']|Hr']; [left| |by rewrite Hr'].
    rewrite Hr'. simpl. apply elem_of_cons in Hin as [[= -> ->]|Hin].
    + by rewrite Hfail in Hr'.
    + rewrite IH; [done| |by eauto]. intros; apply Hbody. by right.
Qed.

Lemma for_regions_keys body regions regions' :
  DataSet.for_regions body regions = Ok regions' → regions'.*1 = regions.*1.
Proof.
  intros Hfor%for_regions_Ok.
  induction Hfor as [|[k r] [k' r'] ?? [Hk _] _ IH]; simpl in *; [done|].
  by f_equal.
Qed.
End ForRegions.

(** ** The window *)

Lemma elem_of_window (y : Z) : y ∈ window ↔ 1951 ≤ y ≤ 2016.
Proof. unfold window, rangeZ. rewrite elem_of_seqZ. lia. Qed.

Lemma elem_of_window_set (y : Z) : y ∈ window_set ↔ 1951 ≤ y ≤ 2016.
Proof. unfold window_set. by rewrite elem_of_list_to_set, elem_of_window. Qed.

Lemma in_window_spec (y : Z) : DataSet.in_window y = true ↔ y ∈ window_set.
Proof.
  unfold DataSet.in_window. by rewrite bool_decide_eq_true, elem_of_window_set.
Qed.

Section DefaultDict.
Context {A : Type}.

Lemma defualt_dict_keys (years : list Z) :
  ((λ year, (year, @None A)) <$> years).*1 = years.
Proof. induction years; simpl; by f_equal. Qed.

Lemma lookup_defualt_dict (y : Z) :
  defualt_dict (A:=A) !! y = if decide (1951 ≤ y ≤ 2016) then Some None else None.
Proof.
  unfold defualt_dict. case_decide as Hy.
  - apply elem_of_list_to_map_1.
    + rewrite defualt_dict_keys. apply NoDup_seqZ.
    + apply list_elem_of_fmap. exists y. by rewrite elem_of_window.
  - apply not_elem_of_list_to_map_1. by rewrite defualt_dict_keys, elem_of_window.
Qed.

Lemma dom_defualt_dict : dom (defualt_dict (A:=A)) = window_set.
Proof.
  apply set_eq. intros y. rewrite elem_of_dom, lookup_defualt_dict, elem_of_window_set.
  case_decide; [by split; eauto|]. split; [by intros [? ?]|done].
Qed.

Lemma new_Region_well_keyed `{PyNum A} (name continent : string) :
  well_keyed (new_Region (A:=A) name continent).
Proof.
  intros sel Hsel. unfold metric_series in Hsel.
  repeat (apply elem_of_cons in Hsel as [->|Hsel]; [apply dom_defualt_dict|]).
  by apply elem_of_nil in Hsel.
Qed.
End DefaultDict.

(** ** The per-capita passes *)

Section PerCapita.
Context {A : Type} `{PyNum A}.
Implicit Types population base derived : gmap Z (option A).

Lemma is_empty_window (d : gmap Z (option A)) :
  dom d = window_set → DataSet.is_empty d = false.
Proof.
  intros Hd. unfold DataSet.is_empty. rewrite Hd. by apply bool_decide_false.
Qed.

Lemma dict_min_window (d : gmap Z (option A)) :
  dom d = window_set → DataSet.dict_min d = Ok 1951.
Proof. intros Hd. unfold DataSet.dict_min. rewrite Hd. reflexivity. Qed.

(** The years loop when every year read is a key of both series and no
    division is by zero. *)
Lemma per_capita_loop population base (years : list Z) derived :
  (∀ y, y ∈ years → is_Some (base !! y) ∧ is_Some (population !! y)) →
  (∀ y b p, y ∈ years → base !! y = Some (Some b) →
     population !! y = Some (Some p) → num_is_zero p = false) →
  ∃ derived',
    for_each (DataSet.per_capita_year population base) years derived = Ok derived' ∧
    ∀ y, derived' !! y =
      match base !! y, population !! y with
      | Some (Some b), Some (Some p) =>
          if bool_decide (y ∈ years) then Some (Some (num_quot b p))
          else derived !! y
      | _, _ => derived !! y
      end.
Proof.
  induction years as [|x years IH] using rev_ind; intros Hkeys Hzero.
  - exists derived. split; [done|]. intros y. by repeat case_match.
  - destruct IH as (derived1 & Hloop & Hlookup).
    { intros; apply Hkeys, elem_of_app. by left. }
    { intros ? b p ?; apply Hzero, elem_of_app. by left. }
    rewrite for_each_app, Hloop. cbn [mbind result_bind for_each].
    assert (x ∈ (years ++ [x])%list) as Hx by (apply elem_of_app; right; by left).
    destruct (Hkeys x Hx) as [[bx Hbx] [px Hpx]].
    unfold DataSet.per_capita_year, dict_get. rewrite Hbx. cbn [mbind result_bind].
    assert (∀ y, y ≠ x →
      bool_decide (y ∈ (years ++ [x])%list) = bool_decide (y ∈ years)) as Hmem.
    { intros y Hy. apply bool_decide_ext. rewrite elem_of_app, list_elem_of_singleton.
      split; [intros [?|?]; [done|contradiction]|by left]. }
    destruct bx as [b|].
    2:{ exists derived1. split; [done|]. intros y. rewrite Hlookup.
        destruct (decide (y = x)) as [->|Hy]; [by rewrite Hbx|].
        by rewrite Hmem. }
    rewrite Hpx. cbn [mbind result_bind]. destruct px as [p|].
    2:{ exists derived1. split; [done|]. intros y. rewrite Hlookup.
        destruct (decide (y = x)) as [->|Hy]; [by rewrite Hbx, Hpx|].
        by rewrite Hmem. }
    unfold true_div. rewrite (Hzero x b p) by done.
    cbn [mbind result_bind]. eexists. split; [done|]. intros y.
    destruct (decide (y = x)) as [->|Hy].
    + rewrite lookup_insert_eq, Hbx, Hpx. by rewrite bool_decide_true.
    + rewrite lookup_insert_ne by done. by rewrite Hlookup, Hmem.
Qed.

(** A year of the loop either succeeds or divides by zero, when the year
    is a key of both series. *)
Lemma per_capita_year_cases population base derived (y : Z) :
  is_Some (base !! y) → is_Some (population !! y) →
  (∃ derived', DataSet.per_capita_year population base derived y = Ok derived') ∨
  DataSet.per_capita_year population base derived y = Err ZeroDivisionError.
Proof.
  intros [bx Hbx] [px Hpx]. unfold DataSet.per_capita_year, dict_get.
  rewrite Hbx. cbn [mbind result_bind]. destruct bx as [b|]; [|by eauto].
  rewrite Hpx. cbn [mbind result_bind]. destruct px as [p|]; [|by eauto].
  unfold true_div. destruct (num_is_zero p); cbn [mbind result_bind]; eauto.
Qed.

Lemma per_capita_year_zero population base derived (y : Z) (b p : A) :
  base !! y = Some (Some b) → population !! y = Some (Some p) →
  num_is_zero p = true →
  DataSet.per_capita_year population base derived y = Err ZeroDivisionError.
Proof.
  intros Hb Hp Hz. unfold DataSet.per_capita_year, dict_get, true_div.
  rewrite Hb. cbn [mbind result_bind]. rewrite Hp. cbn [mbind result_bind].
  by rewrite Hz.
Qed.

Lemma well_keyed_lookup (d : gmap Z (option A)) (y : Z) :
  dom d = window_set → 1951 ≤ y ≤ 2016 → is_Some (d !! y).
Proof. intros Hd Hy. apply elem_of_dom. by rewrite Hd, elem_of_window_set. Qed.

Lemma well_keyed_lookup_Some (d : gmap Z (option A)) (y : Z) (v : option A) :
  dom d = window_set → d !! y = Some v → 1951 ≤ y ≤ 2016.
Proof.
  intros Hd Hy. apply elem_of_window_set. rewrite <-Hd. by apply elem_of_dom.
Qed.

Lemma per_capita_window population base derived :
  dom population = window_set → dom base = window_set →
  DataSet.per_capita population base derived =
    for_each (DataSet.per_capita_year population base) window derived.
Proof.
  intros Hp Hb. unfold DataSet.per_capita.
  by rewrite !is_empty_window, !dict_min_window.
Qed.

Lemma per_capita_Ok population base derived :
  dom population = window_set → dom base = window_set →
  (∀ y b p, base !! y = Some (Some b) → population !! y = Some (Some p) →
     num_is_zero p = false) →
  ∃ derived',
    DataSet.per_capita population base derived = Ok derived' ∧
    ∀ y, derived' !! y =
      match base !! y, population !! y with
      | Some (Some b), Some (Some p) => Some (Some (num_quot b p))
      | _, _ => derived !! y
      end.
Proof.
  intros Hp Hb Hzero. rewrite per_capita_window by done.
  destruct (per_capita_loop population base window derived)
    as (derived' & Hloop & Hlookup).
  { intros y Hy%elem_of_window. split; by apply well_keyed_lookup. }
  { intros y b p _. apply Hzero. }
  exists derived'. split; [done|]. intros y. rewrite Hlookup.
  destruct (base !! y) as [[b|]|] eqn:Hby; [|done..].
  destruct (population !! y) as [[p|]|] eqn:Hpy; [|done..].
  rewrite bool_decide_true; [done|].
  apply elem_of_window. by eapply well_keyed_lookup_Some.
Qed.

Lemma per_capita_Err population base derived (y : Z) (b p : A) :
  dom population = window_set → dom base = window_set →
  base !! y = Some (Some b) → population !! y = Some (Some p) →
  num_is_zero p = true →
  DataSet.per_capita population base derived = Err ZeroDivisionError.
Proof.
  intros Hp Hb Hby Hpy Hz. rewrite per_capita_window by done.
  apply for_each_Err.
  - intros d x Hx%elem_of_window.
    apply per_capita_year_cases; by apply well_keyed_lookup.
  - exists y. split.
    + apply elem_of_window. by eapply well_keyed_lookup_Some.
    + intros d. by eapply per_capita_year_zero.
Qed.

Lemma per_capita_cases population base derived :
  dom population = window_set → dom base = window_set →
  (∃ derived', DataSet.per_capita population base derived = Ok derived') ∨
  DataSet.per_capita population base derived = Err ZeroDivisionError.
Proof.
  intros Hp Hb. rewrite per_capita_window by done.
  apply for_each_cases. intros d x Hx%elem_of_window.
  apply per_capita_year_cases; by apply well_keyed_lookup.
Qed.
End PerCapita.

Section PerCapitaPasses.
Context {A : Type} `{PyNum A}.
Implicit Types regions : list (string * Region A).

Lemma derive_unfold (m : indicator) regions :
  derive m regions =
    DataSet.for_regions (λ _ r,
        d ← DataSet.per_capita (population r) (base_of m r) (derived_of m r);
        Ok (store_derived m d r)) regions.
Proof. by destruct m. Qed.

Lemma derived_of_store (m : indicator) (d : gmap Z (option A)) (r : Region A) :
  derived_of m (store_derived m d r) = d.
Proof. by destruct m. Qed.

Lemma well_keyed_population (r : Region A) :
  well_keyed r → dom (population r) = window_set.
Proof. intros Hr. apply Hr. unfold metric_series. in_list. Qed.

Lemma well_keyed_base (m : indicator) (r : Region A) :
  well_keyed r → dom (base_of m r) = window_set.
Proof. intros Hr. apply Hr. unfold metric_series. destruct m; in_list. Qed.

Lemma well_keyed_derived (m : indicator) (r : Region A) :
  well_keyed r → dom (derived_of m r) = window_set.
Proof. intros Hr. apply Hr. unfold metric_series. destruct m; in_list. Qed.

(** A per-capita pass over a well-keyed registry with no division by
    zero returns, and writes the quotients of the years where both values
    are present. *)
Lemma derive_Ok (m : indicator) regions :
  (∀ k r, (k, r) ∈ regions → well_keyed r) →
  (∀ k r y b p, (k, r) ∈ regions →
     base_of m r !! y = Some (Some b) → population r !! y = Some (Some p) →
     num_is_zero p = false) →
  ∃ regions',
    derive m regions = Ok regions' ∧
    Forall2 (λ e e', e'.1 = e.1 ∧
        ∀ y, derived_of m e'.2 !! y =
          match base_of m e.2 !! y, population e.2 !! y with
          | Some (Some b), Some (Some p) => Some (Some (num_quot b p))
          | _, _ => derived_of m e.2 !! y
          end)
      regions regions'.
Proof.
  intros Hkeyed Hzero. rewrite derive_unfold.
  match goal with |- context [DataSet.for_regions ?f _] => set (body := f) end.
  destruct (for_regions_total body regions) as [regions' Hfor].
  { intros k r Hin. unfold body.
    destruct (per_capita_Ok (population r) (base_of m r) (derived_of m r))
      as (d & -> & _); [| |by eauto|by eauto].
    - by eapply well_keyed_population, Hkeyed.
    - by eapply well_keyed_base, Hkeyed. }
  exists regions'. split; [done|].
  apply for_regions_Ok in Hfor.
  eapply Forall2_impl_elem; [exact Hfor|].
  intros [k r] [k' r'] Hin [Hk Hbody]. simpl in *. split; [done|].
  unfold body in Hbody.
  destruct (per_capita_Ok (population r) (base_of m r) (derived_of m r))
    as (d & Hd & Hlookup); [| |by eauto|].
  - by eapply well_keyed_population, Hkeyed.
  - by eapply well_keyed_base, Hkeyed.
  - rewrite Hd in Hbody. cbn [mbind result_bind] in Hbody.
    injection Hbody as <-. intros y. by rewrite derived_of_store.
Qed.

Lemma derive_Err (m : indicator) regions (k : string) (r : Region A)
    (y : Z) (b p : A) :
  (∀ k r, (k, r) ∈ regions → well_keyed r) →
  (k, r) ∈ regions →
  base_of m r !! y = Some (Some b) → population r !! y = Some (Some p) →
  num_is_zero p = true →
  derive m regions = Err ZeroDivisionError.
Proof.
  intros Hkeyed Hin Hb Hp Hz. rewrite derive_unfold. apply for_regions_Err.
  - intros k0 r0 Hin0.
    destruct (per_capita_cases (population r0) (base_of m r0) (derived_of m r0))
      as [[d ->]| ->]; [| |by eauto..].
    + by eapply well_keyed_population, Hkeyed.
    + by eapply well_keyed_base, Hkeyed.
  - exists k, r. split; [done|].
    rewrite (per_capita_Err _ _ _ y b p); [done| | |done..].
    + by eapply well_keyed_population, Hkeyed.
    + by eapply well_keyed_base, Hkeyed.
Qed.
End PerCapitaPasses.

Section SampleFacts.
Context {A : Type} `{PyNum A}.

Lemma dom_fill (entries : list (Z * A)) :
  Forall (λ e, 1951 ≤ e.1 ≤ 2016) entries → dom (fill (A:=A) entries) = window_set.
Proof.
  induction 1 as [|[y v] entries Hy _ IH]; [apply dom_defualt_dict|].
  unfold fill in *. cbn [foldr fst snd] in *.
  rewrite dom_insert_L, IH. apply elem_of_window_set in Hy.
  apply set_eq. intros x. rewrite elem_of_union, elem_of_singleton.
  split; [by intros [->|?]|by right].
Qed.

Lemma sample_region_well_keyed (name : string)
    (population gdp co2 renewable : list (Z * A)) (tax : bool) :
  Forall (λ e, 1951 ≤ e.1 ≤ 2016) population →
  Forall (λ e, 1951 ≤ e.1 ≤ 2016) gdp →
  Forall (λ e, 1951 ≤ e.1 ≤ 2016) co2 →
  Forall (λ e, 1951 ≤ e.1 ≤ 2016) renewable →
  well_keyed (sample_region (A:=A) name population gdp co2 renewable tax).
Proof.
  intros Hp Hg Hc Hr sel Hsel. unfold metric_series in Hsel.
  repeat (apply elem_of_cons in Hsel as [->|Hsel];
          [first [by apply dom_fill | apply dom_defualt_dict]|]).
  by apply elem_of_nil in Hsel.
Qed.
End SampleFacts.

(** Membership hypotheses in a registry that is written out. *)
Ltac registry_cases H :=
  repeat (apply elem_of_cons in H as [[= -> ->]|H]); [..|by apply elem_of_nil in H].

Section PerCapitaClaims.
Context {A : Type} `{PyNum A}.
Implicit Types regions : list (string * Region A).


(** C5, as the code has it.  On a registry whose series are keyed by the
    years of the window, a population that is present and zero in a year
    whose base value is present makes the pass raise [ZeroDivisionError];
    and when the pass divides by no zero, the derived entry of every year
    whose population is present and zero is left as it was. *)
Theorem per_capita_zero_population (m : indicator) regions :
  (∀ k r, (k, r) ∈ regions → well_keyed r) →
  (∀ k r y b p, (k, r) ∈ regions →
     base_of m r !! y = Some (Some b) → population r !! y = Some (Some p) →
     num_is_zero p = true →
     derive m regions = Err ZeroDivisionError) ∧
  ((∀ k r y b p, (k, r) ∈ regions →
      base_of m r !! y = Some (Some b) → population r !! y = Some (Some p) →
      num_is_zero p = false) →
   ∃ regions',
     derive m regions = Ok regions' ∧
     Forall2 (λ e e', e'.1 = e.1 ∧
         ∀ y p, population e.2 !! y = Some (Some p) → num_is_zero p = true →
           derived_of m e'.2 !! y = derived_of m e.2 !! y)
       regions regions').
Proof.
  intros Hkeyed. split.
  - intros k r y b p Hin Hb Hp Hz. by eapply derive_Err.
  - intros Hzero. destruct (derive_Ok m regions Hkeyed Hzero) as (regions' & Hd & Hall).
    exists regions'. split; [done|].
    eapply Forall2_impl_elem; [exact Hall|].
    intros [k r] [k' r'] Hin [Hk Hlookup]. simpl in *. split; [done|].
    intros y p Hp Hz. rewrite Hlookup, Hp.
    destruct (base_of m r !! y) as [[b|]|] eqn:Hb; [|done..].
    specialize (Hzero k r y b p Hin Hb Hp). congruence.
Qed.
End PerCapitaClaims.


(** The passes count on the keys that [Region] fills in: on dictionaries
    that hold only the years with data, the loop subscripts a missing key. *)
Lemma per_capita_unfilled_dictionaries :
  DataSet.per_capita (A:=Qc)
    (<[2000 := Some (qc 100)]> {[ 2001 := Some (qc 200) ]})
    {[ 2000 := Some (qc 50) ]} ∅ = Err KeyError.
Proof. vm_compute. reflexivity. Qed.

Lemma per_capita_zero_population_witness :
  DataSet.initialise_gdp_per_capita
    [("X", sample_region (A:=Qc) "X" [(2000, qc 0)] [(2000, qc 7)] [] [] false)]
    = Err ZeroDivisionError ∧
  ∃ r' : Region Qc,
    DataSet.initialise_gdp_per_capita
      [("X", sample_region "X" [(2000, qc 0); (2001, qc 4)] [(2001, qc 2)] [] [] false)]
      = Ok [("X", r')] ∧
    gdp_per_capita r' !! 2000 = Some None.
Proof.
  split.
  - set (regions :=
      [("X", sample_region (A:=Qc) "X" [(2000, qc 0)] [(2000, qc 7)] [] [] false)]).
    assert (∀ k r, (k, r) ∈ regions → well_keyed r) as Hkeyed.
    { intros k r Hin. registry_cases Hin.
      apply sample_region_well_keyed; repeat constructor; simpl; lia. }
    change (derive Gdp regions = Err ZeroDivisionError).
    apply (proj1 (per_capita_zero_population Gdp regions Hkeyed) "X"
             (sample_region "X" [(2000, qc 0)] [(2000, qc 7)] [] [] false)
             2000 (qc 7) (qc 0)); [by left|by vm_compute..].
  - set (regions :=
      [("X", sample_region (A:=Qc) "X" [(2000, qc 0); (2001, qc 4)] [(2001, qc 2)]
               [] [] false)]).
    assert (∀ k r, (k, r) ∈ regions → well_keyed r) as Hkeyed.
    { intros k r Hin. registry_cases Hin.
      apply sample_region_well_keyed; repeat constructor; simpl; lia. }
    destruct (proj2 (per_capita_zero_population Gdp regions Hkeyed))
      as (regions' & Hd & Hall).
    { intros k r y b p Hin Hb Hp. registry_cases Hin.
      unfold sample_region, fill in Hb, Hp. cbn in Hb, Hp.
      rewrite lookup_insert in Hb. case_decide as Hy.
      - subst y. rewrite lookup_insert_ne, lookup_insert_eq in Hp by done.
        by injection Hp as <-.
      - rewrite lookup_defualt_dict in Hb. by case_decide. }
    apply Forall2_cons_inv_l in Hall as ([k' r'] & rest & [Hk Hl] & Hnil & ->).
    apply Forall2_nil_inv_l in Hnil as ->. simpl in Hk. subst k'.
    exists r'. split; [exact Hd|]. cbn [snd derived_of] in Hl.
    rewrite (Hl 2000 (qc 0)); by vm_compute.
Defined.

(** C5 fails: a region whose population in 2000 is present and zero, and
    whose GDP in 2000 is present.  The pass does not leave the entry absent:
    it raises [ZeroDivisionError], with exact numbers and with floats. *)
Lemma per_capita_zero_population_raises :
  DataSet.initialise_gdp_per_capita
    [("X", sample_region (A:=Qc) "X" [(2000, qc 0)] [(2000, qc 7)] [] [] false)]
    = Err ZeroDivisionError ∧
  DataSet.initialise_gdp_per_capita
    [("X", sample_region "X" [(2000, 0%float)] [(2000, 7%float)] [] [] false)]
    = Err ZeroDivisionError.
Proof. split; vm_compute; reflexivity. Qed.


(** ** The composite region score *)

Section RegionScore.
Context {A : Type} `{PyNum A}.
Implicit Types regions : list (string * Region A).

Lemma well_keyed_renewable_energy (r : Region A) :
  well_keyed r → dom (renewable_energy r) = window_set.
Proof. intros Hr. apply Hr. unfold metric_series. in_list. Qed.

Lemma well_keyed_co2_emissions (r : Region A) :
  well_keyed r → dom (co2_emissions r) = window_set.
Proof. intros Hr. apply Hr. unfold metric_series. in_list. Qed.

(** The score the pass gives a region, when it divides by no zero. *)
Lemma region_score_Ok regions :
  (∀ k r, (k, r) ∈ regions → well_keyed r) →
  (∀ k r renewable emission, (k, r) ∈ regions →
     renewable_energy r !! 2016 = Some (Some renewable) →
     co2_emissions r !! 2016 = Some (Some emission) →
     num_is_zero emission = false) →
  ∃ regions',
    DataSet.initialise_region_score regions = Ok regions' ∧
    Forall2 (λ e e', e'.1 = e.1 ∧
        region_score e'.2 =
          match renewable_energy e.2 !! 2016, co2_emissions e.2 !! 2016 with
          | Some (Some renewable), Some (Some emission) =>
              Some (if has_carbon_tax e.2
                    then num_mul (num_quot renewable emission) (num_of_nat 10)
                    else num_quot renewable emission)
          | _, _ => region_score e.2
          end)
      regions regions'.
Proof.
  intros Hkeyed Hzero. unfold DataSet.initialise_region_score.
  match goal with |- context [DataSet.for_regions ?f _] => set (body := f) end.
  assert (∀ k r, (k, r) ∈ regions → ∃ r', body k r = Ok r' ∧
    region_score r' =
      match renewable_energy r !! 2016, co2_emissions r !! 2016 with
      | Some (Some renewable), Some (Some emission) =>
          Some (if has_carbon_tax r
                then num_mul (num_quot renewable emission) (num_of_nat 10)
                else num_quot renewable emission)
      | _, _ => region_score r
      end) as Hbody.
  { intros k r Hin. unfold body, dict_get.
    destruct (well_keyed_lookup (renewable_energy r) 2016) as [ren Hren];
      [by eapply well_keyed_renewable_energy, Hkeyed|lia|].
    destruct (well_keyed_lookup (co2_emissions r) 2016) as [em Hem];
      [by eapply well_keyed_co2_emissions, Hkeyed|lia|].
    rewrite Hren, Hem. cbn [mbind result_bind].
    destruct ren as [ren|], em as [em|]; try by eauto.
    unfold true_div. rewrite (Hzero k r ren em) by done.
    cbn [mbind result_bind]. eauto. }
  destruct (for_regions_total body regions) as [regions' Hfor].
  { intros k r Hin. destruct (Hbody k r Hin) as (r' & ? & _). eauto. }
  exists regions'. split; [done|]. apply for_regions_Ok in Hfor.
  eapply Forall2_impl_elem; [exact Hfor|].
  intros [k r] [k' r'] Hin [Hk Hr']. simpl in *. split; [done|].
  destruct (Hbody k r Hin) as (r'' & Hr'' & Hscore). congruence.
Qed.

Lemma region_score_Err regions (k : string) (r : Region A) (renewable emission : A) :
  (∀ k r, (k, r) ∈ regions → well_keyed r) →
  (k, r) ∈ regions →
  renewable_energy r !! 2016 = Some (Some renewable) →
  co2_emissions r !! 2016 = Some (Some emission) →
  num_is_zero emission = true →
  DataSet.initialise_region_score regions = Err ZeroDivisionError.
Proof.
  intros Hkeyed Hin Hren Hem Hz. apply for_regions_Err.
  - intros k0 r0 Hin0. unfold dict_get.
    destruct (well_keyed_lookup (renewable_energy r0) 2016) as [ren0 ->];
      [by eapply well_keyed_renewable_energy, Hkeyed|lia|].
    destruct (well_keyed_lookup (co2_emissions r0) 2016) as [em0 ->];
      [by eapply well_keyed_co2_emissions, Hkeyed|lia|].
    cbn [mbind result_bind].
    destruct ren0 as [ren0|], em0 as [em0|]; try by eauto.
    unfold true_div. destruct (num_is_zero em0); cbn [mbind result_bind]; eauto.
  - exists k, r. split; [done|]. unfold dict_get, true_div.
    rewrite Hren, Hem. cbn [mbind result_bind]. by rewrite Hz.
Qed.

(** C1, as the code has it.  On a registry whose series are keyed by the
    years of the window: when no emissions value of 2016 by which a present
    renewable-energy value is divided is zero, [initialise_region_score]
    returns, and every region's score is
    [renewable_energy[2016] / co2_emissions[2016]], times 10 if the region
    has a carbon tax, when both values are present, and is left as it was
    (as [None], as constructed) when either is absent; and when the
    emissions value of a region is zero and its renewable-energy value is
    present, the pass raises [ZeroDivisionError]. *)
Theorem region_score_value regions :
  (∀ k r, (k, r) ∈ regions → well_keyed r) →
  ((∀ k r renewable emission, (k, r) ∈ regions →
      renewable_energy r !! 2016 = Some (Some renewable) →
      co2_emissions r !! 2016 = Some (Some emission) →
      num_is_zero emission = false) →
   ∃ regions',
     DataSet.initialise_region_score regions = Ok regions' ∧
     Forall2 (λ e e', e'.1 = e.1 ∧
         region_score e'.2 =
           match renewable_energy e.2 !! 2016, co2_emissions e.2 !! 2016 with
           | Some (Some renewable), Some (Some emission) =>
               Some (if has_carbon_tax e.2
                     then num_mul (num_quot renewable emission) (num_of_nat 10)
                     else num_quot renewable emission)
           | _, _ => region_score e.2
           end)
       regions regions') ∧
  (∀ k r renewable emission, (k, r) ∈ regions →
     renewable_energy r !! 2016 = Some (Some renewable) →
     co2_emissions r !! 2016 = Some (Some emission) →
     num_is_zero emission = true →
     DataSet.initialise_region_score regions = Err ZeroDivisionError).
Proof.
  intros Hkeyed. split.
  - by apply region_score_Ok.
  - intros k r renewable emission Hin Hren Hem Hz. by eapply region_score_Err.
Qed.
End RegionScore.

Lemma region_score_value_witness :
  (∃ r' : Region Qc,
     DataSet.initialise_region_score
       [("X", sample_region "X" [] [] [(2016, qc 5)] [(2016, qc 10)] true)]
       = Ok [("X", r')] ∧
     region_score r' = Some (qc 20)) ∧
  DataSet.initialise_region_score
    [("X", sample_region "X" [] [] [(2016, qc 0)] [(2016, qc 10)] true)]
    = Err ZeroDivisionError.
Proof.
  split.
  - set (regions :=
      [("X", sample_region (A:=Qc) "X" [] [] [(2016, qc 5)] [(2016, qc 10)] true)]).
    assert (∀ k r, (k, r) ∈ regions → well_keyed r) as Hkeyed.
    { intros k r Hin. registry_cases Hin.
      apply sample_region_well_keyed; repeat constructor; simpl; lia. }
    destruct (proj1 (region_score_value regions Hkeyed)) as (regions' & Hd & Hall).
    { intros k r ren em Hin Hren Hem. registry_cases Hin.
      unfold sample_region, fill in Hem. cbn in Hem.
      rewrite lookup_insert_eq in Hem. by injection Hem as <-. }
    apply Forall2_cons_inv_l in Hall as ([k' r'] & rest & [Hk Hl] & Hnil & ->).
    apply Forall2_nil_inv_l in Hnil as ->. simpl in Hk. subst k'.
    exists r'. split; [exact Hd|]. cbn [snd] in Hl. rewrite Hl.
    vm_compute. repeat first [ by apply Qc_is_canon | f_equal ].
  - set (regions :=
      [("X", sample_region (A:=Qc) "X" [] [] [(2016, qc 0)] [(2016, qc 10)] true)]).
    assert (∀ k r, (k, r) ∈ regions → well_keyed r) as Hkeyed.
    { intros k r Hin. registry_cases Hin.
      apply sample_region_well_keyed; repeat constructor; simpl; lia. }
    apply (proj2 (region_score_value regions Hkeyed) "X"
             (sample_region "X" [] [] [(2016, qc 0)] [(2016, qc 10)] true)
             (qc 10) (qc 0)); [by left|by vm_compute..].
Defined.

(** C1 fails: a region whose renewable-energy value of 2016 is 10 and whose
    emissions value of 2016 is 0.  The score is not left absent: the pass
    raises [ZeroDivisionError], with exact numbers and with floats. *)
Lemma region_score_zero_emissions_raises :
  DataSet.initialise_region_score
    [("X", sample_region (A:=Qc) "X" [] [] [(2016, qc 0)] [(2016, qc 10)] true)]
    = Err ZeroDivisionError ∧
  DataSet.initialise_region_score
    [("X", sample_region "X" [] [] [(2016, 0%float)] [(2016, 10%float)] true)]
    = Err ZeroDivisionError.
Proof. split; vm_compute; reflexivity. Qed.

(** ** Ordered dictionaries *)

Section DictFacts.
Context {V : Type}.
Implicit Types d : list (string * V).

Lemma Dict_find_elem d (k : string) (v : V) : Dict.find d k = Some v → (k, v) ∈ d.
Proof.
  induction d as [|[k' v'] d IH]; simpl; [done|].
  case_decide as Hk; [intros [= <-]; subst; left|right; auto].
Qed.

Lemma Dict_find_None d (k : string) : Dict.find d k = None ↔ k ∉ Dict.keys d.
Proof.
  unfold Dict.keys. induction d as [|[k' v'] d IH]; simpl.
  - split; [intros _ ?%elem_of_nil|]; done.
  - rewrite not_elem_of_cons. destruct (decide (k' = k)) as [->|Hk].
    + split; [done|]. by intros [? _].
    + rewrite IH. split; [intros ?; split; [by intros ->|done]|by intros [_ ?]].
Qed.

Lemma Dict_get_elem d (k : string) (v : V) : Dict.get d k = Ok v → (k, v) ∈ d.
Proof.
  unfold Dict.get. destruct (Dict.find d k) eqn:Hf; [|done].
  intros [= <-]. by apply Dict_find_elem.
Qed.

Lemma Dict_get_mem d (k : string) :
  Dict.mem k d = true → ∃ v, Dict.get d k = Ok v.
Proof.
  unfold Dict.mem, Dict.get. intros Hk%bool_decide_eq_true.
  destruct (Dict.find d k) eqn:Hf; [by eauto|].
  by apply Dict_find_None in Hf.
Qed.

Lemma Dict_get_Ok_mem d (k : string) (v : V) :
  Dict.get d k = Ok v → k ∈ Dict.keys d.
Proof.
  intros Hin%Dict_get_elem. unfold Dict.keys.
  apply list_elem_of_fmap. by exists (k, v).
Qed.

Lemma Dict_set_Forall (Q : V → Prop) d (k : string) (v : V) :
  Forall (λ e, Q e.2) d → Q v → Forall (λ e, Q e.2) (Dict.set k v d).
Proof.
  intros Hd Hv. induction Hd as [|[k' v'] d Hv' Hd IH]; simpl.
  - by repeat constructor.
  - case_decide; by constructor.
Qed.

Lemma Dict_remove_Forall (Q : V → Prop) d (k : string) :
  Forall (λ e, Q e.2) d → Forall (λ e, Q e.2) (Dict.remove k d).
Proof.
  induction 1 as [|[k' v'] d Hv' Hd IH]; simpl; [done|].
  case_decide; [done|by constructor].
Qed.

Lemma Dict_get_Forall (Q : V → Prop) d (k : string) (v : V) :
  Forall (λ e, Q e.2) d → Dict.get d k = Ok v → Q v.
Proof.
  intros Hd Hin%Dict_get_elem. by apply (proj1 (Forall_forall _ _) Hd (k, v)).
Qed.

Lemma Dict_keys_set d (k : string) (v : V) :
  Dict.keys (Dict.set k v d) =
    if bool_decide (k ∈ Dict.keys d) then Dict.keys d else (Dict.keys d ++ [k])%list.
Proof.
  unfold Dict.keys. induction d as [|[k' v'] d IH]; [done|].
  cbn [Dict.set]. destruct (decide (k' = k)) as [->|Hk].
  - rewrite fmap_cons. by rewrite bool_decide_true by left.
  - rewrite !fmap_cons, IH. cbn [fst]. destruct (decide (k ∈ d.*1)) as [Hin|Hin].
    + rewrite !bool_decide_true; [done|by right|done].
    + rewrite !bool_decide_false; [done| |done].
      rewrite elem_of_cons. intros [?|?]; by subst.
Qed.

Lemma Dict_keys_set_mem d (k : string) (v : V) :
  k ∈ Dict.keys d → Dict.keys (Dict.set k v d) = Dict.keys d.
Proof. intros Hk. by rewrite Dict_keys_set, bool_decide_true. Qed.

Lemma Dict_elem_of_keys_set d (k k' : string) (v : V) :
  k' ∈ Dict.keys (Dict.set k v d) ↔ k' = k ∨ k' ∈ Dict.keys d.
Proof.
  rewrite Dict_keys_set. case_bool_decide as Hk.
  - split; [by right|]. by intros [->|?].
  - rewrite elem_of_app, list_elem_of_singleton. tauto.
Qed.

Lemma Dict_elem_of_keys_remove d (k k' : string) :
  NoDup (Dict.keys d) →
  k' ∈ Dict.keys (Dict.remove k d) ↔ k' ≠ k ∧ k' ∈ Dict.keys d.
Proof.
  unfold Dict.keys. induction d as [|[k0 v0] d IH]; simpl; intros Hnd.
  - split; [by intros ?%elem_of_nil|by intros [_ ?%elem_of_nil]].
  - apply NoDup_cons in Hnd as [Hk0 Hnd]. case_decide as Hk; simpl.
    + subst k0. rewrite elem_of_cons. split; [|by intros [? [?|?]]].
      intros Hin. split; [by intros ->|by right].
    + rewrite !elem_of_cons, IH by done. split.
      * intros [->|[? ?]]; split; auto.
      * intros [? [?|?]]; auto.
Qed.

Lemma Dict_NoDup_set d (k : string) (v : V) :
  NoDup (Dict.keys d) → NoDup (Dict.keys (Dict.set k v d)).
Proof.
  intros Hnd. rewrite Dict_keys_set. case_bool_decide as Hk; [done|].
  apply NoDup_app. split; [done|]. split; [|apply NoDup_singleton].
  intros x Hx ->%list_elem_of_singleton. done.
Qed.

Lemma Dict_NoDup_remove d (k : string) :
  NoDup (Dict.keys d) → NoDup (Dict.keys (Dict.remove k d)).
Proof.
  unfold Dict.keys. induction d as [|[k0 v0] d IH]; simpl; intros Hnd; [done|].
  apply NoDup_cons in Hnd as [Hk0 Hnd]. case_decide as Hk; simpl; [done|].
  apply NoDup_cons. split; [|by apply IH].
  intros Hin. apply Hk0. by apply (Dict_elem_of_keys_remove d k k0 Hnd).
Qed.

Lemma Dict_get_set_eq d (k : string) (v : V) : Dict.get (Dict.set k v d) k = Ok v.
Proof.
  unfold Dict.get. induction d as [|[k' v'] d IH]; simpl.
  - by rewrite decide_True.
  - case_decide; simpl; [by rewrite decide_True|by rewrite decide_False].
Qed.

Lemma Dict_get_set_ne d (k k' : string) (v : V) :
  k ≠ k' → Dict.get (Dict.set k v d) k' = Dict.get d k'.
Proof.
  intros Hne. unfold Dict.get. induction d as [|[k0 v0] d IH]; simpl.
  - by rewrite decide_False.
  - case_decide; simpl.
    + subst. by rewrite !decide_False.
    + by case_decide.
Qed.

Lemma Dict_get_remove_ne d (k k' : string) :
  k ≠ k' → Dict.get (Dict.remove k d) k' = Dict.get d k'.
Proof.
  intros Hne. unfold Dict.get. induction d as [|[k0 v0] d IH]; simpl; [done|].
  case_decide; simpl.
  - subst. by rewrite decide_False.
  - by case_decide.
Qed.
End DictFacts.

(** ** The keys of the series through the passes *)

Lemma foldr_min_elem (k : Z) (ks : list Z) : foldr Z.min k ks ∈ k :: ks.
Proof.
  induction ks as [|k' ks IH]; simpl; [left|].
  destruct (Z.min_spec k' (foldr Z.min k ks)) as [[_ ->]|[_ ->]].
  - right; left.
  - apply elem_of_cons in IH as [->|IH]; [left|by do 2 right].
Qed.

Section SeriesKeys.
Context {A : Type} `{PyNum A}.
Variable P : gset Z → Prop.
Hypothesis P_window : P window_set.
Hypothesis P_insert : ∀ (D : gset Z) (y : Z), y ∈ window_set → P D → P ({[y]} ∪ D).
Hypothesis P_sub : ∀ D : gset Z, P D → D ⊆ window_set.
Variable float : string → option A.
Variable int : string → option Z.
Implicit Types regions : list (string * Region A).
Implicit Types r : Region A.

Local Abbreviation keyed := (Forall (λ e : string * Region A, series_keys P e.2)).

Lemma series_keys_unfold r :
  series_keys P r ↔
    P (dom (population r)) ∧ P (dom (co2_emissions r)) ∧
    P (dom (co2_emissions_per_capita r)) ∧ P (dom (gdp r)) ∧
    P (dom (gdp_per_capita r)) ∧ P (dom (renewable_energy r)) ∧
    P (dom (renewable_energy_per_capita r)).
Proof.
  split.
  - intros Hr. repeat split; apply Hr; unfold metric_series; in_list.
  - intros (?&?&?&?&?&?&?) sel Hsel. unfold metric_series in Hsel.
    repeat (apply elem_of_cons in Hsel as [->|Hsel]; [done|]).
    by apply elem_of_nil in Hsel.
Qed.

Local Ltac setter := rewrite !series_keys_unfold; cbn; tauto.

Lemma keys_new_Region (name continent : string) :
  series_keys P (new_Region (A:=A) name continent).
Proof.
  rewrite series_keys_unfold. cbn. by rewrite !dom_defualt_dict.
Qed.

Lemma keys_set_population d r :
  series_keys P r → P (dom d) → series_keys P (set_population d r).
Proof. setter. Qed.
Lemma keys_set_co2_emissions d r :
  series_keys P r → P (dom d) → series_keys P (set_co2_emissions d r).
Proof. setter. Qed.
Lemma keys_set_gdp d r :
  series_keys P r → P (dom d) → series_keys P (set_gdp d r).
Proof. setter. Qed.
Lemma keys_set_renewable_energy d r :
  series_keys P r → P (dom d) → series_keys P (set_renewable_energy d r).
Proof. setter. Qed.
Lemma keys_store_derived (m : indicator) d r :
  series_keys P r → P (dom d) → series_keys P (store_derived m d r).
Proof. destruct m; setter. Qed.
Lemma keys_set_has_carbon_tax (v : bool) r :
  series_keys P r → series_keys P (set_has_carbon_tax v r).
Proof. setter. Qed.
Lemma keys_set_projected_damage (v : option A) r :
  series_keys P r → series_keys P (set_projected_damage v r).
Proof. setter. Qed.
Lemma keys_set_percentage_concerned (v : option Z) r :
  series_keys P r → series_keys P (set_percentage_concerned v r).
Proof. setter. Qed.
Lemma keys_set_region_score (v : option A) r :
  series_keys P r → series_keys P (set_region_score v r).
Proof. setter. Qed.

Lemma keys_population r : series_keys P r → P (dom (population r)).
Proof. rewrite series_keys_unfold. tauto. Qed.
Lemma keys_base (m : indicator) r : series_keys P r → P (dom (base_of m r)).
Proof. rewrite series_keys_unfold. destruct m; cbn; tauto. Qed.
Lemma keys_derived (m : indicator) r : series_keys P r → P (dom (derived_of m r)).
Proof. rewrite series_keys_unfold. destruct m; cbn; tauto. Qed.
Lemma keys_renewable_energy r : series_keys P r → P (dom (renewable_energy r)).
Proof. rewrite series_keys_unfold. tauto. Qed.

(** The loop over the regions keeps what its body keeps. *)
Lemma for_regions_Forall (Q : Region A → Prop)
    (body : string → Region A → result (Region A)) regions regions' :
  (∀ k r r', Q r → body k r = Ok r' → Q r') →
  Forall (λ e, Q e.2) regions →
  DataSet.for_regions body regions = Ok regions' →
  Forall (λ e, Q e.2) regions'.
Proof.
  intros Hbody Hall Hfor%for_regions_Ok.
  induction Hfor as [|[k r] [k' r'] ?? [_ Hr'] _ IH]; [done|].
  apply Forall_cons in Hall as [Hr Hall]. constructor; [|by apply IH].
  simpl in *. by eapply Hbody.
Qed.

(** The JSON passes. *)
Lemma merge_lines_keys (key : string) (data : list (json_line A))
    (series : gmap Z (option A)) :
  P (dom series) → P (dom (DataSet.merge_lines key data series)).
Proof.
  unfold DataSet.merge_lines. revert series.
  induction data as [|line data IH]; intros series Hs; [done|].
  cbn [foldl]. apply IH.
  destruct (DataSet.in_window (line_year line)) eqn:Hw; [|done].
  destruct (line_keys line !! key); [|done].
  rewrite dom_insert_L. apply P_insert; [by apply in_window_spec|done].
Qed.

Lemma initialise_co2_emissions_keys data_set regions regions' :
  keyed regions → DataSet.initialise_co2_emissions data_set regions = Ok regions' →
  keyed regions'.
Proof.
  intros Hall Hpass. eapply for_regions_Forall; [|exact Hall|exact Hpass].
  intros k r r' Hr Hbody. simpl in Hbody.
  destruct (data_set !! k); injection Hbody as <-; [|done].
  by apply keys_set_co2_emissions, merge_lines_keys, (keys_base Co2).
Qed.

Lemma initialise_gdp_keys data_set regions regions' :
  keyed regions → DataSet.initialise_gdp data_set regions = Ok regions' →
  keyed regions'.
Proof.
  intros Hall Hpass. eapply for_regions_Forall; [|exact Hall|exact Hpass].
  intros k r r' Hr Hbody. simpl in Hbody.
  destruct (data_set !! k); injection Hbody as <-; [|done].
  by apply keys_set_gdp, merge_lines_keys, (keys_base Gdp).
Qed.

Lemma initialise_population_keys data_set regions regions' :
  keyed regions → DataSet.initialise_population data_set regions = Ok regions' →
  keyed regions'.
Proof.
  intros Hall Hpass. eapply for_regions_Forall; [|exact Hall|exact Hpass].
  intros k r r' Hr Hbody. simpl in Hbody.
  destruct (data_set !! k); injection Hbody as <-; [|done].
  by apply keys_set_population, merge_lines_keys, keys_population.
Qed.
(** The per-capita passes. *)
Lemma dict_min_elem (d : gmap Z (option A)) (m : Z) :
  DataSet.dict_min d = Ok m → m ∈ dom d.
Proof.
  unfold DataSet.dict_min. destruct (elements (dom d)) as [|k ks] eqn:Hel; [done|].
  intros [= <-]. apply elem_of_elements. rewrite Hel. apply foldr_min_elem.
Qed.

Lemma per_capita_year_keys population base derived derived' (y : Z) :
  y ∈ window_set → P (dom derived) →
  DataSet.per_capita_year population base derived y = Ok derived' →
  P (dom derived').
Proof.
  intros Hy Hd. unfold DataSet.per_capita_year.
  intros (b & _ & Hrest)%bind_Ok. destruct b as [b|]; [|by injection Hrest as <-].
  apply bind_Ok in Hrest as (p & _ & Hrest).
  destruct p as [p|]; [|by injection Hrest as <-].
  apply bind_Ok in Hrest as (q & _ & [= <-]).
  rewrite dom_insert_L. by apply P_insert.
Qed.

Lemma per_capita_keys population base derived derived' :
  P (dom population) → P (dom derived) →
  DataSet.per_capita population base derived = Ok derived' →
  P (dom derived').
Proof.
  intros Hp Hd. unfold DataSet.per_capita.
  destruct (DataSet.is_empty population || DataSet.is_empty base);
    [by intros [= <-]|].
  intros (a & Ha & (b & _ & Hloop)%bind_Ok)%bind_Ok.
  apply dict_min_elem, (P_sub _ Hp), elem_of_window_set in Ha.
  eapply (for_each_invariant (λ d, P (dom d))); [|exact Hd|exact Hloop].
  intros d y d' Hy Hdd Hbody. eapply per_capita_year_keys; [|exact Hdd|exact Hbody].
  unfold rangeZ in Hy. apply elem_of_seqZ in Hy. apply elem_of_window_set. lia.
Qed.

Lemma derive_keys (m : indicator) regions regions' :
  keyed regions → derive m regions = Ok regions' → keyed regions'.
Proof.
  rewrite derive_unfold. intros Hall Hpass.
  eapply for_regions_Forall; [|exact Hall|exact Hpass].
  intros k r r' Hr (d & Hd & [= <-])%bind_Ok.
  apply keys_store_derived; [done|].
  eapply per_capita_keys; [by apply keys_population|by apply keys_derived|exact Hd].
Qed.

(** The passes that look regions up by name. *)
Lemma energy_production_keys (data : list string) regions regions' :
  keyed regions → DataSet.energy_production float data regions = Ok regions' →
  keyed regions'.
Proof.
  intros Hall Hpass. unfold DataSet.energy_production in Hpass.
  eapply (for_each_invariant keyed); [|exact Hall|exact Hpass].
  intros regs line regs' _ Hregs.
  intros (region & _ & Hrest)%bind_Ok.
  destruct (negb _); [by injection Hrest as <-|].
  eapply (for_each_invariant keyed); [|exact Hregs|exact Hrest].
  intros regions0 i regions1 Hi Hall0.
  intros (cell & _ & Hcell)%bind_Ok.
  destruct (String.eqb _ _); [by injection Hcell as <-|].
  apply bind_Ok in Hcell as (v & _ & (r & Hr & [= <-])%bind_Ok).
  apply Dict_set_Forall; [done|].
  pose proof (Dict_get_Forall _ _ _ _ Hall0 Hr) as Hkeys.
  apply keys_set_renewable_energy; [done|].
  rewrite dom_insert_L. apply P_insert; [|by apply keys_renewable_energy].
  apply elem_of_seq in Hi. apply elem_of_window_set. lia.
Qed.

Lemma initialise_carbon_tax_keys regions regions' :
  keyed regions → DataSet.initialise_carbon_tax regions = Ok regions' →
  keyed regions'.
Proof.
  intros Hall Hpass.
  eapply (for_each_invariant keyed); [|exact Hall|exact Hpass].
  intros regs country regs' _ Hregs (r & Hr & [= <-])%bind_Ok.
  apply Dict_set_Forall; [done|].
  apply keys_set_has_carbon_tax. by eapply (Dict_get_Forall _ _ _ _ Hregs).
Qed.

Lemma store_damage_keys (key : string) (line : list string) regions regions' :
  keyed regions → DataSet.store_damage float key line regions = Ok regions' →
  keyed regions'.
Proof.
  intros Hall (l & _ & (v & _ & (r & Hr & [= <-])%bind_Ok)%bind_Ok)%bind_Ok.
  apply Dict_set_Forall; [done|].
  apply keys_set_projected_damage. by eapply (Dict_get_Forall _ _ _ _ Hall).
Qed.

Lemma initialise_projected_damage_keys (data : list string) regions regions' :
  keyed regions →
  DataSet.initialise_projected_damage float data regions = Ok regions' →
  keyed regions'.
Proof.
  intros Hall Hpass.
  eapply (for_each_invariant keyed); [|exact Hall|exact Hpass].
  intros regs line regs' _ Hregs (l0 & _ & Hrest)%bind_Ok.
  destruct (Dict.mem l0 regs).
  - apply bind_Ok in Hrest as (line' & _ & (l0' & _ & Hrest)%bind_Ok).
    by eapply store_damage_keys.
  - destruct (String.eqb _ _); [|by injection Hrest as <-].
    apply bind_Ok in Hrest as (line' & _ & Hrest). by eapply store_damage_keys.
Qed.

Lemma store_concerned_keys (key : string) (line : list string) regions regions' :
  keyed regions → DataSet.store_concerned int key line regions = Ok regions' →
  keyed regions'.
Proof.
  intros Hall (l & _ & (v & _ & (r & Hr & [= <-])%bind_Ok)%bind_Ok)%bind_Ok.
  apply Dict_set_Forall; [done|].
  apply keys_set_percentage_concerned. by eapply (Dict_get_Forall _ _ _ _ Hall).
Qed.

Lemma initialise_climate_opinion_keys (data : list string) regions regions' :
  keyed regions →
  DataSet.initialise_climate_opinion int data regions = Ok regions' →
  keyed regions'.
Proof.
  intros Hall Hpass.
  eapply (for_each_invariant keyed); [|exact Hall|exact Hpass].
  intros regs line regs' _ Hregs (l0 & _ & Hrest)%bind_Ok.
  destruct (Dict.mem l0 regs); [by eapply store_concerned_keys|].
  destruct (String.eqb _ _); [by eapply store_concerned_keys|].
  destruct (String.eqb _ _); [by eapply store_concerned_keys|].
  by injection Hrest as <-.
Qed.

Lemma initialise_region_score_keys regions regions' :
  keyed regions → DataSet.initialise_region_score regions = Ok regions' →
  keyed regions'.
Proof.
  intros Hall Hpass. eapply for_regions_Forall; [|exact Hall|exact Hpass].
  intros k r r' Hr (ren & _ & (em & _ & Hrest)%bind_Ok)%bind_Ok.
  destruct ren as [ren|], em as [em|]; try by injection Hrest as <-.
  apply bind_Ok in Hrest as (score & _ & [= <-]).
  by apply keys_set_region_score.
Qed.

(** The registry as [initialise_regions] builds it. *)
Lemma initialise_regions_keys (data : list string) regions :
  DataSet.initialise_regions data = Ok regions → keyed regions.
Proof.
  unfold DataSet.initialise_regions.
  intros (regions0 & Hloop & (uk & Huk & (regions1 & Hdel1 & Hrest)%bind_Ok)%bind_Ok)%bind_Ok.
  apply bind_Ok in Hrest as (us & Hus & (regions2 & Hdel2 & [= <-])%bind_Ok).
  assert (keyed regions0) as Hall0.
  { eapply (for_each_invariant keyed); [|constructor|exact Hloop].
    intros regs line regs' _ Hregs ([name continent] & _ & [= <-])%bind_Ok.
    apply Dict_set_Forall; [done|]. apply keys_new_Region. }
  assert (keyed regions1) as Hall1.
  { unfold Dict.del in Hdel1. destruct (Dict.mem _ _); [|done].
    injection Hdel1 as <-. by apply Dict_remove_Forall. }
  pose proof (Dict_get_Forall _ _ _ _ Hall0 Huk) as Hkuk.
  pose proof (Dict_set_Forall _ _ "United Kingdom" uk Hall1 Hkuk) as Hall1'.
  pose proof (Dict_get_Forall _ _ _ _ Hall1' Hus) as Hkus.
  apply Dict_set_Forall; [|done].
  unfold Dict.del in Hdel2. destruct (Dict.mem _ _); [|done].
  injection Hdel2 as <-. by apply Dict_remove_Forall.
Qed.

(** Every pass of the lifecycle, and every run of passes. *)
Lemma passes_keys (f : files A) pass regions regions' :
  pass ∈ DataSet.passes float int f →
  keyed regions → pass regions = Ok regions' → keyed regions'.
Proof.
  unfold DataSet.passes. intros Hpass.
  repeat (apply elem_of_cons in Hpass as [->|Hpass]);
    [..|by apply elem_of_nil in Hpass].
  - apply initialise_co2_emissions_keys.
  - apply initialise_gdp_keys.
  - apply energy_production_keys.
  - apply initialise_population_keys.
  - apply (derive_keys Gdp).
  - apply (derive_keys Co2).
  - apply (derive_keys Renewables).
  - apply initialise_carbon_tax_keys.
  - apply initialise_projected_damage_keys.
  - apply initialise_climate_opinion_keys.
  - apply initialise_region_score_keys.
Qed.

Lemma run_keys (f : files A) (n : nat) regions regions' :
  keyed regions →
  DataSet.run (take n (DataSet.passes float int f)) regions = Ok regions' →
  keyed regions'.
Proof.
  intros Hall Hrun. eapply (for_each_invariant keyed); [|exact Hall|exact Hrun].
  intros regions0 pass regions1 Hpass%subseteq_take. by eapply passes_keys.
Qed.
End SeriesKeys.


Section WindowClaims.
Context {A : Type} `{PyNum A}.
Variable float : string → option A.
Variable int : string → option Z.
Implicit Types regions : list (string * Region A).

Lemma subset_window_insert (D : gset Z) (y : Z) :
  y ∈ window_set → D ⊆ window_set → {[y]} ∪ D ⊆ window_set.
Proof.
  intros Hy HD x. rewrite elem_of_union, elem_of_singleton.
  intros [->|Hx]; [done|by apply HD].
Qed.

Lemma equal_window_insert (D : gset Z) (y : Z) :
  y ∈ window_set → D = window_set → {[y]} ∪ D = window_set.
Proof.
  intros Hy ->. apply set_eq. intros x. rewrite elem_of_union, elem_of_singleton.
  split; [by intros [->|?]|by right].
Qed.

(** A record whose year is outside the window leaves no trace. *)
Lemma merge_lines_discard (key : string) (data1 data2 : list (json_line A))
    (line : json_line A) (series : gmap Z (option A)) :
  DataSet.in_window (line_year line) = false →
  DataSet.merge_lines key (data1 ++ line :: data2) series =
    DataSet.merge_lines key (data1 ++ data2) series.
Proof.
  intros Hout. unfold DataSet.merge_lines. rewrite !foldl_app. cbn [foldl].
  by rewrite Hout.
Qed.

(** C8. The registry that [initialise_regions] builds has the year keys
    of all its series in the window [1951, 2016]; every pass of
    [__init__], the four merge passes among them, keeps them there; a key
    in the window is a year between 1951 and 2016; and a JSON record whose
    year is outside the window is discarded: the merge with the record is
    the merge without it. *)
Theorem stored_years_in_window (f : files A) :
  (∀ regions, DataSet.initialise_regions (country_names_csv f) = Ok regions →
     Forall (λ e, keys_in_window e.2) regions) ∧
  (∀ pass regions regions', pass ∈ DataSet.passes float int f →
     Forall (λ e, keys_in_window e.2) regions → pass regions = Ok regions' →
     Forall (λ e, keys_in_window e.2) regions') ∧
  (∀ (r : Region A) sel (y : Z) (v : option A), keys_in_window r →
     sel ∈ metric_series → sel r !! y = Some v → 1951 ≤ y ≤ 2016) ∧
  (∀ (key : string) (data1 data2 : list (json_line A)) (line : json_line A)
     (series : gmap Z (option A)),
     ¬ (1951 ≤ line_year line ≤ 2016) →
     DataSet.merge_lines key (data1 ++ line :: data2) series =
       DataSet.merge_lines key (data1 ++ data2) series).
Proof.
  split; [|split; [|split]].
  - intros regions. by apply (initialise_regions_keys (λ D, D ⊆ window_set)).
  - intros pass regions regions'.
    apply (passes_keys (λ D, D ⊆ window_set)); [apply subset_window_insert|done].
  - intros r sel y v Hr Hsel Hy. apply elem_of_window_set, (Hr sel Hsel).
    by apply elem_of_dom.
  - intros key data1 data2 line series Hout. apply merge_lines_discard.
    by apply bool_decide_eq_false.
Qed.

(** C10. A region is constructed with [None] at every year from 1951 to
    2016 in each of its seven series; every pass of [__init__] keeps the
    keys of every series exactly the years of the window; so after
    [initialise_regions] and any number of the passes that follow it, in
    their order, [series[year]] is defined (no [KeyError]) for every
    region, every series and every year of the window. *)
Theorem series_defined_on_window (f : files A) :
  (∀ (name continent : string) sel (y : Z), sel ∈ metric_series →
     1951 ≤ y ≤ 2016 → sel (new_Region (A:=A) name continent) !! y = Some None) ∧
  (∀ pass regions regions', pass ∈ DataSet.passes float int f →
     Forall (λ e, well_keyed e.2) regions → pass regions = Ok regions' →
     Forall (λ e, well_keyed e.2) regions') ∧
  (∀ (n : nat) regions,
     DataSet.initialise_regions (country_names_csv f)
       ≫= DataSet.run (take n (DataSet.passes float int f)) = Ok regions →
     ∀ k r sel (y : Z), (k, r) ∈ regions → sel ∈ metric_series →
       1951 ≤ y ≤ 2016 → ∃ v, dict_get (sel r) y = Ok v).
Proof.
  split; [|split].
  - intros name continent sel y Hsel Hy. unfold metric_series in Hsel.
    repeat (apply elem_of_cons in Hsel as [->|Hsel];
            [cbn; by rewrite lookup_defualt_dict, decide_True|]).
    by apply elem_of_nil in Hsel.
  - intros pass regions regions'.
    apply (passes_keys (λ D, D = window_set)); [apply equal_window_insert|].
    by intros D ->.
  - intros n regions (regions0 & Hinit & Hrun)%bind_Ok k r sel y Hin Hsel Hy.
    apply (initialise_regions_keys (λ D, D = window_set)) in Hinit; [|done].
    eapply (run_keys (λ D, D = window_set)) in Hrun;
      [|apply equal_window_insert|by intros D ->|exact Hinit].
    apply (proj1 (Forall_forall _ _) Hrun) in Hin. simpl in Hin.
    destruct (well_keyed_lookup (sel r) y (Hin sel Hsel) Hy) as [v Hv].
    exists v. by apply dict_get_Ok.
Qed.
End WindowClaims.

Lemma sample_merge_runs :
  (regions ← DataSet.initialise_regions (A:=Qc) sample_country_names;
   regions ← DataSet.initialise_co2_emissions sample_json regions;
   r ← Dict.get regions "France";
   Ok (co2_emissions r !! 1950, co2_emissions r !! 2000, co2_emissions r !! 2020))
  = Ok (None, Some (Some (qc 2)), None).
Proof. vm_compute. repeat first [ by apply Qc_is_canon | f_equal ]. Qed.

Lemma stored_years_in_window_witness :
  (∃ regions regions' : list (string * Region Qc),
     DataSet.initialise_regions sample_country_names = Ok regions ∧
     DataSet.initialise_co2_emissions sample_json regions = Ok regions' ∧
     Forall (λ e, keys_in_window e.2) regions' ∧
     ∀ r (y : Z) (v : option Qc), ("France", r) ∈ regions' →
       co2_emissions r !! y = Some v → 1951 ≤ y ≤ 2016) ∧
  DataSet.merge_lines (A:=Qc) "co2"
    ([] ++ mk_line 1950 {[ "co2" := Some (qc 1) ]} ::
       [mk_line 2000 {[ "co2" := Some (qc 2) ]}]) defualt_dict =
  DataSet.merge_lines "co2" ([] ++ [mk_line 2000 {[ "co2" := Some (qc 2) ]}])
    defualt_dict.
Proof.
  pose proof (stored_years_in_window sample_float sample_int sample_files)
    as (Hinit & Hpass & Hyear & Hdiscard).
  split.
  - pose proof sample_merge_runs as Hruns.
    destruct (DataSet.initialise_regions (A:=Qc) sample_country_names)
      as [regions|e] eqn:Hregions; [|discriminate Hruns].
    cbn [mbind result_bind] in Hruns.
    destruct (DataSet.initialise_co2_emissions sample_json regions)
      as [regions'|e] eqn:Hregions'; [|discriminate Hruns].
    exists regions, regions'. split; [done|]. split; [done|].
    assert (Forall (λ e, keys_in_window e.2) regions') as Hkeys.
    { apply (Hpass (DataSet.initialise_co2_emissions sample_json) regions regions').
      - unfold DataSet.passes. in_list.
      - apply Hinit. exact Hregions.
      - exact Hregions'. }
    split; [exact Hkeys|].
    intros r y v Hin Hy. apply (Hyear r co2_emissions y v).
    + by apply (proj1 (Forall_forall _ _) Hkeys _ Hin).
    + unfold metric_series. in_list.
    + exact Hy.
  - apply Hdiscard. simpl. lia.
Defined.

Lemma sample_lifecycle_runs (n : nat) :
  (DataSet.initialise_regions sample_country_names
     ≫= DataSet.run (take n (DataSet.passes sample_float sample_int sample_files)))
    ≫= (λ _, Ok ()) = Ok ().
Proof.
  do 12 (destruct n as [|n]; [vm_compute; reflexivity|]).
  rewrite (take_ge _ (S _)); [vm_compute; reflexivity|].
  unfold DataSet.passes. simpl. lia.
Qed.

Lemma series_defined_on_window_witness :
  ∃ regions : list (string * Region Qc),
    DataSet.init sample_float sample_int sample_files = Ok regions ∧
    ∀ k r sel (y : Z), (k, r) ∈ regions → sel ∈ metric_series →
      1951 ≤ y ≤ 2016 → ∃ v, dict_get (sel r) y = Ok v.
Proof.
  pose proof (sample_lifecycle_runs 11) as Hruns.
  destruct (DataSet.initialise_regions sample_country_names
     ≫= DataSet.run (take 11 (DataSet.passes sample_float sample_int sample_files)))
    as [regions|e] eqn:Hinit; [|discriminate Hruns].
  exists regions. split; [exact Hinit|].
  exact (proj2 (proj2 (series_defined_on_window sample_float sample_int sample_files))
           11%nat regions Hinit).
Defined.

(** ** Region names *)

Lemma for_each_ext {S X : Type} (body1 body2 : S → X → result S) (xs : list X) (s : S) :
  (∀ s x, x ∈ xs → body1 s x = body2 s x) →
  for_each body1 xs s = for_each body2 xs s.
Proof.
  revert s. induction xs as [|x xs IH]; intros s Hbody; simpl; [done|].
  rewrite Hbody by left. destruct (body2 s x); simpl; [|done].
  apply IH. intros; apply Hbody. by right.
Qed.

Lemma Dict_set_Forall_entry {V : Type} (Q : string * V → Prop)
    (d : list (string * V)) (k : string) (v : V) :
  Forall Q d → Q (k, v) → Forall Q (Dict.set k v d).
Proof.
  intros Hd Hv. induction Hd as [|[k' v'] d Hv' Hd IH]; simpl.
  - by repeat constructor.
  - destruct (decide (k' = k)); by constructor.
Qed.

Section Names.
Context {A : Type} `{PyNum A}.
Variable float : string → option A.
Variable int : string → option Z.
Implicit Types regions : list (string * Region A).

(** Assigning to a region that was looked up keeps the keys. *)
Lemma Dict_update_keys regions (k : string) (r r' : Region A) :
  Dict.get regions k = Ok r → Dict.keys (Dict.set k r' regions) = Dict.keys regions.
Proof. intros Hr%Dict_get_Ok_mem. by apply Dict_keys_set_mem. Qed.

Lemma for_each_keys {X : Type}
    (body : list (string * Region A) → X → result (list (string * Region A)))
    (xs : list X) regions regions' :
  (∀ regs x regs', body regs x = Ok regs' → Dict.keys regs' = Dict.keys regs) →
  for_each body xs regions = Ok regions' → Dict.keys regions' = Dict.keys regions.
Proof.
  intros Hbody Hloop.
  eapply (for_each_invariant (λ regs, Dict.keys regs = Dict.keys regions));
    [|done|exact Hloop].
  intros regs x regs' _ Hregs Hx. rewrite <-Hregs. by eapply Hbody.
Qed.

Lemma energy_production_names (data : list string) regions regions' :
  DataSet.energy_production float data regions = Ok regions' →
  Dict.keys regions' = Dict.keys regions.
Proof.
  unfold DataSet.energy_production.
  apply for_each_keys. intros regs line regs' (region & _ & Hrest)%bind_Ok.
  destruct (negb _); [by injection Hrest as <-|].
  eapply for_each_keys; [|exact Hrest].
  intros regs0 i regs1 (cell & _ & Hcell)%bind_Ok.
  destruct (String.eqb _ _); [by injection Hcell as <-|].
  apply bind_Ok in Hcell as (v & _ & (r & Hr & [= <-])%bind_Ok).
  by eapply Dict_update_keys.
Qed.

Lemma initialise_carbon_tax_names regions regions' :
  DataSet.initialise_carbon_tax regions = Ok regions' →
  Dict.keys regions' = Dict.keys regions.
Proof.
  unfold DataSet.initialise_carbon_tax.
  apply for_each_keys. intros regs country regs' (r & Hr & [= <-])%bind_Ok.
  by eapply Dict_update_keys.
Qed.

Lemma store_damage_names (key : string) (line : list string) regions regions' :
  DataSet.store_damage float key line regions = Ok regions' →
  Dict.keys regions' = Dict.keys regions.
Proof.
  intros (l & _ & (v & _ & (r & Hr & [= <-])%bind_Ok)%bind_Ok)%bind_Ok.
  by eapply Dict_update_keys.
Qed.

Lemma initialise_projected_damage_names (data : list string) regions regions' :
  DataSet.initialise_projected_damage float data regions = Ok regions' →
  Dict.keys regions' = Dict.keys regions.
Proof.
  unfold DataSet.initialise_projected_damage.
  apply for_each_keys. intros regs line regs' (l0 & _ & Hrest)%bind_Ok.
  destruct (Dict.mem l0 regs).
  - apply bind_Ok in Hrest as (line' & _ & (l0' & _ & Hrest)%bind_Ok).
    by eapply store_damage_names.
  - destruct (String.eqb _ _); [|by injection Hrest as <-].
    apply bind_Ok in Hrest as (line' & _ & Hrest). by eapply store_damage_names.
Qed.

Lemma store_concerned_names (key : string) (line : list string) regions regions' :
  DataSet.store_concerned int key line regions = Ok regions' →
  Dict.keys regions' = Dict.keys regions.
Proof.
  intros (l & _ & (v & _ & (r & Hr & [= <-])%bind_Ok)%bind_Ok)%bind_Ok.
  by eapply Dict_update_keys.
Qed.

Lemma initialise_climate_opinion_names (data : list string) regions regions' :
  DataSet.initialise_climate_opinion int data regions = Ok regions' →
  Dict.keys regions' = Dict.keys regions.
Proof.
  unfold DataSet.initialise_climate_opinion.
  apply for_each_keys. intros regs line regs' (l0 & _ & Hrest)%bind_Ok.
  destruct (Dict.mem l0 regs); [by eapply store_concerned_names|].
  destruct (String.eqb _ _); [by eapply store_concerned_names|].
  destruct (String.eqb _ _); [by eapply store_concerned_names|].
  by injection Hrest as <-.
Qed.

Lemma passes_names (f : files A) pass regions regions' :
  pass ∈ DataSet.passes float int f → pass regions = Ok regions' →
  Dict.keys regions' = Dict.keys regions.
Proof.
  unfold DataSet.passes. intros Hpass.
  repeat (apply elem_of_cons in Hpass as [->|Hpass]);
    [..|by apply elem_of_nil in Hpass];
    first [ apply for_regions_keys | idtac ].
  - apply energy_production_names.
  - apply initialise_carbon_tax_names.
  - apply initialise_projected_damage_names.
  - apply initialise_climate_opinion_names.
Qed.

(** The names in the registry that [initialise_regions] builds. *)
Lemma initialise_regions_names (data : list string) regions :
  DataSet.initialise_regions (A:=A) data = Ok regions →
  NoDup (Dict.keys regions) ∧
  ("United States" ∈ Dict.keys regions) ∧
  ("United States of America" ∉ Dict.keys regions) ∧
  ("United Kingdom" ∈ Dict.keys regions) ∧
  ("United Kingdom of Great Britain & Northern Ireland" ∉ Dict.keys regions) ∧
  ∃ continent,
    Dict.get regions "United States"
      = Ok (new_Region "United States of America" continent).
Proof.
  unfold DataSet.initialise_regions.
  intros (regions0 & Hloop & (uk & Huk & (regions1 & Hdel1 & Hrest)%bind_Ok)%bind_Ok)%bind_Ok.
  apply bind_Ok in Hrest as (us & Hus & (regions2 & Hdel2 & [= <-])%bind_Ok).
  assert (NoDup (Dict.keys regions0) ∧
          Forall (λ e, ∃ c, e.2 = new_Region (A:=A) e.1 c) regions0) as [Hnd0 Hall0].
  { eapply (for_each_invariant (λ regs, NoDup (Dict.keys regs) ∧
      Forall (λ e, ∃ c, e.2 = new_Region (A:=A) e.1 c) regs) _ _ []);
      [|split; [apply NoDup_nil_2|constructor]|exact Hloop].
    intros regs line regs' _ [Hnd Hall] ([name continent] & _ & [= <-])%bind_Ok.
    split; [by apply Dict_NoDup_set|].
    apply Dict_set_Forall_entry; [done|]. by exists continent. }
  unfold Dict.del in Hdel1, Hdel2.
  destruct (Dict.mem _ regions0); [injection Hdel1 as <-|done].
  destruct (Dict.mem _ (Dict.set _ _ _)); [injection Hdel2 as <-|done].
  rewrite Dict_get_set_ne, Dict_get_remove_ne in Hus by done.
  apply Dict_get_elem in Hus.
  apply (proj1 (Forall_forall _ _) Hall0) in Hus as [continent Hus]. simpl in Hus.
  pose proof (Dict_NoDup_remove _ "United Kingdom of Great Britain & Northern Ireland"
                Hnd0) as Hnd1.
  pose proof (Dict_NoDup_set _ "United Kingdom" uk Hnd1) as Hnd1'.
  pose proof (Dict_NoDup_remove _ "United States of America" Hnd1') as Hnd2.
  split; [by apply Dict_NoDup_set|].
  rewrite !Dict_elem_of_keys_set, !Dict_elem_of_keys_remove,
    !Dict_elem_of_keys_set, !Dict_elem_of_keys_remove by done.
  split; [by left|]. split; [intros [?|[? _]]; done|].
  split; [right; split; [done|by left]|].
  split; [intros [?|[_ [?|[? _]]]]; done|].
  exists continent. by rewrite Dict_get_set_eq, Hus.
Qed.
End Names.

Section Aliases.
Context {A : Type} `{PyNum A}.
Variable float : string → option A.
Variable int : string → option Z.
Implicit Types regions : list (string * Region A).

(** In the IRENA file a line for "USA" is merged as the same line for
    "United States" is. *)
Lemma energy_production_USA (data1 data2 : list string) (line line' f0 : string)
    (cells : list string) regions :
  Str.split Str.comma line = f0 :: "USA" :: cells →
  Str.split Str.comma line' = f0 :: "United States" :: cells →
  DataSet.energy_production float (data1 ++ line :: data2) regions =
    DataSet.energy_production float (data1 ++ line' :: data2) regions.
Proof.
  intros Hline Hline'. unfold DataSet.energy_production.
  match goal with |- for_each ?f _ _ = _ => set (body := f) end.
  rewrite !drop_app, !for_each_app.
  destruct (for_each body (drop 9 data1) regions) as [regs|e];
    cbn [mbind result_bind]; [|done].
  destruct (9 - length data1)%nat; [|done]. cbn [drop for_each].
  assert (body regs line = body regs line') as ->; [|done].
  unfold body. rewrite Hline, Hline'. cbn [list_get lookup list_lookup mbind result_bind].
  change (DataSet.energy_region "USA") with "United States".
  change (DataSet.energy_region "United States") with "United States".
  destruct (negb _); [done|]. apply for_each_ext.
  intros regs0 i [Hi _]%elem_of_seq.
  destruct i as [|[|i]]; [lia..|done].
Qed.

Lemma fix_last_cons (k : string) (cells : list string) :
  cells ≠ [] →
  DataSet.fix_last (k :: cells) = (cs ← DataSet.fix_last cells; Ok (k :: cs)).
Proof.
  intros Hne. unfold DataSet.fix_last. rewrite last_cons.
  destruct cells as [|c cells]; [done|].
  destruct (last (c :: cells)) as [l|] eqn:Hl; [done|].
  by apply last_None in Hl.
Qed.

Lemma fix_last_nonempty (cells cs : list string) :
  DataSet.fix_last cells = Ok cs → cs ≠ [].
Proof.
  unfold DataSet.fix_last. destruct (last cells) eqn:Hl; [|done].
  intros [= <-] Hnil. apply (f_equal length) in Hnil.
  rewrite length_insert in Hnil. by destruct cells.
Qed.

Lemma store_damage_cons (key k : string) (cs : list string) regions :
  cs ≠ [] →
  DataSet.store_damage float key (k :: cs) regions =
    DataSet.store_damage float key cs regions.
Proof.
  intros Hne. unfold DataSet.store_damage. rewrite last_cons.
  destruct (last cs) eqn:Hl; [done|]. by apply last_None in Hl.
Qed.

(** In the projected-damage file a line for "United States of America"
    is stored as the same line for "United States" is. *)
Lemma initialise_projected_damage_USA (data1 data2 : list string)
    (line line' : string) (cells : list string) regions :
  cells ≠ [] →
  Str.split Str.tab line = "United States of America" :: cells →
  Str.split Str.tab line' = "United States" :: cells →
  "United States" ∈ Dict.keys regions →
  "United States of America" ∉ Dict.keys regions →
  DataSet.initialise_projected_damage float (data1 ++ line :: data2) regions =
    DataSet.initialise_projected_damage float (data1 ++ line' :: data2) regions.
Proof.
  intros Hne Hline Hline' Hus Hlong.
  destruct data1 as [|header data1]; [done|].
  pose proof (initialise_projected_damage_names float (header :: data1) regions)
    as Hnames.
  unfold DataSet.initialise_projected_damage in *.
  match goal with |- for_each ?f _ _ = _ => set (body := f) in * end.
  cbn [app drop] in *. rewrite drop_0 in Hnames. rewrite !drop_0, !for_each_app.
  destruct (for_each body data1 regions) as [regs|e];
    cbn [mbind result_bind for_each]; [|done].
  specialize (Hnames regs eq_refl).
  assert (body regs line = body regs line') as ->; [|done].
  unfold body. rewrite Hline, Hline'.
  cbn [list_get lookup list_lookup mbind result_bind].
  unfold Dict.mem. rewrite Hnames.
  rewrite bool_decide_false, bool_decide_true by done.
  change ("United States of America" =? "United States of America")%string with true.
  rewrite !fix_last_cons by done.
  destruct (DataSet.fix_last cells) as [cs|e] eqn:Hcs;
    cbn [mbind result_bind list_get lookup list_lookup]; [|done].
  by rewrite !store_damage_cons by (by eapply fix_last_nonempty).
Qed.

Lemma Dict_mem_keys {V : Type} (d : list (string * V)) (k : string) :
  k ∈ Dict.keys d → Dict.mem k d = true.
Proof. intros Hk. unfold Dict.mem. by apply bool_decide_eq_true. Qed.

(** The loop over the cells of a line of the IRENA file: the region of the
    line is the only one that changes; a cell that holds an amount is
    stored at its year, and the other years keep their entries. *)
Lemma energy_cells_stored (line : list string) (region : string)
    (indices : list nat) regions regions' (r1 : Region A) :
  NoDup indices →
  Dict.get regions region = Ok r1 →
  for_each (λ regions i,
      cell ← list_get line i;
      let amount := Str.replace " " "" cell in
      if String.eqb amount "" then Ok regions
      else
        v ← DataSet.parse_float float amount;
        r ← Dict.get regions region;
        Ok (Dict.set region
              (set_renewable_energy
                 (<[1997 + Z.of_nat i := Some v]> (renewable_energy r)) r)
              regions))
    indices regions = Ok regions' →
  ∃ r',
    Dict.get regions' region = Ok r' ∧
    (∀ k, k ≠ region → Dict.get regions' k = Dict.get regions k) ∧
    (∀ i cell, i ∈ indices → line !! i = Some cell →
       Str.replace " " "" cell ≠ "" →
       ∃ v, float (Str.replace " " "" cell) = Some v ∧
            renewable_energy r' !! (1997 + Z.of_nat i) = Some (Some v)) ∧
    (∀ year,
       (∀ i cell, i ∈ indices → line !! i = Some cell →
          Str.replace " " "" cell ≠ "" → year ≠ 1997 + Z.of_nat i) →
       renewable_energy r' !! year = renewable_energy r1 !! year).
Proof.
  intros Hnd. revert regions r1.
  induction Hnd as [|i indices Hi Hnd IH]; intros regions r1 Hr1.
  - intros [= <-]. exists r1. split_and!; [done|done| |done].
    by intros i cell ?%elem_of_nil.
  - cbn [for_each]. intros (regions2 & Hbody & Hrest)%bind_Ok.
    apply bind_Ok in Hbody as (cell & Hcell%list_get_Ok & Hbody). cbn zeta in Hbody.
    destruct (String.eqb_spec (Str.replace " " "" cell) "") as [Hempty|Hamount].
    + injection Hbody as <-.
      destruct (IH regions r1 Hr1 Hrest) as (r' & Hr' & Hother & Hstored & Hkept).
      exists r'. split_and!; [done|done| |].
      * intros j cell' [->|Hj]%elem_of_cons Hcell' Hne.
        -- rewrite Hcell in Hcell'. injection Hcell' as <-. done.
        -- by eapply Hstored.
      * intros year Hyear. apply Hkept. intros j cell' Hj. apply Hyear. by right.
    + apply bind_Ok in Hbody as (v & Hv & Hbody). rewrite Hr1 in Hbody.
      cbn [mbind result_bind] in Hbody. injection Hbody as <-.
      unfold DataSet.parse_float in Hv.
      destruct (float (Str.replace " " "" cell)) as [v'|] eqn:Hfloat; [|done].
      injection Hv as ->.
      set (r2 := set_renewable_energy
                   (<[1997 + Z.of_nat i := Some v]> (renewable_energy r1)) r1) in *.
      destruct (IH (Dict.set region r2 regions) r2 (Dict_get_set_eq _ _ _) Hrest)
        as (r' & Hr' & Hother & Hstored & Hkept).
      exists r'. split_and!; [done| | |].
      * intros k Hk. rewrite Hother by done. by apply Dict_get_set_ne.
      * intros j cell' [->|Hj]%elem_of_cons Hcell' Hne.
        -- rewrite Hcell in Hcell'. injection Hcell' as <-. exists v. split; [done|].
           rewrite Hkept.
           ++ unfold r2. by destruct r1; cbn; rewrite lookup_insert_eq.
           ++ intros j cell' Hj _ _ Heq. apply Hi.
              assert (j = i) as -> by lia. done.
        -- by eapply Hstored.
      * intros year Hyear. rewrite Hkept.
        -- unfold r2. destruct r1; cbn. rewrite lookup_insert_ne; [done|].
           intros Heq. by eapply (Hyear i cell); [left|..].
        -- intros j cell' Hj. apply Hyear. by right.
Qed.

(** The last line of the IRENA file, when its region is registered under
    the name that the line resolves to. *)
Lemma energy_production_stores (data : list string) (line f0 region : string)
    (cells : list string) regions regions' :
  (9 ≤ length data)%nat →
  Str.split Str.comma line = f0 :: region :: cells →
  DataSet.energy_region region ∈ Dict.keys regions →
  DataSet.energy_production float (data ++ [line]) regions = Ok regions' →
  ∃ regions1 r1 r',
    DataSet.energy_production float data regions = Ok regions1 ∧
    Dict.get regions1 (DataSet.energy_region region) = Ok r1 ∧
    Dict.get regions' (DataSet.energy_region region) = Ok r' ∧
    (∀ k, k ≠ DataSet.energy_region region →
       Dict.get regions' k = Dict.get regions1 k) ∧
    (∀ (i : nat) cell, (3 ≤ i < 20)%nat → (f0 :: region :: cells) !! i = Some cell →
       if decide (Str.replace " " "" cell = "")
       then renewable_energy r' !! (1997 + Z.of_nat i)
            = renewable_energy r1 !! (1997 + Z.of_nat i)
       else ∃ v, float (Str.replace " " "" cell) = Some v ∧
                 renewable_energy r' !! (1997 + Z.of_nat i) = Some (Some v)) ∧
    (∀ year, ¬ (2000 ≤ year ≤ 2016) →
       renewable_energy r' !! year = renewable_energy r1 !! year).
Proof.
  intros Hlen Hline Hin. unfold DataSet.energy_production at 1.
  rewrite drop_app_le, for_each_app by done.
  intros (regions1 & Hdata & Hlast)%bind_Ok.
  assert (DataSet.energy_production float data regions = Ok regions1) as Hpass
    by done.
  cbn [for_each] in Hlast. apply bind_Ok in Hlast as (regions2 & Hbody & [= <-]).
  cbn zeta in Hbody. rewrite Hline in Hbody.
  cbn [list_get lookup list_lookup mbind result_bind] in Hbody.
  assert (DataSet.energy_region region ∈ Dict.keys regions1) as Hin1
    by by rewrite (energy_production_names float _ _ _ Hpass).
  rewrite (Dict_mem_keys _ _ Hin1) in Hbody. cbn [negb] in Hbody.
  destruct (Dict_get_mem regions1 _ (Dict_mem_keys _ _ Hin1)) as [r1 Hr1].
  destruct (energy_cells_stored (f0 :: region :: cells) _ (seq 3 17) regions1
              regions2 r1 (NoDup_seq _ _) Hr1 Hbody)
    as (r' & Hr' & Hother & Hstored & Hkept).
  exists regions1, r1, r'. split_and!; [done..| |].
  - intros i cell Hi Hcell. case_decide as Hamount.
    + apply Hkept. intros j cell' Hj Hcell' Hne Heq.
      assert (j = i) as -> by lia. rewrite Hcell in Hcell'. by injection Hcell' as <-.
    + apply Hstored; [|done..]. apply elem_of_seq. lia.
  - intros year Hyear. apply Hkept.
    intros j cell' [? ?]%elem_of_seq _ _ ->. lia.
Qed.

Lemma last_fix_last (line line' : list string) :
  DataSet.fix_last line = Ok line' →
  ∃ l, last line = Some l ∧
       last line' = Some (Str.replace DataSet.minus_sign "-" l).
Proof.
  unfold DataSet.fix_last. destruct (last line) as [l|] eqn:Hlast; [|done].
  intros [= <-]. exists l. split; [done|].
  rewrite last_lookup, length_insert. apply list_lookup_insert_eq.
  destruct line; [done|]. simpl. lia.
Qed.

(** The last line of the projected-damage file, when it is a line for
    "United States of America". *)
Lemma initialise_projected_damage_stores (data : list string) (line : string)
    (cells : list string) regions regions' :
  (1 ≤ length data)%nat → cells ≠ [] →
  Str.split Str.tab line = "United States of America" :: cells →
  "United States" ∈ Dict.keys regions →
  "United States of America" ∉ Dict.keys regions →
  DataSet.initialise_projected_damage float (data ++ [line]) regions = Ok regions' →
  ∃ regions1 r1 l v,
    DataSet.initialise_projected_damage float data regions = Ok regions1 ∧
    Dict.get regions1 "United States" = Ok r1 ∧
    last cells = Some l ∧
    float (Str.replace DataSet.minus_sign "-" l) = Some v ∧
    Dict.get regions' "United States" = Ok (set_projected_damage (Some v) r1) ∧
    (∀ k, k ≠ "United States" → Dict.get regions' k = Dict.get regions1 k).
Proof.
  intros Hlen Hcells Hline Hus Hlong. unfold DataSet.initialise_projected_damage at 1.
  rewrite drop_app_le, for_each_app by done.
  intros (regions1 & Hdata & Hlast)%bind_Ok.
  assert (DataSet.initialise_projected_damage float data regions = Ok regions1)
    as Hpass by done.
  pose proof (initialise_projected_damage_names float _ _ _ Hpass) as Hkeys.
  cbn [for_each] in Hlast. apply bind_Ok in Hlast as (regions2 & Hbody & [= <-]).
  cbn zeta in Hbody. rewrite Hline in Hbody.
  cbn [list_get lookup list_lookup mbind result_bind] in Hbody.
  assert (Dict.mem "United States of America" regions1 = false) as Hmem.
  { unfold Dict.mem. apply bool_decide_eq_false. by rewrite Hkeys. }
  rewrite Hmem in Hbody. cbn [String.eqb Ascii.eqb Bool.eqb] in Hbody.
  change (String.eqb "United States of America" "United States of America")
    with true in Hbody.
  apply bind_Ok in Hbody as (line' & Hfix & Hstore).
  apply last_fix_last in Hfix as (l & Hl & Hl').
  rewrite last_cons in Hl. destruct (last cells) as [l0|] eqn:Hcl;
    [injection Hl as ->|by apply last_None in Hcl].
  unfold DataSet.store_damage in Hstore. rewrite Hl' in Hstore.
  cbn [mbind result_bind] in Hstore.
  apply bind_Ok in Hstore as (v & Hv & (r1 & Hr1 & [= <-])%bind_Ok).
  unfold DataSet.parse_float in Hv.
  destruct (float (Str.replace DataSet.minus_sign "-" l)) as [v'|] eqn:Hfloat; [|done].
  injection Hv as ->.
  exists regions1, r1, l, v. split_and!; [done..| |].
  - apply Dict_get_set_eq.
  - intros k Hk. by apply Dict_get_set_ne.
Qed.

(** C7. The registry that [initialise_regions] builds has one entity per
    name; among the names are "United States" and "United Kingdom", and
    "United States of America" is not: the entity under "United States" is
    the region constructed for "United States of America".  No pass of
    [__init__] adds or removes a name.  In the IRENA file a line for "USA"
    is merged exactly as the same line for "United States" is; in the
    projected-damage file a line for "United States of America" is stored
    exactly as the same line for "United States" is.  And the data go into
    the one entity: when the last line of the IRENA file is a line for
    "USA", every amount that it holds is stored at its year in the
    renewable-energy series of the entity "United States", which keeps the
    entries that the lines before it stored at its other years, and no
    other entity changes; when the last line of the projected-damage file
    is a line for "United States of America", its number is stored as the
    projected damage of the entity "United States", and no other entity
    changes. *)
Theorem alias_resolution (f : files A) :
  (∀ regions, DataSet.initialise_regions (country_names_csv f) = Ok regions →
     NoDup (Dict.keys regions) ∧
     ("United States" ∈ Dict.keys regions) ∧
     ("United States of America" ∉ Dict.keys regions) ∧
     ("United Kingdom" ∈ Dict.keys regions) ∧
     ∃ continent,
       Dict.get regions "United States"
         = Ok (new_Region "United States of America" continent)) ∧
  (∀ pass regions regions', pass ∈ DataSet.passes float int f →
     pass regions = Ok regions' → Dict.keys regions' = Dict.keys regions) ∧
  (∀ (data1 data2 : list string) (line line' f0 : string) (cells : list string)
     regions,
     Str.split Str.comma line = f0 :: "USA" :: cells →
     Str.split Str.comma line' = f0 :: "United States" :: cells →
     DataSet.energy_production float (data1 ++ line :: data2) regions =
       DataSet.energy_production float (data1 ++ line' :: data2) regions) ∧
  (∀ (data1 data2 : list string) (line line' : string) (cells : list string)
     regions,
     cells ≠ [] →
     Str.split Str.tab line = "United States of America" :: cells →
     Str.split Str.tab line' = "United States" :: cells →
     "United States" ∈ Dict.keys regions →
     "United States of America" ∉ Dict.keys regions →
     DataSet.initialise_projected_damage float (data1 ++ line :: data2) regions =
       DataSet.initialise_projected_damage float (data1 ++ line' :: data2) regions) ∧
  (∀ (data : list string) (line f0 : string) (cells : list string) regions regions',
     (9 ≤ length data)%nat →
     Str.split Str.comma line = f0 :: "USA" :: cells →
     "United States" ∈ Dict.keys regions →
     DataSet.energy_production float (data ++ [line]) regions = Ok regions' →
     ∃ regions1 r1 r',
       DataSet.energy_production float data regions = Ok regions1 ∧
       Dict.get regions1 "United States" = Ok r1 ∧
       Dict.get regions' "United States" = Ok r' ∧
       (∀ k, k ≠ "United States" → Dict.get regions' k = Dict.get regions1 k) ∧
       (∀ (i : nat) cell, (3 ≤ i < 20)%nat →
          (f0 :: "USA" :: cells) !! i = Some cell →
          if decide (Str.replace " " "" cell = "")
          then renewable_energy r' !! (1997 + Z.of_nat i)
               = renewable_energy r1 !! (1997 + Z.of_nat i)
          else ∃ v, float (Str.replace " " "" cell) = Some v ∧
                    renewable_energy r' !! (1997 + Z.of_nat i) = Some (Some v)) ∧
       (∀ year, ¬ (2000 ≤ year ≤ 2016) →
          renewable_energy r' !! year = renewable_energy r1 !! year)) ∧
  (∀ (data : list string) (line : string) (cells : list string) regions regions',
     (1 ≤ length data)%nat → cells ≠ [] →
     Str.split Str.tab line = "United States of America" :: cells →
     "United States" ∈ Dict.keys regions →
     "United States of America" ∉ Dict.keys regions →
     DataSet.initialise_projected_damage float (data ++ [line]) regions = Ok regions' →
     ∃ regions1 r1 l v,
       DataSet.initialise_projected_damage float data regions = Ok regions1 ∧
       Dict.get regions1 "United States" = Ok r1 ∧
       last cells = Some l ∧
       float (Str.replace DataSet.minus_sign "-" l) = Some v ∧
       Dict.get regions' "United States" = Ok (set_projected_damage (Some v) r1) ∧
       (∀ k, k ≠ "United States" → Dict.get regions' k = Dict.get regions1 k)).
Proof.
  split_and!.
  - intros regions Hinit.
    destruct (initialise_regions_names _ _ Hinit) as (?&?&?&?&_&?). by eauto.
  - intros pass regions regions'. apply passes_names.
  - apply energy_production_USA.
  - apply initialise_projected_damage_USA.
  - intros data line f0 cells regions regions' Hlen Hline Hin.
    by apply (energy_production_stores data line f0 "USA" cells).
  - apply initialise_projected_damage_stores.
Qed.
End Aliases.

(** On the sample files, after [__init__], the entity "United States" holds
    the amount that the IRENA file gives for "USA" and the damage that the
    projected-damage file gives for "United States of America". *)
Lemma sample_aliases_merge :
  (regions ← DataSet.init sample_float sample_int sample_files;
   r ← Dict.get regions "United States";
   Ok (name r, renewable_energy r !! 2016, projected_damage r))
  = Ok ("United States of America", Some (Some (qc 7)), Some (qc 2)).
Proof. vm_compute. reflexivity. Qed.

Lemma sample_regions_run :
  (regions ← DataSet.initialise_regions (A:=Qc) sample_country_names; Ok ()) = Ok ().
Proof. vm_compute. reflexivity. Qed.

Lemma alias_resolution_witness :
  (∃ regions : list (string * Region Qc),
     DataSet.initialise_regions sample_country_names = Ok regions ∧
     NoDup (Dict.keys regions) ∧
     ("United States" ∈ Dict.keys regions) ∧
     ("United States of America" ∉ Dict.keys regions)) ∧
  (∀ regions : list (string * Region Qc),
     DataSet.energy_production sample_float
       (replicate 9 "" ++ "NA,USA,Total,5,,,,,,,,,,,,,,,,7" :: []) regions =
     DataSet.energy_production sample_float
       (replicate 9 "" ++ "NA,United States,Total,5,,,,,,,,,,,,,,,,7" :: []) regions) ∧
  DataSet.initialise_projected_damage sample_float
    ([tsv ["Country"; "Change"]] ++ tsv ["United States of America"; "2"] :: [])
    [("United States", new_Region "United States of America" "North America")] =
  DataSet.initialise_projected_damage sample_float
    ([tsv ["Country"; "Change"]] ++ tsv ["United States"; "2"] :: [])
    [("United States", new_Region "United States of America" "North America")] ∧
  (∃ r' : Region Qc,
     (regions' ← DataSet.energy_production sample_float
        (replicate 9 "" ++ ["NA,USA,Total,5,,,,,,,,,,,,,,,,7"])
        [("United States", new_Region "United States of America" "North America")];
      Dict.get regions' "United States") = Ok r' ∧
     renewable_energy r' !! 2000 = Some (Some (qc 5)) ∧
     renewable_energy r' !! 2001 = Some None ∧
     renewable_energy r' !! 2016 = Some (Some (qc 7))) ∧
  (∃ r' : Region Qc,
     (regions' ← DataSet.initialise_projected_damage sample_float
        ([tsv ["Country"; "Change"]] ++ [tsv ["United States of America"; "2"]])
        [("United States", new_Region "United States of America" "North America")];
      Dict.get regions' "United States") = Ok r' ∧
     projected_damage r' = Some (qc 2)).
Proof.
  pose proof (alias_resolution sample_float sample_int sample_files)
    as (Hinit & _ & Henergy & Hdamage & Hstored & Hdamaged).
  split_and!.
  - pose proof sample_regions_run as Hruns.
    destruct (DataSet.initialise_regions (A:=Qc) sample_country_names)
      as [regions|e] eqn:Hregions; [|discriminate Hruns].
    exists regions. split; [reflexivity|].
    destruct (Hinit regions Hregions) as (Hnd & Hus & Hlong & _). auto.
  - intros regions.
    apply (Henergy _ _ _ _ "NA"
             ("Total" :: "5" :: replicate 15 "" ++ ["7"]));
      vm_compute; reflexivity.
  - apply (Hdamage _ _ _ _ ["2"]).
    + discriminate.
    + vm_compute; reflexivity.
    + vm_compute; reflexivity.
    + left.
    + intros Hin. apply list_elem_of_singleton in Hin. discriminate Hin.
  - destruct (DataSet.energy_production sample_float
        (replicate 9 "" ++ ["NA,USA,Total,5,,,,,,,,,,,,,,,,7"])
        [("United States", new_Region (A:=Qc) "United States of America"
                             "North America")])
      as [regions'|e] eqn:Hrun; [|by vm_compute in Hrun].
    destruct (Hstored (replicate 9 "") "NA,USA,Total,5,,,,,,,,,,,,,,,,7" "NA"
                ("Total" :: "5" :: replicate 15 "" ++ ["7"])
                [("United States", new_Region "United States of America"
                                     "North America")] regions')
      as (regions1 & r1 & r' & Hrun1 & Hr1 & Hr' & _ & Hcells & _);
      [simpl; lia|reflexivity|left|exact Hrun|].
    injection Hrun1 as <-. injection Hr1 as <-.
    exists r'. split; [exact Hr'|].
    pose proof (Hcells 3%nat "5" ltac:(lia) ltac:(reflexivity)) as H2000.
    pose proof (Hcells 4%nat "" ltac:(lia) ltac:(reflexivity)) as H2001.
    pose proof (Hcells 19%nat "7" ltac:(lia) ltac:(reflexivity)) as H2016.
    destruct (decide (Str.replace " " "" "5" = "")) as [Heq|_]; [discriminate Heq|].
    destruct (decide (Str.replace " " "" "" = "")) as [_|Hne]; [|by destruct Hne].
    destruct (decide (Str.replace " " "" "7" = "")) as [Heq|_]; [discriminate Heq|].
    destruct H2000 as (v5 & [= <-] & H2000). destruct H2016 as (v7 & [= <-] & H2016).
    split_and!; [exact H2000|exact H2001|exact H2016].
  - destruct (DataSet.initialise_projected_damage sample_float
        ([tsv ["Country"; "Change"]] ++ [tsv ["United States of America"; "2"]])
        [("United States", new_Region (A:=Qc) "United States of America"
                             "North America")])
      as [regions'|e] eqn:Hrun; [|by vm_compute in Hrun].
    destruct (Hdamaged [tsv ["Country"; "Change"]]
                (tsv ["United States of America"; "2"]) ["2"]
                [("United States", new_Region "United States of America"
                                     "North America")] regions')
      as (regions1 & r1 & l & v & Hrun1 & Hr1 & [= <-] & [= <-] & Hr' & _);
      [simpl; lia|discriminate|reflexivity|left
      |by intros ?%list_elem_of_singleton|exact Hrun|].
    injection Hrun1 as <-. injection Hr1 as <-.
    exists (set_projected_damage (Some (qc 2))
              (new_Region "United States of America" "North America")).
    split; [exact Hr'|reflexivity].
Defined.

(** ** The rankings *)

Section RankingLoop.
Context {A : Type} `{PyNum A}.
Implicit Types top : list (option string * A).

(** The indexed loop is the insertion on the list. *)
Lemma place_from top (region : string) (score : A) (k m : nat) :
  length top = 10%nat → (k + m = 10)%nat →
  FinalReport.place top region score (seq k m) =
    Ok (take 10 (take k top ++ insert_before_lower (Some region, score) (drop k top))).
Proof.
  intros Hlen. revert k. induction m as [|m IH]; intros k Hk.
  - cbn [seq FinalReport.place]. rewrite drop_ge by lia.
    cbn [insert_before_lower]. rewrite app_nil_r.
    by rewrite (take_ge top k), (take_ge top 10) by lia.
  - cbn [seq FinalReport.place].
    destruct (list_get_lt top k) as [e He]; [lia|]. rewrite He.
    cbn [mbind result_bind]. apply list_get_Ok in He.
    rewrite (drop_S _ _ _ He). cbn [insert_before_lower snd].
    destruct (num_ltb e.2 score).
    + unfold FinalReport.list_insert_at. by rewrite (drop_S _ _ _ He).
    + rewrite IH by lia. rewrite (take_S_r _ _ _ He).
      by rewrite <-app_assoc.
Qed.

Lemma place_insert top (region : string) (score : A) :
  length top = 10%nat →
  FinalReport.place top region score (range 10) =
    Ok (take 10 (insert_before_lower (Some region, score) top)).
Proof. intros Hlen. unfold range. by rewrite place_from. Qed.

Lemma length_insert_before_lower (c : option string * A) top :
  (length top ≤ length (insert_before_lower c top))%nat.
Proof.
  induction top as [|e top IH]; simpl; [done|].
  destruct (num_ltb e.2 c.2); simpl; lia.
Qed.

Lemma length_top10_step top (c : string * option A) :
  length top = 10%nat → length (top10_step top c) = 10%nat.
Proof.
  intros Hlen. unfold top10_step. destruct c.2; [|done].
  rewrite length_take. pose proof (length_insert_before_lower (Some c.1, a) top). lia.
Qed.

Lemma length_top10_of (cands : list (string * option A)) :
  length (top10_of cands) = 10%nat.
Proof.
  unfold top10_of. induction cands as [|c cands IH] using rev_ind.
  - apply length_replicate.
  - rewrite foldl_app. by apply length_top10_step.
Qed.

(** Each ranking is the loop over its candidates. *)
Lemma rank_top10_of (which : ranking) (regions : list (string * Region A)) :
  (∀ k r, (k, r) ∈ regions → is_Some (co2_emissions r !! 2016)) →
  rank which regions = Ok (top10_of (candidates which regions)).*1.
Proof.
  intros Hkeys.
  assert (∀ (body : list (option string * A) → string * Region A →
               result (list (option string * A))) top,
    (∀ top k r, (k, r) ∈ regions → length top = 10%nat →
       body top (k, r) = Ok (top10_step top (k, rank_score which r))) →
    length top = 10%nat →
    for_each body regions top
      = Ok (foldl top10_step top (candidates which regions))) as Hloop.
  { clear Hkeys. intros body. unfold candidates.
    induction regions as [|[k r] regions IH]; intros top Hbody Hlen; [done|].
    cbn [for_each fmap list_fmap foldl]. rewrite Hbody by (done || left).
    cbn [mbind result_bind fst snd]. apply IH.
    - intros top' k' r' Hin. apply Hbody. by right.
    - by apply length_top10_step. }
  destruct which; unfold rank, FinalReport.largest_co2, FinalReport.greatest_help.
  - rewrite Hloop; [done| |by rewrite length_replicate].
    intros top k r Hin Hlen. destruct (Hkeys k r Hin) as [o Ho].
    unfold dict_get, top10_step, rank_score. rewrite Ho.
    cbn [mbind result_bind default snd fst]. destruct o; [|done].
    by apply place_insert.
  - rewrite Hloop; [done| |by rewrite length_replicate].
    intros top k r Hin Hlen. unfold top10_step, rank_score. cbn [snd fst].
    destruct (region_score r); [|done]. by apply place_insert.
Qed.

(** Where the candidate goes. *)
Lemma insert_before_lower_cases (c : option string * A) top :
  (insert_before_lower c top = top ∧ Forall (λ e, num_ltb e.2 c.2 = false) top) ∨
  (∃ l1 e' l2, top = l1 ++ e' :: l2 ∧
     insert_before_lower c top = l1 ++ c :: e' :: l2 ∧
     Forall (λ e, num_ltb e.2 c.2 = false) l1 ∧ num_ltb e'.2 c.2 = true).
Proof.
  induction top as [|e top IH]; simpl; [by left|].
  destruct (num_ltb e.2 c.2) eqn:Hlt.
  - right. by exists [], e, top.
  - destruct IH as [[-> Hall]|(l1 & e' & l2 & -> & -> & Hall & Hlt')].
    + left. split; [done|by constructor].
    + right. exists (e :: l1), e', l2. split_and!; first [done | by constructor].
Qed.

Lemma top10_insert_cases (c : option string * A) top :
  length top = 10%nat →
  (take 10 (insert_before_lower c top) = top ∧
     Forall (λ e, num_ltb e.2 c.2 = false) top) ∨
  (∃ l1 e' m z, top = l1 ++ m ++ [z] ∧
     take 10 (insert_before_lower c top) = l1 ++ c :: m ∧
     Forall (λ e, num_ltb e.2 c.2 = false) l1 ∧
     head (m ++ [z]) = Some e' ∧ num_ltb e'.2 c.2 = true).
Proof.
  intros Hlen.
  destruct (insert_before_lower_cases c top)
    as [[-> Hall]|(l1 & e' & l2 & -> & -> & Hall & Hlt)].
  - left. split; [by rewrite take_ge by lia|done].
  - right. destruct (exists_last (l := e' :: l2)) as (m & z & Hm); [done|].
    exists l1, e', m, z. rewrite Hm. repeat split; [|done| |done].
    + rewrite length_app, Hm, length_app in Hlen. simpl in Hlen.
      change (l1 ++ c :: m ++ [z]) with (l1 ++ (c :: m) ++ [z]).
      rewrite app_assoc. apply take_app_length'. rewrite length_app. simpl. lia.
    + by rewrite <-Hm.
Qed.
End RankingLoop.

Section RankingExact.
Local Open Scope Qc_scope.
Implicit Types top : list (option string * Qc).
Implicit Types cands : list (string * option Qc).

Lemma Qc_ltb_false (x y : Qc) : num_ltb x y = false ↔ y ≤ x.
Proof. cbn. by rewrite bool_decide_eq_false, Qcle_ngt. Qed.

Lemma Qc_ltb_true (x y : Qc) : num_ltb x y = true ↔ x < y.
Proof. cbn. by rewrite bool_decide_eq_true. Qed.

Lemma StronglySorted_replicate {T : Type} (R : relation T) (n : nat) (x : T) :
  R x x → StronglySorted R (replicate n x).
Proof.
  intros Hx. induction n as [|n IH]; simpl; constructor; [done|].
  by apply Forall_replicate.
Qed.

Lemma StronglySorted_lookup {T : Type} (R : relation T) (l : list T)
    (i j : nat) (a b : T) :
  StronglySorted R l → (i < j)%nat → l !! i = Some a → l !! j = Some b → R a b.
Proof.
  intros Hl. revert i j. induction Hl as [|x l Hl IH Hx]; intros i j Hij Hi Hj.
  - by rewrite lookup_nil in Hi.
  - destruct j as [|j]; [lia|]. destruct i as [|i]; simpl in *.
    + injection Hi as <-. apply (proj1 (Forall_forall _ _) Hx).
      by eapply list_elem_of_lookup_2.
    + eapply (IH i j); [lia|done..].
Qed.

Lemma leaders_init : leaders (replicate 10 (None, 0)) [].
Proof.
  split.
  - apply length_replicate.
  - by apply StronglySorted_replicate.
  - intros e He%elem_of_replicate_inv. by left.
  - intros n s Hin. by apply elem_of_nil in Hin.
  - apply NoDup_nil_2.
Qed.

Lemma leaders_nonneg top cands (e : option string * Qc) :
  leaders top cands → e ∈ top → 0 ≤ e.2.
Proof.
  intros Hl He. destruct (leaders_seen _ _ Hl e He) as [->|(n & s & -> & _ & Hs)].
  - done.
  - by apply Qclt_le_weak.
Qed.

Lemma leaders_name top cands (n : string) (s : Qc) :
  leaders top cands → (Some n, s) ∈ top → (n, Some s) ∈ cands ∧ 0 < s.
Proof.
  intros Hl He. destruct (leaders_seen _ _ Hl _ He) as [?|(n' & s' & ? & ? & ?)];
    by simplify_eq.
Qed.

Lemma leaders_fresh top cands (n : string) :
  leaders top cands → n ∉ cands.*1 → n ∉ omap fst top.
Proof.
  intros Hl Hn ([o s] & He & Ho)%list_elem_of_omap. simpl in Ho. subst o.
  apply Hn. apply (leaders_name _ _ _ _ Hl) in He as [He _].
  apply list_elem_of_fmap. by exists (n, Some s).
Qed.

(** A candidate with no score changes nothing. *)
Lemma leaders_skip top cands (n : string) :
  leaders top cands → leaders top (cands ++ [(n, None)]).
Proof.
  intros Hl. split.
  - apply Hl.
  - apply Hl.
  - intros e He.
    destruct (leaders_seen _ _ Hl e He) as [->|(n' & s' & -> & Hin & Hs)];
      [by left|right].
    exists n', s'. split; [done|]. split; [|done]. apply elem_of_app. by left.
  - intros n' s' [Hin|Hin%list_elem_of_singleton]%elem_of_app Hs; [|done].
    by apply Hl.
  - apply Hl.
Qed.

(** A candidate with a score is inserted, or is no higher than the ten. *)
Lemma leaders_step top cands (n : string) (s : Qc) :
  leaders top cands → n ∉ cands.*1 →
  leaders (take 10 (insert_before_lower (Some n, s) top)) (cands ++ [(n, Some s)]).
Proof.
  intros Hl Hn.
  destruct (top10_insert_cases (Some n, s) top (leaders_length _ _ Hl))
    as [[-> Hall]|(l1 & e' & m & z & Htop & -> & Hl1 & Hhead & He')].
  - (* no leader is lower *)
    assert (∀ e, e ∈ top → s ≤ e.2) as Hle.
    { intros e He. apply Qc_ltb_false. by apply (proj1 (Forall_forall _ _) Hall). }
    split.
    + apply Hl.
    + apply Hl.
    + intros e He.
      destruct (leaders_seen _ _ Hl e He) as [->|(n' & s' & -> & Hin & Hs)];
        [by left|right].
      exists n', s'. split; [done|]. split; [|done]. apply elem_of_app. by left.
    + intros n' s' [Hin|Hin%list_elem_of_singleton]%elem_of_app Hs.
      * by apply Hl.
      * injection Hin as -> ->. by right.
    + apply Hl.
  - (* the candidate goes before [e'], and the last leader [z] goes *)
    apply Qc_ltb_true in He'. cbn [snd] in He'.
    pose proof (leaders_sorted _ _ Hl) as Hsorted. rewrite Htop in Hsorted.
    apply StronglySorted_app in Hsorted as (Hcross & Hs1 & Hsmz).
    assert (∀ e, e ∈ l1 → s ≤ e.2) as Hle1.
    { intros e He. apply Qc_ltb_false. by apply (proj1 (Forall_forall _ _) Hl1). }
    assert (∀ e, e ∈ m ++ [z] → e.2 < s) as Hlow.
    { intros e He. destruct (m ++ [z]) as [|e0 rest] eqn:Hmz; [done|].
      injection Hhead as ->. apply StronglySorted_cons in Hsmz as [Hrest _].
      apply elem_of_cons in He as [->|He]; [done|].
      eapply Qcle_lt_trans; [|exact He'].
      by apply (proj1 (Forall_forall _ _) Hrest). }
    assert (e' ∈ top) as He'top.
    { rewrite Htop. apply elem_of_app. right.
      destruct (m ++ [z]) as [|e0 rest]; [done|]. injection Hhead as ->. left. }
    assert (0 < s) as Hs.
    { eapply Qcle_lt_trans; [|exact He']. by eapply leaders_nonneg. }
    assert (∀ e, e ∈ l1 ++ (Some n, s) :: m → e = (Some n, s) ∨ e ∈ top) as Hsub.
    { intros e [He|[->|He]%elem_of_cons]%elem_of_app; [right|by left|right];
        rewrite Htop, !elem_of_app; auto. }
    apply StronglySorted_app in Hsmz as (Hmz & Hsm & _).
    split.
    + pose proof (leaders_length _ _ Hl) as Hlen. rewrite Htop in Hlen.
      rewrite !length_app in Hlen. rewrite length_app. simpl in *. lia.
    + apply StronglySorted_app_2; [|done|].
      * intros x1 x2 Hx1 [->|Hx2]%elem_of_cons; [by apply Hle1|].
        apply Hcross; [done|]. apply elem_of_app. by left.
      * constructor; [done|]. apply Forall_forall. intros e He.
        apply Qclt_le_weak, Hlow. apply elem_of_app. by left.
    + intros e [->|He]%Hsub.
      * right. exists n, s. split; [done|]. split; [|done].
        apply elem_of_app. right. left.
      * destruct (leaders_seen _ _ Hl e He) as [->|(n' & s' & -> & Hin & Hs')];
          [by left|right].
        exists n', s'. split; [done|]. split; [|done]. apply elem_of_app. by left.
    + intros n' s' [Hin|Hin%list_elem_of_singleton]%elem_of_app Hs'.
      2:{ injection Hin as -> ->. left. apply elem_of_app. right. left. }
      destruct (leaders_highest _ _ Hl n' s' Hin Hs') as [Hin'|Hle].
      * rewrite Htop, !elem_of_app, list_elem_of_singleton in Hin'.
        destruct Hin' as [Hin'|[Hin'|Hz]].
        -- left. apply elem_of_app. by left.
        -- left. apply elem_of_app. right. by right.
        -- right. subst z. intros e [He|[->|He]%elem_of_cons]%elem_of_app.
           ++ apply (Hcross e (Some n', s')); [done|].
              apply elem_of_app. right. left.
           ++ apply Qclt_le_weak, (Hlow (Some n', s')).
              apply elem_of_app. right. left.
           ++ apply (Hmz e (Some n', s')); [done|left].
      * right. intros e [->|He]%Hsub; [|by apply Hle].
        apply Qclt_le_weak. eapply Qcle_lt_trans; [|exact He']. by apply Hle.
    + pose proof (leaders_distinct _ _ Hl) as Hnd.
      pose proof (leaders_fresh _ _ n Hl Hn) as Hfresh.
      rewrite Htop, !omap_app in Hnd, Hfresh.
      rewrite omap_app. cbn [omap list_omap fst].
      rewrite app_assoc in Hnd, Hfresh.
      apply NoDup_app in Hnd as (Hnd & _ & _).
      rewrite elem_of_app in Hfresh.
      rewrite <-Permutation_middle. apply NoDup_cons. split; [|done].
      intros Hin. apply Hfresh. by left.
Qed.

Lemma top10_of_leaders cands : NoDup cands.*1 → leaders (top10_of cands) cands.
Proof.
  unfold top10_of. induction cands as [|[n o] cands IH] using rev_ind; intros Hnd.
  - apply leaders_init.
  - rewrite fmap_app in Hnd. apply NoDup_app in Hnd as (Hnd & Hfresh & _).
    rewrite foldl_app. cbn [foldl]. unfold top10_step at 1. cbn [fst snd].
    assert (n ∉ cands.*1) as Hn.
    { intros Hin. apply (Hfresh n Hin). left. }
    destruct o as [s|]; [by apply leaders_step; auto|by apply leaders_skip; auto].
Qed.
End RankingExact.

Section RankingClaims.
Local Open Scope Qc_scope.
Implicit Types regions : list (string * Region Qc).

Lemma candidates_keys (which : ranking) regions :
  (candidates which regions).*1 = Dict.keys regions.
Proof.
  unfold candidates, Dict.keys. rewrite <-list_fmap_compose.
  by apply list_fmap_ext.
Qed.

Lemma elem_of_candidates (which : ranking) regions (n : string) (o : option Qc) :
  (n, o) ∈ candidates which regions ↔
    ∃ r, (n, r) ∈ regions ∧ rank_score which r = o.
Proof.
  unfold candidates. rewrite list_elem_of_fmap. split.
  - intros ([k r] & [= -> ->] & Hin). by exists r.
  - intros (r & Hin & <-). by exists (n, r).
Qed.

Lemma registry_functional regions (n : string) (r1 r2 : Region Qc) :
  NoDup (Dict.keys regions) → (n, r1) ∈ regions → (n, r2) ∈ regions → r1 = r2.
Proof.
  unfold Dict.keys. induction regions as [|[k r] regions IH]; simpl.
  - by intros _ ?%elem_of_nil.
  - intros [Hk Hnd]%NoDup_cons H1%elem_of_cons H2%elem_of_cons.
    destruct H1 as [H1|H1], H2 as [H2|H2]; simplify_eq.
    + done.
    + destruct Hk. apply list_elem_of_fmap. by exists (k, r2).
    + destruct Hk. apply list_elem_of_fmap. by exists (k, r1).
    + by apply IH.
Qed.

Lemma positive_spec (o : option Qc) : positive o ↔ ∃ s, o = Some s ∧ 0 < s.
Proof.
  destruct o as [s|]; cbn.
  - rewrite bool_decide_spec. split; [intros ?; by exists s|].
    by intros (s0 & [= <-] & ?).
  - split; [done|]. by intros (? & [=] & _).
Qed.

Lemma omap_id_fst (top : list (option string * Qc)) : omap id top.*1 = omap fst top.
Proof. induction top as [|[[n|] s] top IH]; csimpl; by rewrite ?IH. Qed.

Lemma length_omap_id {T : Type} (l : list (option T)) :
  None ∉ l → length (omap id l) = length l.
Proof.
  induction l as [|[x|] l IH]; csimpl; intros Hl; [done| |].
  - rewrite IH; [done|]. intros Hin. apply Hl. by right.
  - destruct Hl. left.
Qed.

Lemma elem_of_names (top : list (option string * Qc)) (o : option string) :
  o ∈ top.*1 ↔ ∃ s, (o, s) ∈ top.
Proof.
  rewrite list_elem_of_fmap. split.
  - intros ([o' s] & -> & Hin). by exists s.
  - intros (s & Hin). by exists (o, s).
Qed.

(** Both rankings return the names of ten leaders. *)
Lemma rank_leaders (which : ranking) regions :
  NoDup (Dict.keys regions) →
  (∀ k r, (k, r) ∈ regions → well_keyed r) →
  ∃ top, rank which regions = Ok top.*1 ∧ leaders top (candidates which regions).
Proof.
  intros Hnd Hkeyed. exists (top10_of (candidates which regions)). split.
  - apply rank_top10_of. intros k r Hin.
    apply well_keyed_lookup; [|lia].
    by eapply well_keyed_co2_emissions, Hkeyed.
  - apply top10_of_leaders. by rewrite candidates_keys.
Qed.

(** C4, as the code has it.  For each of the two rankings, on a registry
    with one entity per name whose series are keyed by the years of the
    window, in exact arithmetic: the ranking returns; every name returned
    is a region whose score is present and strictly positive (a region
    whose score is absent, zero or negative is never ranked); no name is
    returned twice; the names are in descending order of score; and a
    region with a positive score that is not returned is no higher than
    any region returned, and then all the entries returned are names. *)
Theorem top10_ranking (which : ranking) regions :
  NoDup (Dict.keys regions) →
  (∀ k r, (k, r) ∈ regions → well_keyed r) →
  ∃ names,
    rank which regions = Ok names ∧
    (∀ n, Some n ∈ names →
       ∃ r s, (n, r) ∈ regions ∧ rank_score which r = Some s ∧ 0 < s) ∧
    NoDup (omap id names) ∧
    (∀ (i j : nat) n1 n2 r1 r2 s1 s2, (i < j)%nat →
       names !! i = Some (Some n1) → names !! j = Some (Some n2) →
       (n1, r1) ∈ regions → (n2, r2) ∈ regions →
       rank_score which r1 = Some s1 → rank_score which r2 = Some s2 →
       s2 ≤ s1) ∧
    (∀ n r s, (n, r) ∈ regions → rank_score which r = Some s → 0 < s →
       Some n ∉ names →
       (None ∉ names) ∧
       ∀ n' r' s', Some n' ∈ names → (n', r') ∈ regions →
         rank_score which r' = Some s' → s ≤ s').
Proof.
  intros Hnd Hkeyed.
  destruct (rank_leaders which regions Hnd Hkeyed) as (top & Hrank & Hl).
  assert (∀ n r s s', (Some n, s') ∈ top → (n, r) ∈ regions →
            rank_score which r = Some s → s' = s) as Hscore.
  { intros n r s s' Hin Hr Hs.
    apply (leaders_name _ _ _ _ Hl) in Hin as [(r' & Hr' & Hs')%elem_of_candidates _].
    rewrite (registry_functional regions n r r') in Hs by done. congruence. }
  exists top.*1. split; [done|]. split; [|split; [|split]].
  - intros n (s & Hin)%elem_of_names.
    apply (leaders_name _ _ _ _ Hl) in Hin as [(r & Hr & Hs)%elem_of_candidates Hpos].
    by exists r, s.
  - rewrite omap_id_fst. apply Hl.
  - intros i j n1 n2 r1 r2 s1 s2 Hij Hi Hj Hr1 Hr2 Hs1 Hs2.
    rewrite list_lookup_fmap in Hi, Hj.
    destruct (top !! i) as [[o1 s1']|] eqn:Hi'; [|done].
    destruct (top !! j) as [[o2 s2']|] eqn:Hj'; [|done].
    simpl in Hi, Hj. simplify_eq.
    pose proof (StronglySorted_lookup _ _ _ _ _ _ (leaders_sorted _ _ Hl) Hij Hi' Hj')
      as Hle. simpl in Hle.
    rewrite <-(Hscore n1 r1 s1 s1'), <-(Hscore n2 r2 s2 s2'); [done|..|done|done];
      try done; by eapply list_elem_of_lookup_2.
  - intros n r s Hr Hs Hpos Hout.
    destruct (leaders_highest _ _ Hl n s) as [Hin|Hle]; [|done| |].
    { apply elem_of_candidates. by exists r. }
    { destruct Hout. apply elem_of_names. by exists s. }
    split.
    + intros (x & Hin)%elem_of_names.
      destruct (leaders_seen _ _ Hl _ Hin) as [[= ->]|(? & ? & [=] & _)].
      apply Hle in Hin. simpl in Hin. by apply Qcle_not_lt in Hin.
    + intros n' r' s' (x & Hin)%elem_of_names Hr' Hs'.
      rewrite <-(Hscore n' r' s' x Hin Hr' Hs'). by apply (Hle _ Hin).
Qed.

(** The ten slots of the two rankings.  On a registry with one entity per
    name whose series are keyed by the years of the window, scores being
    compared as exact numbers: the ranking returns exactly ten entries,
    whatever the number of regions with a score; after an empty slot
    ([None]) come only empty slots; and when fewer than ten regions have a
    present, strictly positive score, all of them are returned and the
    result holds empty slots. *)
Theorem top10_always_ten (which : ranking) regions :
  NoDup (Dict.keys regions) →
  (∀ k r, (k, r) ∈ regions → well_keyed r) →
  ∃ names,
    rank which regions = Ok names ∧
    length names = 10%nat ∧
    (∀ i j : nat, (i < j)%nat → names !! i = Some None → (j < 10)%nat →
       names !! j = Some None) ∧
    ((length (filter (λ e, positive (rank_score which e.2)) regions) < 10)%nat →
     None ∈ names ∧
     ∀ n r, (n, r) ∈ regions → positive (rank_score which r) → Some n ∈ names).
Proof.
  intros Hnd Hkeyed.
  destruct (rank_leaders which regions Hnd Hkeyed) as (top & Hrank & Hl).
  exists top.*1. split; [done|]. split; [|split].
  - rewrite length_fmap. apply Hl.
  - intros i j Hij Hi Hj. rewrite list_lookup_fmap in Hi |- *.
    destruct (top !! i) as [[o1 s1]|] eqn:Hi'; [|done].
    simpl in Hi. injection Hi as ->.
    destruct (lookup_lt_is_Some_2 top j) as [[o2 s2] Hj'].
    { by rewrite (leaders_length _ _ Hl). }
    rewrite Hj'. simpl. do 2 f_equal.
    pose proof (StronglySorted_lookup _ _ _ _ _ _ (leaders_sorted _ _ Hl) Hij Hi' Hj')
      as Hle. simpl in Hle.
    apply list_elem_of_lookup_2 in Hi', Hj'.
    destruct (leaders_seen _ _ Hl _ Hi') as [[= ->]|(? & ? & [=] & _)].
    destruct (leaders_seen _ _ Hl _ Hj') as [[= -> ->]|(n & s & [= -> ->] & _ & Hs)];
      [done|].
    by apply Qcle_not_lt in Hle.
  - intros Hfew.
    assert (None ∈ top.*1) as Hslot.
    { destruct (decide (None ∈ top.*1)) as [|Hfull]; [done|exfalso].
      apply length_omap_id in Hfull. rewrite omap_id_fst, length_fmap in Hfull.
      rewrite (leaders_length _ _ Hl) in Hfull.
      assert (omap fst top ⊆+
                (filter (λ e, positive (rank_score which e.2)) regions).*1) as Hsub.
      { apply NoDup_submseteq; [apply Hl|].
        intros n ([o s] & Hin & Ho)%list_elem_of_omap. simpl in Ho. subst o.
        apply (leaders_name _ _ _ _ Hl) in Hin
          as [(r & Hr & Hs)%elem_of_candidates Hpos].
        apply list_elem_of_fmap. exists (n, r). split; [done|].
        apply list_elem_of_filter. split; [|done].
        apply positive_spec. by exists s. }
      apply submseteq_length in Hsub. rewrite length_fmap in Hsub. lia. }
    split; [done|]. intros n r Hr (s & Hs & Hpos)%positive_spec.
    destruct (leaders_highest _ _ Hl n s) as [Hin|Hle]; [|done| |].
    { apply elem_of_candidates. by exists r. }
    { apply elem_of_names. by exists s. }
    apply elem_of_names in Hslot as (x & Hin).
    destruct (leaders_seen _ _ Hl _ Hin) as [[= ->]|(? & ? & [=] & _)].
    apply Hle in Hin. simpl in Hin. by apply Qcle_not_lt in Hin.
Qed.
End RankingClaims.

Lemma scored_region_well_keyed {A : Type} `{PyNum A} (name : string) (score : option A) :
  well_keyed (scored_region name score).
Proof.
  intros sel Hsel. unfold metric_series in Hsel.
  repeat (apply elem_of_cons in Hsel as [->|Hsel]; [apply dom_defualt_dict|]).
  by apply elem_of_nil in Hsel.
Qed.

Lemma top10_ranking_witness :
  ∃ names,
    FinalReport.greatest_help
      [("A", scored_region "A" (Some (qc 1))); ("B", scored_region "B" (Some (qc 3)));
       ("C", scored_region "C" None)] = Ok names ∧
    (∀ n, Some n ∈ names → n = "A" ∨ n = "B") ∧
    NoDup (omap id names).
Proof.
  destruct (top10_ranking ByScore
    [("A", scored_region "A" (Some (qc 1))); ("B", scored_region "B" (Some (qc 3)));
     ("C", scored_region "C" None)]) as (names & Hrank & Hvalid & Hnd & _).
  - apply (bool_decide_unpack _). by vm_compute.
  - intros k r Hin. registry_cases Hin; apply scored_region_well_keyed.
  - exists names. split; [exact Hrank|]. split; [|exact Hnd].
    intros n Hn. destruct (Hvalid n Hn) as (r & s & Hin & Hs & _).
    registry_cases Hin; [by left|by right|discriminate Hs].
Defined.

Lemma top10_always_ten_witness :
  ∃ names,
    FinalReport.largest_co2
      [("A", sample_region "A" [] [] [(2016, qc 4)] [] false);
       ("B", sample_region "B" [] [] [] [] false)] = Ok names ∧
    length names = 10%nat ∧ None ∈ names ∧ Some "A" ∈ names.
Proof.
  destruct (top10_always_ten ByEmissions
    [("A", sample_region "A" [] [] [(2016, qc 4)] [] false);
     ("B", sample_region (A:=Qc) "B" [] [] [] [] false)])
    as (names & Hrank & Hlen & _ & Hfew).
  - apply (bool_decide_unpack _). by vm_compute.
  - intros k r Hin.
    registry_cases Hin; apply sample_region_well_keyed; repeat constructor; simpl; lia.
  - exists names. split; [exact Hrank|]. split; [exact Hlen|].
    destruct Hfew as [Hslot Hall].
    + vm_compute. lia.
    + split; [exact Hslot|].
      apply (Hall "A" (sample_region "A" [] [] [(2016, qc 4)] [] false)); [left|].
      by vm_compute.
Defined.

(** C3.  The code does not do what the claim says.  On a registry in
    which one region has a score, [greatest_help] and [largest_co2], which
    are declared to return a list of strings, return ten entries, nine of
    them the placeholder [None]: with exact numbers and with floats.  Their
    callers then fail: [most_helpful_regions] and
    [most_contributing_regions] raise [TypeError] out of [", ".join], and
    [average_damage_helping_regions] raises [KeyError] out of
    [self.regions[None]], whatever [str] and [round] are. *)
Lemma top10_pads_with_placeholders :
  FinalReport.greatest_help [("A", scored_region "A" (Some (qc 1)))]
    = Ok (Some "A" :: replicate 9 None) ∧
  FinalReport.largest_co2 [("A", sample_region "A" [] [] [(2016, qc 4)] [] false)]
    = Ok (Some "A" :: replicate 9 None) ∧
  FinalReport.greatest_help [("A", scored_region "A" (Some 1%float))]
    = Ok (Some "A" :: replicate 9 None) ∧
  FinalReport.largest_co2
    [("A", sample_region "A" [] [] [(2016, 4%float)] [] false)]
    = Ok (Some "A" :: replicate 9 None) ∧
  FinalReport.most_helpful_regions [("A", scored_region "A" (Some 1%float))]
    = Err TypeError ∧
  FinalReport.most_contributing_regions
    [("A", sample_region "A" [] [] [(2016, 4%float)] [] false)]
    = Err TypeError ∧
  (∀ (str : float → string) (round : float → Z → float),
     FinalReport.average_damage_helping_regions str round
       [("A", scored_region "A" (Some 1%float))] = Err KeyError).
Proof. repeat split; intros; vm_compute; reflexivity. Qed.

(** C4 fails: B has the score 0, A the score -1, C the score 2 and D no
    score.  The highest three are C, B, A in this order, but only C is
    returned: a score that is zero or negative never passes the [0] of the
    empty slots.  With emissions, a region that emits 0 is not returned. *)
Lemma top10_drops_zero_and_negative :
  FinalReport.greatest_help
    [("A", scored_region "A" (Some (qc (-1)))); ("B", scored_region "B" (Some (qc 0)));
     ("C", scored_region "C" (Some (qc 2))); ("D", scored_region "D" None)]
    = Ok (Some "C" :: replicate 9 None) ∧
  FinalReport.greatest_help
    [("A", scored_region "A" (Some (-1)%float)); ("B", scored_region "B" (Some 0%float));
     ("C", scored_region "C" (Some 2%float)); ("D", scored_region "D" None)]
    = Ok (Some "C" :: replicate 9 None) ∧
  FinalReport.largest_co2 [("B", sample_region "B" [] [] [(2016, qc 0)] [] false)]
    = Ok (replicate 10 None).
Proof. repeat split; vm_compute; reflexivity. Qed.

(** * Further properties *)

(** ** Sums and means in exact arithmetic *)

Section ExactSums.
Local Open Scope Qc_scope.
Import Regression.

Lemma sum_of_cons {X : Type} (f : X → Qc) (x : X) (l : list X) :
  sum_of f (x :: l) = f x + sum_of f l.
Proof. done. Qed.

Lemma foldl_sum_of {X : Type} (f : X → Qc) (l : list X) (a : Qc) :
  foldl (λ acc x, acc + f x) a l = a + sum_of f l.
Proof.
  revert a. induction l as [|x l IH]; intros a; cbn [foldl].
  - unfold sum_of; simpl. ring.
  - rewrite IH, sum_of_cons. ring.
Qed.

Lemma Qc_inv_pos (t : Qc) : 0 < t → 0 < / t.
Proof.
  intros Ht. apply Qcnot_le_lt. intros Hinv.
  assert (t ≠ 0) as Hne by (symmetry; by apply Qclt_not_eq).
  apply (Qcmult_le_compat_r _ _ t) in Hinv; [|by apply Qclt_le_weak].
  rewrite Qcmult_comm, Qcmult_inv_r in Hinv by done.
  replace (0 * t) with 0 in Hinv by ring. by apply Qcle_not_lt in Hinv.
Qed.

Lemma Qc_div_le (s s' t : Qc) : 0 < t → s ≤ s' → s / t ≤ s' / t.
Proof.
  intros Ht Hs. unfold Qcdiv. apply Qcmult_le_compat_r; [done|].
  by apply Qclt_le_weak, Qc_inv_pos.
Qed.

Lemma Qc_nonneg_pos (x : Qc) : 0 ≤ x → x ≠ 0 → 0 < x.
Proof.
  intros Hx Hne. apply Qcnot_le_lt. intros Hle. apply Hne. by apply Qcle_antisym.
Qed.

Lemma length_nonzero {X : Type} (l : list X) :
  l ≠ [] → Qc_of_Z (Z.of_nat (length l)) ≠ 0.
Proof. destruct l; [done|]. intros _. apply Qc_of_nat_S_nonzero. Qed.

Lemma length_nonneg {X : Type} (l : list X) : 0 ≤ Qc_of_Z (Z.of_nat (length l)).
Proof. rewrite <-Z2Qc_inj_0, <-Z2Qc_inj_le. lia. Qed.

Lemma mean_mean_of (l : list Qc) : l ≠ [] → mean l = Ok (mean_of id l).
Proof.
  intros Hl. unfold mean, true_div, sum, mean_of.
  cbn [num_is_zero num_quot num_of_nat num_add num_zero Qc_num].
  rewrite bool_decide_false by by apply length_nonzero.
  f_equal. replace (foldl Qcplus 0 l) with (0 + sum_of id l)
    by (symmetry; apply (foldl_sum_of id l 0)).
  f_equal. ring.
Qed.
End ExactSums.

(** ** Lists of different lengths *)


Section LengthMismatch.
Context {A : Type} `{PyNum A}.
Import Regression.

(** The exceptions of [regression.py]. *)
Local Abbreviation raised e :=
  (e ∈ [ZeroDivisionError; IndexError; OverflowError]).



End LengthMismatch.


(** ** Lines of country_names.csv *)

Section CsvLines.

Lemma append_cons (c : ascii) (s t : string) : String c s +:+ t = String c (s +:+ t).
Proof. done. Qed.

Lemma append_nil (t : string) : "" +:+ t = t.
Proof. done. Qed.

Lemma append_comma (t : string) : "," +:+ t = String Str.comma t.
Proof. done. Qed.

Lemma count_app (c : ascii) (s t : string) :
  occurrences c (s +:+ t) = (occurrences c s + occurrences c t)%nat.
Proof.
  induction s as [|c' s IH]; [done|]. rewrite append_cons. cbn [occurrences]. rewrite IH. lia.
Qed.

Lemma length_split (sep : ascii) (s : string) :
  length (Str.split sep s) = S (occurrences sep s).
Proof.
  induction s as [|c s IH]; [done|]. cbn [Str.split occurrences].
  destruct (Ascii.eqb c sep); cbn [length]; [by rewrite IH|].
  destruct (Str.split sep s); simpl in *; lia.
Qed.

Lemma split_field (sep : ascii) (field rest : string) :
  occurrences sep field = 0%nat →
  Str.split sep (field +:+ String sep rest) = field :: Str.split sep rest.
Proof.
  induction field as [|c field IH]; intros Hcount.
  - change ("" +:+ String sep rest) with (String sep rest). cbn [Str.split].
    by rewrite Ascii.eqb_refl.
  - rewrite append_cons. cbn [Str.split]. cbn [occurrences] in Hcount. destruct (Ascii.eqb c sep); [done|].
    by rewrite IH by done.
Qed.

Lemma split_last_field (sep : ascii) (field : string) :
  occurrences sep field = 0%nat → Str.split sep field = [field].
Proof.
  induction field as [|c field IH]; intros Hcount; cbn [Str.split]; [done|].
  cbn [occurrences] in Hcount. destruct (Ascii.eqb c sep); [done|].
  by rewrite IH by done.
Qed.

(** Replacing a one-character string by the empty string removes that
    character. *)
Lemma replace_quote_cons (c : ascii) (s : string) :
  Str.replace Str.quote "" (String c s) =
  if Ascii.eqb quotation_mark c then Str.replace Str.quote "" s
  else String c (Str.replace Str.quote "" s).
Proof.
  unfold Str.replace, Str.quote, quotation_mark. cbn [Str.replace_from String.prefix].
  destruct (ascii_dec _ c) as [<-|Hne].
  - rewrite Ascii.eqb_refl. by destruct s.
  - apply Ascii.eqb_neq in Hne. by rewrite Hne.
Qed.

Lemma replace_quote_app (s t : string) :
  Str.replace Str.quote "" (s +:+ t) =
  Str.replace Str.quote "" s +:+ Str.replace Str.quote "" t.
Proof.
  induction s as [|c s IH]; [done|]. rewrite append_cons.
  rewrite !replace_quote_cons. by destruct (Ascii.eqb _ c); rewrite IH.
Qed.

Lemma replace_quote_plain (s : string) :
  occurrences quotation_mark s = 0%nat → Str.replace Str.quote "" s = s.
Proof.
  induction s as [|c s IH]; [done|]. cbn [occurrences]. rewrite replace_quote_cons.
  rewrite (Ascii.eqb_sym quotation_mark c). destruct (Ascii.eqb c quotation_mark); [intros; simpl in *; lia|].
  intros ?. by rewrite IH.
Qed.

Lemma replace_quote_quote : Str.replace Str.quote "" Str.quote = "".
Proof. done. Qed.

Lemma count_replace_quote (s : string) :
  occurrences Str.comma (Str.replace Str.quote "" s) = occurrences Str.comma s.
Proof.
  induction s as [|c s IH]; [done|]. rewrite replace_quote_cons.
  destruct (Ascii.eqb quotation_mark c) eqn:Hc.
  - apply Ascii.eqb_eq in Hc as <-. by rewrite IH.
  - cbn [occurrences]. by rewrite IH.
Qed.

(** X6. [parse_csv_line] returns the third field as the name and the
    first as the continent; when the third field opens with a quotation
    mark, the name stops at the first comma inside the quotes and the
    quotation mark is removed.  The fields have no comma and no quotation
    mark of their own. *)
Theorem parse_csv_line_fields (continent code name tail rest : string) :
  plain continent → plain code → plain name → plain tail →
  DataSet.parse_csv_line
    (continent +:+ "," +:+ code +:+ "," +:+ name +:+ "," +:+ rest)
    = Ok (name, continent) ∧
  DataSet.parse_csv_line
    (continent +:+ "," +:+ code +:+ "," +:+
     Str.quote +:+ name +:+ "," +:+ tail +:+ Str.quote +:+ "," +:+ rest)
    = Ok (name, continent).
Proof.
  intros [Hc1 Hc2] [Hd1 Hd2] [Hn1 Hn2] [Ht1 Ht2].
  unfold DataSet.parse_csv_line.
  rewrite !replace_quote_app, replace_quote_quote.
  rewrite !(replace_quote_plain continent), !(replace_quote_plain code),
    !(replace_quote_plain name), !(replace_quote_plain tail) by done.
  change (Str.replace Str.quote "" ",") with ",".
  rewrite !append_nil, !append_comma.
  by rewrite !split_field by done.
Qed.

(** X7. [parse_csv_line] returns a pair exactly on the lines that have
    two commas or more; on a line with fewer it raises [IndexError]. *)
Theorem parse_csv_line_defined (line : string) :
  if decide (2 ≤ occurrences Str.comma line)%nat
  then ∃ name continent, DataSet.parse_csv_line line = Ok (name, continent)
  else DataSet.parse_csv_line line = Err IndexError.
Proof.
  unfold DataSet.parse_csv_line.
  pose proof (length_split Str.comma (Str.replace Str.quote "" line)) as Hlen.
  rewrite count_replace_quote in Hlen.
  destruct (Str.split _ _) as [|f0 [|f1 [|f2 fs]]]; simpl in Hlen;
    case_decide; try lia; [done..|].
  by exists f2, f0.
Qed.

End CsvLines.

Lemma parse_csv_line_fields_witness :
  DataSet.parse_csv_line ("Europe" +:+ "," +:+ "EU" +:+ "," +:+ "Albania" +:+ "," +:+ "AL,ALB,8")
    = Ok ("Albania", "Europe") ∧
  DataSet.parse_csv_line
    ("Europe" +:+ "," +:+ "EU" +:+ "," +:+
     Str.quote +:+ "Albania" +:+ "," +:+ " Republic of" +:+ Str.quote +:+ "," +:+ "AL,ALB,8")
    = Ok ("Albania", "Europe").
Proof. apply parse_csv_line_fields; split; reflexivity. Defined.


(** ** The JSON records *)

Section JsonRecords.
Context {A : Type}.

(** X9. The loop over the JSON records of a region, which population, GDP
    and CO2 share: a year outside 1951..2016 keeps its entry; a year inside
    gets the value of the key in the last record of that year that has the
    key, and keeps its entry when no record has it. *)
Theorem merge_lines_last_record (key : string) (data : list (json_line A))
    (series : gmap Z (option A)) (year : Z) :
  DataSet.merge_lines key data series !! year =
    if DataSet.in_window year then
      match last (records_for key year data) with
      | Some line => line_keys line !! key
      | None => series !! year
      end
    else series !! year.
Proof.
  induction data as [|line data IH] using rev_ind.
  - by destruct (DataSet.in_window year).
  - unfold DataSet.merge_lines, records_for in *.
    rewrite foldl_app, filter_app, filter_cons, filter_nil. cbn [foldl].
    destruct (DataSet.in_window (line_year line)) eqn:Hline.
    + destruct (line_keys line !! key) as [v|] eqn:Hkey.
      * destruct (decide (line_year line = year)) as [<-|Hne].
        -- rewrite lookup_insert_eq, Hline.
           rewrite decide_True by (split; [done|by eexists]).
           by rewrite last_snoc.
        -- rewrite lookup_insert_ne by done. rewrite IH.
           rewrite decide_False by (by intros [? _]). by rewrite app_nil_r.
      * rewrite IH. rewrite decide_False; [by rewrite app_nil_r|].
        by intros [_ [? ?]].
    + rewrite IH. destruct (decide (line_year line = year)) as [<-|Hne].
      * by rewrite Hline.
      * rewrite decide_False by (by intros [? _]). by rewrite app_nil_r.
Qed.
End JsonRecords.

(** ** The carbon-tax flag *)

Section CarbonTax.
Context {A : Type} `{PyNum A}.
Implicit Types regions : list (string * Region A).

(** An assignment to an attribute of [d[k]] is a map over the entries. *)
Lemma Dict_update_fmap {V : Type} (d : list (string * V)) (k : string) (f : V → V) :
  NoDup (Dict.keys d) → k ∈ Dict.keys d →
  ∃ v, Dict.get d k = Ok v ∧
       Dict.set k (f v) d = (λ e, if decide (e.1 = k) then (e.1, f e.2) else e) <$> d.
Proof.
  unfold Dict.get, Dict.keys.
  induction d as [|[k' v'] d IH]; intros Hnodup Hk; [by apply elem_of_nil in Hk|].
  rewrite fmap_cons in Hnodup, Hk. apply NoDup_cons in Hnodup as [Hk' Hnodup].
  cbn [Dict.find Dict.set fmap list_fmap fst snd]. destruct (decide (k' = k)) as [->|Hne].
  - exists v'. split; [done|]. f_equal.
    symmetry. etrans; [|apply list_fmap_id]. apply list_fmap_ext.
    intros i [k1 v1] Hi. cbn [fst]. rewrite decide_False; [done|].
    intros ->. apply Hk'. apply list_elem_of_fmap. exists (k, v1).
    split; [done|]. by eapply list_elem_of_lookup_2.
  - apply elem_of_cons in Hk as [->|Hk]; [done|].
    destruct (IH Hnodup Hk) as (v & Hv & Hset). exists v. split; [done|].
    by rewrite Hset.
Qed.

Lemma carbon_tax_loop (countries : list string) regions :
  NoDup (Dict.keys regions) →
  for_each (λ regions country,
      region ← Dict.get regions country;
      Ok (Dict.set country (set_has_carbon_tax true region) regions))
    countries regions =
  if decide (countries ⊆ Dict.keys regions)
  then Ok ((λ e, (e.1, if bool_decide (e.1 ∈ countries)
                       then set_has_carbon_tax true e.2 else e.2)) <$> regions)
  else Err KeyError.
Proof.
  revert regions. induction countries as [|c countries IH]; intros regions Hnodup.
  - rewrite decide_True by apply list_subseteq_nil. cbn [for_each]. f_equal.
    symmetry. etrans; [|apply list_fmap_id]. apply list_fmap_ext.
    intros i [k r] _. cbn [fst snd]. rewrite bool_decide_false; [done|].
    apply not_elem_of_nil.
  - cbn [for_each]. destruct (decide (c ∈ Dict.keys regions)) as [Hc|Hc].
    + destruct (Dict_update_fmap regions c (set_has_carbon_tax true) Hnodup Hc)
        as (r & Hget & Hset). rewrite Hget. cbn [mbind result_bind]. rewrite Hset.
      set (regions1 := _ <$> regions).
      assert (Dict.keys regions1 = Dict.keys regions) as Hkeys.
      { unfold regions1, Dict.keys. rewrite <-list_fmap_compose.
        apply list_fmap_ext. intros i [k r'] _. cbn. by case_decide. }
      rewrite IH by by rewrite Hkeys. rewrite Hkeys.
      destruct (decide (countries ⊆ Dict.keys regions)) as [Hsub|Hsub].
      * rewrite decide_True.
        2:{ intros c' [->|?]%elem_of_cons; [done|by apply Hsub]. }
        f_equal. unfold regions1. rewrite <-list_fmap_compose.
        apply list_fmap_ext. intros i [k r'] _. cbn [compose fst snd].
        destruct (decide (k = c)) as [->|Hne]; cbn [fst snd].
        -- rewrite (bool_decide_true (c ∈ c :: countries)) by left.
           by case_bool_decide.
        -- f_equal. apply (f_equal (λ b : bool, if b then _ else _)).
           apply bool_decide_ext. rewrite elem_of_cons.
           split; [by right|by intros [?|?]].
      * rewrite decide_False; [done|].
        intros Hsub'. apply Hsub. intros c' Hc'. apply Hsub'. by right.
    + assert (Dict.get regions c = Err KeyError) as ->.
      { unfold Dict.get. by rewrite (proj2 (Dict_find_None regions c)). }
      cbn [mbind result_bind]. rewrite decide_False; [done|].
      intros Hsub. apply Hc, Hsub. left.
Qed.

(** X11. On a registry without repeated names, [initialise_carbon_tax]
    returns the registry with the flag set for the listed countries and
    everything else as it was when every listed country is registered, and
    raises [KeyError] when one is missing. *)
Theorem initialise_carbon_tax_result regions :
  NoDup (Dict.keys regions) →
  DataSet.initialise_carbon_tax regions =
    if decide (COUNTRIES_WITH_CARBON_TAX ⊆ Dict.keys regions)
    then Ok (with_carbon_tax regions)
    else Err KeyError.
Proof. apply carbon_tax_loop. Qed.
End CarbonTax.

(** ** What a pass leaves alone *)

Section PassFrames.
Context {A : Type} `{PyNum A}.
Variable float : string → option A.
Variable int : string → option Z.
Implicit Types regions : list (string * Region A).

Lemma with_attribute_refl (a : attribute) (r : Region A) : r = with_attribute a r r.
Proof. by destruct a, r. Qed.

Lemma differ_in_refl (a : attribute) regions : differ_in a regions regions.
Proof.
  apply Forall2_same_length_lookup_2; [done|].
  intros i e e' He He'. assert (e = e') as <- by congruence.
  split; [done|apply with_attribute_refl].
Qed.

(** An assignment to the attribute of a region that was looked up. *)
Lemma differ_in_update (a : attribute) regions0 regions (k : string) (r r' : Region A) :
  differ_in a regions0 regions → Dict.get regions k = Ok r →
  r' = with_attribute a r r' →
  differ_in a regions0 (Dict.set k r' regions).
Proof.
  unfold differ_in, Dict.get. intros Hall. revert k r r'.
  induction Hall as [|[k0 r0] [k1 r1] regions0 regions [Hk Hr] Hall IH];
    intros k r r' Hget Hr'; [done|].
  cbn [fst snd] in *. subst k1. cbn [Dict.find Dict.set] in *.
  destruct (decide (k0 = k)) as [->|Hne].
  - injection Hget as <-. constructor; [|done]. split; [done|]. cbn [fst snd].
    rewrite Hr'. rewrite Hr. by destruct a, r0, r1, r'.
  - constructor; [done|]. by eapply IH.
Qed.

Lemma for_regions_differ_in (a : attribute) body regions regions' :
  (∀ k r r', body k r = Ok r' → r' = with_attribute a r r') →
  DataSet.for_regions body regions = Ok regions' → differ_in a regions regions'.
Proof.
  intros Hbody Hfor%for_regions_Ok. eapply Forall2_impl; [exact Hfor|].
  intros [k r] [k' r'] [Hk Hr]. split; [done|]. by eapply Hbody.
Qed.

Lemma for_each_differ_in {X : Type} (a : attribute)
    (body : list (string * Region A) → X → result (list (string * Region A)))
    (xs : list X) regions regions' :
  (∀ regs x regs', differ_in a regions regs → body regs x = Ok regs' →
     differ_in a regions regs') →
  for_each body xs regions = Ok regions' → differ_in a regions regions'.
Proof.
  intros Hbody Hloop.
  eapply (for_each_invariant (differ_in a regions)); [|apply differ_in_refl|exact Hloop].
  intros regs x regs' _ Hregs Hx. by eapply Hbody.
Qed.

Lemma set_population_written d (r : Region A) :
  set_population d r = with_attribute Attr_population r (set_population d r).
Proof. by destruct r. Qed.
Lemma set_co2_emissions_written d (r : Region A) :
  set_co2_emissions d r = with_attribute Attr_co2_emissions r (set_co2_emissions d r).
Proof. by destruct r. Qed.
Lemma set_gdp_written d (r : Region A) :
  set_gdp d r = with_attribute Attr_gdp r (set_gdp d r).
Proof. by destruct r. Qed.

Lemma initialise_co2_emissions_differ data_set regions regions' :
  DataSet.initialise_co2_emissions data_set regions = Ok regions' →
  differ_in Attr_co2_emissions regions regions'.
Proof.
  apply for_regions_differ_in. intros k r r'.
  destruct (data_set !! k); intros [= <-];
    [apply set_co2_emissions_written|apply with_attribute_refl].
Qed.

Lemma initialise_gdp_differ data_set regions regions' :
  DataSet.initialise_gdp data_set regions = Ok regions' →
  differ_in Attr_gdp regions regions'.
Proof.
  apply for_regions_differ_in. intros k r r'.
  destruct (data_set !! k); intros [= <-];
    [apply set_gdp_written|apply with_attribute_refl].
Qed.

Lemma initialise_population_differ data_set regions regions' :
  DataSet.initialise_population data_set regions = Ok regions' →
  differ_in Attr_population regions regions'.
Proof.
  apply for_regions_differ_in. intros k r r'.
  destruct (data_set !! k); intros [= <-];
    [apply set_population_written|apply with_attribute_refl].
Qed.

Lemma initialise_gdp_per_capita_differ regions regions' :
  DataSet.initialise_gdp_per_capita regions = Ok regions' →
  differ_in Attr_gdp_per_capita regions regions'.
Proof.
  apply for_regions_differ_in. intros k r r' (d & _ & [= <-])%bind_Ok. by destruct r.
Qed.

Lemma initialise_co2_emissions_per_capita_differ regions regions' :
  DataSet.initialise_co2_emissions_per_capita regions = Ok regions' →
  differ_in Attr_co2_emissions_per_capita regions regions'.
Proof.
  apply for_regions_differ_in. intros k r r' (d & _ & [= <-])%bind_Ok. by destruct r.
Qed.

Lemma initialise_renewables_per_capita_differ regions regions' :
  DataSet.initialise_renewables_per_capita regions = Ok regions' →
  differ_in Attr_renewable_energy_per_capita regions regions'.
Proof.
  apply for_regions_differ_in. intros k r r' (d & _ & [= <-])%bind_Ok. by destruct r.
Qed.

Lemma initialise_region_score_differ regions regions' :
  DataSet.initialise_region_score regions = Ok regions' →
  differ_in Attr_region_score regions regions'.
Proof.
  apply for_regions_differ_in.
  intros k r r' (renewable & _ & (emission & _ & Hr)%bind_Ok)%bind_Ok.
  destruct renewable as [renewable|], emission as [emission|];
    try (injection Hr as <-; apply with_attribute_refl).
  apply bind_Ok in Hr as (score & _ & [= <-]). by destruct r.
Qed.

Lemma energy_production_differ (data : list string) regions regions' :
  DataSet.energy_production float data regions = Ok regions' →
  differ_in Attr_renewable_energy regions regions'.
Proof.
  unfold DataSet.energy_production. apply for_each_differ_in.
  intros regs line regs' Hregs (region & _ & Hrest)%bind_Ok.
  destruct (negb _); [by injection Hrest as <-|].
  eapply (for_each_invariant (differ_in Attr_renewable_energy regions));
    [|exact Hregs|exact Hrest].
  intros regs0 i regs1 _ Hregs0 (cell & _ & Hcell)%bind_Ok.
  destruct (String.eqb _ _); [by injection Hcell as <-|].
  apply bind_Ok in Hcell as (v & _ & (r & Hr & [= <-])%bind_Ok).
  eapply differ_in_update; [done..|]. by destruct r.
Qed.

Lemma initialise_carbon_tax_differ regions regions' :
  DataSet.initialise_carbon_tax regions = Ok regions' →
  differ_in Attr_has_carbon_tax regions regions'.
Proof.
  unfold DataSet.initialise_carbon_tax. apply for_each_differ_in.
  intros regs country regs' Hregs (r & Hr & [= <-])%bind_Ok.
  eapply differ_in_update; [done..|]. by destruct r.
Qed.

Lemma store_damage_differ regions (key : string) (line : list string) regs regs' :
  differ_in Attr_projected_damage regions regs →
  DataSet.store_damage float key line regs = Ok regs' →
  differ_in Attr_projected_damage regions regs'.
Proof.
  intros Hregs (l & _ & (v & _ & (r & Hr & [= <-])%bind_Ok)%bind_Ok)%bind_Ok.
  eapply differ_in_update; [done..|]. by destruct r.
Qed.

Lemma initialise_projected_damage_differ (data : list string) regions regions' :
  DataSet.initialise_projected_damage float data regions = Ok regions' →
  differ_in Attr_projected_damage regions regions'.
Proof.
  unfold DataSet.initialise_projected_damage. apply for_each_differ_in.
  intros regs line regs' Hregs (l0 & _ & Hrest)%bind_Ok.
  destruct (Dict.mem l0 regs).
  - apply bind_Ok in Hrest as (line' & _ & (l0' & _ & Hstore)%bind_Ok).
    by eapply store_damage_differ.
  - destruct (String.eqb _ _); [|by injection Hrest as <-].
    apply bind_Ok in Hrest as (line' & _ & Hstore).
    by eapply store_damage_differ.
Qed.

Lemma store_concerned_differ regions (key : string) (line : list string) regs regs' :
  differ_in Attr_percentage_concerned regions regs →
  DataSet.store_concerned int key line regs = Ok regs' →
  differ_in Attr_percentage_concerned regions regs'.
Proof.
  intros Hregs (l & _ & (v & _ & (r & Hr & [= <-])%bind_Ok)%bind_Ok)%bind_Ok.
  eapply differ_in_update; [done..|]. by destruct r.
Qed.

Lemma initialise_climate_opinion_differ (data : list string) regions regions' :
  DataSet.initialise_climate_opinion int data regions = Ok regions' →
  differ_in Attr_percentage_concerned regions regions'.
Proof.
  unfold DataSet.initialise_climate_opinion. apply for_each_differ_in.
  intros regs line regs' Hregs (l0 & _ & Hrest)%bind_Ok.
  destruct (Dict.mem l0 regs); [by eapply store_concerned_differ|].
  destruct (String.eqb _ _); [by eapply store_concerned_differ|].
  destruct (String.eqb _ _); [by eapply store_concerned_differ|].
  by injection Hrest as <-.
Qed.

(** X13. Each of the eleven passes that [__init__] runs on the registry,
    when it returns, has kept the names and their order, and has changed in
    each region at most the one attribute that belongs to the pass. *)
Theorem passes_assign_one_attribute (f : files A) (i : nat) pass (a : attribute)
    regions regions' :
  DataSet.passes float int f !! i = Some pass → pass_attribute !! i = Some a →
  pass regions = Ok regions' →
  differ_in a regions regions'.
Proof.
  intros Hpass Ha.
  do 11 (destruct i as [|i];
    [injection Hpass as <-; injection Ha as <-;
     eauto using initialise_co2_emissions_differ, initialise_gdp_differ,
       initialise_population_differ, initialise_gdp_per_capita_differ,
       initialise_co2_emissions_per_capita_differ,
       initialise_renewables_per_capita_differ, initialise_region_score_differ,
       energy_production_differ, initialise_carbon_tax_differ,
       initialise_projected_damage_differ, initialise_climate_opinion_differ|]).
  done.
Qed.

End PassFrames.

Lemma initialise_carbon_tax_result_witness :
  DataSet.initialise_carbon_tax sample_taxed =
    if decide (COUNTRIES_WITH_CARBON_TAX ⊆ Dict.keys sample_taxed)
    then Ok (with_carbon_tax sample_taxed)
    else Err KeyError.
Proof.
  apply initialise_carbon_tax_result.
  apply (bool_decide_unpack _). vm_compute. reflexivity.
Defined.

Lemma passes_assign_one_attribute_witness :
  differ_in Attr_population
    [("France", new_Region "France" "Europe")]
    [("France", set_population (<[2000 := Some 3%float]> defualt_dict)
                  (new_Region "France" "Europe"))].
Proof.
  apply (passes_assign_one_attribute (λ _, None) (λ _, None)
           (mk_files [] {[ "France" := [mk_line 2000 {[ "population" := Some 3%float ]}] ]}
              [] [] [])
           3 (DataSet.initialise_population
                {[ "France" := [mk_line 2000 {[ "population" := Some 3%float ]}] ]}));
    reflexivity.
Defined.

(** ** The years of the IRENA file *)

Section EnergyYears.
Context {A : Type} `{PyNum A}.
Variable float : string → option A.
Implicit Types regions : list (string * Region A).

(** A relation between the regions of two registries that an assignment
    to a region that was looked up keeps. *)
Lemma Dict_update_Forall2 {V : Type} (Q : V → V → Prop) (d0 d : list (string * V))
    (k : string) (v v' : V) :
  Forall2 (λ e e', e'.1 = e.1 ∧ Q e.2 e'.2) d0 d →
  Dict.get d k = Ok v → (∀ v0, Q v0 v → Q v0 v') →
  Forall2 (λ e e', e'.1 = e.1 ∧ Q e.2 e'.2) d0 (Dict.set k v' d).
Proof.
  unfold Dict.get. intros Hall. revert k v v'.
  induction Hall as [|[k0 v0] [k1 v1] d0 d [Hk Hv] Hall IH];
    intros k v v' Hget Hstep; [done|].
  cbn [fst snd] in *. subst k1. cbn [Dict.find Dict.set] in *.
  destruct (decide (k0 = k)) as [->|Hne].
  - injection Hget as <-. constructor; [|done]. split; [done|]. by apply Hstep.
  - constructor; [done|]. by eapply IH.
Qed.

(** X10. When [energy_production] returns, the registry has the names it
    had, in the same order, and no region's renewable-energy series has
    changed at a year outside 2000..2016. *)
Theorem energy_production_years (data : list string) regions regions' :
  DataSet.energy_production float data regions = Ok regions' →
  Forall2 (λ e e', e'.1 = e.1 ∧
      ∀ year, ¬ (2000 ≤ year ≤ 2016) →
        renewable_energy e'.2 !! year = renewable_energy e.2 !! year)
    regions regions'.
Proof.
  set (Q := λ r r' : Region A, ∀ year, ¬ (2000 ≤ year ≤ 2016) →
    renewable_energy r' !! year = renewable_energy r !! year).
  set (R := λ regs, Forall2 (λ e e' : string * Region A, e'.1 = e.1 ∧ Q e.2 e'.2)
    regions regs).
  unfold DataSet.energy_production. intros Hloop.
  eapply (for_each_invariant R); [| |exact Hloop].
  2:{ apply Forall2_same_length_lookup_2; [done|].
      intros i e e' He He'. assert (e = e') as <- by congruence. by split. }
  intros regs line regs' _ Hregs (region & _ & Hrest)%bind_Ok.
  destruct (negb _); [by injection Hrest as <-|].
  eapply (for_each_invariant R); [|exact Hregs|exact Hrest].
  intros regs0 i regs1 Hi Hregs0 (cell & _ & Hcell)%bind_Ok.
  destruct (String.eqb _ _); [by injection Hcell as <-|].
  apply bind_Ok in Hcell as (v & _ & (r & Hr & [= <-])%bind_Ok).
  eapply (Dict_update_Forall2 Q); [exact Hregs0|exact Hr|].
  intros r0 Hr0 year Hyear. cbn. rewrite lookup_insert_ne; [by apply Hr0|].
  apply elem_of_seq in Hi. lia.
Qed.
End EnergyYears.

Lemma energy_production_years_witness :
  Forall2 (λ e e' : string * Region Qc, e'.1 = e.1 ∧
      ∀ year, ¬ (2000 ≤ year ≤ 2016) →
        renewable_energy e'.2 !! year = renewable_energy e.2 !! year)
    [("United States", new_Region "United States" "North America")]
    [("United States",
      set_renewable_energy
        (<[2016 := Some (Qc_of_Z 7)]> (<[2000 := Some (Qc_of_Z 5)]> defualt_dict))
        (new_Region "United States" "North America"))].
Proof.
  apply (energy_production_years sample_float sample_IRENA). reflexivity.
Defined.

(** ** plots.py *)

Section CleanData.
Context {A : Type} `{PyNum A}.

Lemma clean_time_data_loop (x_values y_values : gmap Z (option A)) (years : list Z)
    (xs ys : list A) :
  (∀ year, year ∈ years → is_Some (x_values !! year) ∧ is_Some (y_values !! year)) →
  for_each (λ '(cleaned_x_values, cleaned_y_values) year,
      x ← dict_get x_values year;
      match x with
      | None => Ok (cleaned_x_values, cleaned_y_values)
      | Some x =>
          y ← dict_get y_values year;
          match y with
          | None => Ok (cleaned_x_values, cleaned_y_values)
          | Some y => Ok (cleaned_x_values ++ [x], cleaned_y_values ++ [y])
          end
      end)
    years (xs, ys) =
  let pts := omap (λ year,
      match default None (x_values !! year), default None (y_values !! year) with
      | Some x, Some y => Some (x, y)
      | _, _ => None
      end) years in
  Ok (xs ++ pts.*1, ys ++ pts.*2).
Proof.
  revert xs ys. induction years as [|year years IH]; intros xs ys Hkeys.
  - cbn. by rewrite !app_nil_r.
  - destruct (Hkeys year) as [[x Hx] [y Hy]]; [left|].
    apply dict_get_Ok in Hx as Hx'. apply dict_get_Ok in Hy as Hy'.
    cbn [for_each omap list_omap]. rewrite Hx, Hy, Hx'.
    cbn [mbind result_bind default].
    destruct x as [x|]; [rewrite Hy'; destruct y as [y|]|]; cbn [mbind result_bind];
      rewrite IH by (intros; apply Hkeys; by right); cbn zeta;
      [|done..].
    cbn [fmap list_fmap fst snd]. by rewrite <-!(assoc_L (++)).
Qed.

(** The cleaned lists of two series that are defined on the window. *)
Lemma clean_time_data_paired (x_values y_values : gmap Z (option A)) :
  (∀ year, year ∈ window → is_Some (x_values !! year) ∧ is_Some (y_values !! year)) →
  Plots.clean_time_data x_values y_values =
    Ok ((paired x_values y_values).*1, (paired x_values y_values).*2).
Proof.
  intros Hkeys. unfold Plots.clean_time_data.
  by rewrite clean_time_data_loop by done.
Qed.

(** X21. When both series have an entry for every year of 1951..2016,
    [clean_time_data] returns the values of the years in which both have a
    value, in the order of the years; when the first series lacks a year of
    the window, it raises [KeyError]. *)
Theorem clean_time_data_points (x_values y_values : gmap Z (option A)) :
  ((∀ year, year ∈ window → is_Some (x_values !! year) ∧ is_Some (y_values !! year)) →
   Plots.clean_time_data x_values y_values =
     Ok ((paired x_values y_values).*1, (paired x_values y_values).*2)) ∧
  ((∃ year, year ∈ window ∧ x_values !! year = None) →
   Plots.clean_time_data x_values y_values = Err KeyError).
Proof.
  split; [apply clean_time_data_paired|].
  intros (year & Hyear & Hx). unfold Plots.clean_time_data.
  apply for_each_Err.
  - intros [xs ys] y _. unfold dict_get.
    destruct (x_values !! y) as [[x|]|]; cbn [mbind result_bind]; [|by eauto|by right].
    destruct (y_values !! y) as [[?|]|]; cbn [mbind result_bind]; by eauto.
  - exists year. split; [done|]. intros [xs ys]. unfold dict_get. by rewrite Hx.
Qed.
End CleanData.

Section AllRegions.
Context {A : Type} `{PyNum A}.

Lemma final_over_all_regions_loop (x_var y_var : Region A → gmap Z (option A))
    (regions : list (string * Region A)) (xs ys : list A) :
  (∀ k r, (k, r) ∈ regions → is_Some (x_var r !! 2016) ∧ is_Some (y_var r !! 2016)) →
  for_each (λ '(x_values, y_values) '(region, r),
      x_val ← dict_get (x_var r) 2016;
      y_val ← dict_get (y_var r) 2016;
      match x_val, y_val with
      | Some x_val, Some y_val => Ok (x_values ++ [x_val], y_values ++ [y_val])
      | _, _ => Ok (x_values, y_values)
      end)
    regions (xs, ys) =
  Ok (xs ++ (paired_2016 x_var y_var regions).*1,
      ys ++ (paired_2016 x_var y_var regions).*2).
Proof.
  revert xs ys. induction regions as [|[k r] regions IH]; intros xs ys Hkeys.
  - cbn. by rewrite !app_nil_r.
  - destruct (Hkeys k r) as [[x Hx] [y Hy]]; [left|].
    apply dict_get_Ok in Hx as Hx'. apply dict_get_Ok in Hy as Hy'.
    unfold paired_2016. cbn [for_each omap list_omap fst snd].
    rewrite Hx, Hy, Hx', Hy'. cbn [mbind result_bind default].
    fold (paired_2016 x_var y_var regions).
    destruct x as [x|]; [destruct y as [y|]|]; cbn [mbind result_bind];
      rewrite IH by (intros; eapply Hkeys; by right); [|done..].
    cbn [fmap list_fmap fst snd]. by rewrite <-!(assoc_L (++)).
Qed.

Lemma final_over_all_regions_points (x_var y_var : Region A → gmap Z (option A))
    (regions : list (string * Region A)) :
  (∀ k r, (k, r) ∈ regions → is_Some (x_var r !! 2016) ∧ is_Some (y_var r !! 2016)) →
  Plots.final_over_all_regions regions x_var y_var =
    Ok ((paired_2016 x_var y_var regions).*1, (paired_2016 x_var y_var regions).*2).
Proof.
  intros Hkeys. unfold Plots.final_over_all_regions.
  by rewrite final_over_all_regions_loop.
Qed.
End AllRegions.

Section PlotsPoints.
Context {A : Type} `{PyNum A}.

Lemma fst_tagged {T U : Type} (f : T → U) (l : list T) :
  ((λ x, (x, f x)) <$> l).*1 = l.
Proof. induction l; simpl; by f_equal. Qed.

Lemma lookup_years (year : Z) :
  year ∈ window →
  Plots.years (A:=A) !! year = Some (Some (num_of_nat (Z.to_nat year))).
Proof.
  intros Hyear. unfold Plots.years. apply elem_of_list_to_map_1.
  - rewrite fst_tagged. apply NoDup_seqZ.
  - apply list_elem_of_fmap. by exists year.
Qed.

Lemma paired_years (series : gmap Z (option A)) :
  paired Plots.years series = dated series.
Proof.
  unfold paired, dated.
  assert (∀ year, year ∈ window → year ∈ window) as Hwin by done. revert Hwin.
  generalize window at 1 3 4. intros years Hwin.
  induction years as [|year years IH]; [done|]. cbn [omap list_omap].
  rewrite lookup_years by (apply Hwin; left). cbn [default id].
  rewrite IH by (intros; apply Hwin; by right).
  by destruct (default None (series !! year)).
Qed.

(** What a plot displays: nothing when there are no points, and otherwise
    the fit of the points. *)
Lemma plot_of_points (pts : list (A * A)) :
  (if Plots.both_nonempty pts.*1 pts.*2
   then fit ← Plots.linear_plot pts.*1 pts.*2; Ok (Some fit)
   else Ok None) =
  match pts with
  | [] => Ok None
  | _ :: _ => fit ← Plots.linear_plot pts.*1 pts.*2; Ok (Some fit)
  end.
Proof. by destruct pts. Qed.

(** X22. For every number type.  [in_region_over_time] raises [KeyError]
    when the series lacks a year of the window; when the series has an
    entry for every year, it displays nothing if no year has a value, and
    otherwise plots the fit of the points (year, value) of the years that
    have a value, in the order of the years. *)
Theorem in_region_over_time_cases (region : Region A)
    (y_var : Region A → gmap Z (option A)) :
  ((∃ year, year ∈ window ∧ y_var region !! year = None) →
   Plots.in_region_over_time region y_var = Err KeyError) ∧
  ((∀ year, year ∈ window → is_Some (y_var region !! year)) →
   Plots.in_region_over_time region y_var =
     match dated (y_var region) with
     | [] => Ok None
     | _ :: _ =>
         fit ← Plots.linear_plot (dated (y_var region)).*1 (dated (y_var region)).*2;
         Ok (Some fit)
     end).
Proof.
  unfold Plots.in_region_over_time. cbn zeta. split.
  - intros (year & Hyear & Hy).
    assert (Plots.clean_time_data Plots.years (y_var region) = Err KeyError) as ->;
      [|done].
    unfold Plots.clean_time_data. apply for_each_Err.
    + intros [xs ys] y _. unfold dict_get.
      destruct (Plots.years !! y) as [[x|]|]; cbn [mbind result_bind];
        [|by eauto|by right].
      destruct (y_var region !! y) as [[?|]|]; cbn [mbind result_bind]; by eauto.
    + exists year. split; [done|]. intros [xs ys]. unfold dict_get.
      rewrite lookup_years by done. cbn [mbind result_bind]. by rewrite Hy.
  - intros Hkeys. rewrite clean_time_data_paired.
    2:{ intros year Hyear. split; [by rewrite lookup_years|by apply Hkeys]. }
    cbn [mbind result_bind]. rewrite plot_of_points. by rewrite paired_years.
Qed.

(** X23. For every number type, when both series have an entry for every
    year of the window: [in_region] displays nothing if no year has both
    values, and otherwise plots the fit of the pairs of values of the years
    that have both, in the order of the years. *)
Theorem in_region_cases (region : Region A)
    (x_var y_var : Region A → gmap Z (option A)) :
  (∀ year, year ∈ window →
     is_Some (x_var region !! year) ∧ is_Some (y_var region !! year)) →
  Plots.in_region region x_var y_var =
    match paired (x_var region) (y_var region) with
    | [] => Ok None
    | _ :: _ =>
        fit ← Plots.linear_plot (paired (x_var region) (y_var region)).*1
                (paired (x_var region) (y_var region)).*2;
        Ok (Some fit)
    end.
Proof.
  intros Hkeys. unfold Plots.in_region. cbn zeta.
  rewrite clean_time_data_paired by done. cbn [mbind result_bind].
  apply plot_of_points.
Qed.

(** X26. For every number type.  [all_regions] raises [KeyError] when a
    region lacks the year 2016 in one of the two series.  Otherwise its
    numbers are the fit of the pairs of values of 2016 of the regions that
    have both, in the order of the registry; it has no test for an empty
    list, so that it raises [ZeroDivisionError] when no region has both
    values (the length [0] being a number that is zero). *)
Theorem all_regions_cases (regions : list (string * Region A))
    (x_var y_var : Region A → gmap Z (option A)) :
  ((∃ k r, (k, r) ∈ regions ∧ (x_var r !! 2016 = None ∨ y_var r !! 2016 = None)) →
   Plots.all_regions regions x_var y_var = Err KeyError) ∧
  ((∀ k r, (k, r) ∈ regions → is_Some (x_var r !! 2016) ∧ is_Some (y_var r !! 2016)) →
   Plots.all_regions regions x_var y_var =
     Plots.linear_plot (paired_2016 x_var y_var regions).*1
       (paired_2016 x_var y_var regions).*2 ∧
   (num_is_zero (num_of_nat 0) = true → paired_2016 x_var y_var regions = [] →
    Plots.all_regions regions x_var y_var = Err ZeroDivisionError)).
Proof.
  unfold Plots.all_regions. split.
  - intros (k & r & Hin & Hmissing).
    assert (Plots.final_over_all_regions regions x_var y_var = Err KeyError) as ->;
      [|done].
    unfold Plots.final_over_all_regions. apply for_each_Err.
    + intros [xs ys] [k' r'] _. unfold dict_get.
      destruct (x_var r' !! 2016) as [x|]; cbn [mbind result_bind]; [|by right].
      destruct (y_var r' !! 2016) as [y|]; cbn [mbind result_bind]; [|by right].
      left. destruct x, y; by eauto.
    + exists (k, r). split; [done|]. intros [xs ys]. unfold dict_get.
      destruct Hmissing as [-> | ->]; [done|]. by destruct (x_var r !! 2016).
  - intros Hkeys. rewrite final_over_all_regions_points by done.
    cbn [mbind result_bind]. split; [done|]. intros Hzero ->.
    unfold Plots.linear_plot, Regression.linear_regression, Regression.mean, true_div.
    cbn [fmap list_fmap length]. by rewrite Hzero.
Qed.
End PlotsPoints.

Section Averages.
Local Open Scope Qc_scope.
Import Regression.

Lemma average_inner_loop {A : Type} `{PyNum A} (var : Region A → gmap Z (option A))
    (year : Z) (regions : list (string * Region A)) (total : A) (amount : nat) :
  (∀ k r, (k, r) ∈ regions → is_Some (var r !! year)) →
  for_each (λ '(total, amount) '(region, r),
      val ← dict_get (var r) year;
      match val with
      | Some val => Ok (num_add total val, S amount)
      | None => Ok (total, amount)
      end)
    regions (total, amount) =
  Ok (foldl num_add total (values_in var year regions),
      (amount + length (values_in var year regions))%nat).
Proof.
  revert total amount. induction regions as [|[k r] regions IH]; intros total amount Hkeys.
  - cbn. by rewrite Nat.add_0_r.
  - destruct (Hkeys k r) as [v Hv]; [left|]. apply dict_get_Ok in Hv as Hv'.
    unfold values_in. cbn [for_each omap list_omap fst snd]. rewrite Hv, Hv'.
    cbn [mbind result_bind default]. fold (values_in var year regions).
    destruct v as [v|]; cbn [mbind result_bind];
      rewrite IH by (intros; eapply Hkeys; by right); [|done].
    cbn [id foldl length]. by rewrite Nat.add_succ_r.
Qed.

Lemma foldl_insert_lookup {V : Type} (f : Z → V) (years : list Z) (m : gmap Z V)
    (year : Z) :
  foldl (λ m year, <[year := f year]> m) m years !! year =
    if decide (year ∈ years) then Some (f year) else m !! year.
Proof.
  revert m. induction years as [|y years IH]; intros m; cbn [foldl].
  - rewrite decide_False; [done|apply not_elem_of_nil].
  - rewrite IH. destruct (decide (year ∈ years)) as [Hin|Hin].
    + rewrite decide_True; [done|by right].
    + destruct (decide (year = y)) as [->|Hne].
      * rewrite decide_True by left. by rewrite lookup_insert_eq.
      * rewrite decide_False by (by intros [?|?]%elem_of_cons).
        by rewrite lookup_insert_ne.
Qed.

Lemma foldl_insert_dom {V : Type} (f : Z → V) (years : list Z) (m : gmap Z V) :
  dom (foldl (λ m year, <[year := f year]> m) m years) = dom m ∪ list_to_set years.
Proof.
  revert m. induction years as [|y years IH]; intros m; cbn [foldl].
  - rewrite list_to_set_nil. by rewrite (right_id_L ∅ (∪)).
  - rewrite IH, dom_insert_L, list_to_set_cons.
    apply set_eq. intros x. rewrite !elem_of_union. tauto.
Qed.

Lemma average_all_regions_over_time_loop (regions : list (string * Region Qc))
    (var : Region Qc → gmap Z (option Qc)) :
  (∀ k r year, (k, r) ∈ regions → year ∈ window → is_Some (var r !! year)) →
  ∃ values,
    Plots.average_all_regions_over_time regions var = Ok values ∧
    dom values = window_set ∧
    ∀ year, year ∈ window →
      values !! year =
        Some (match values_in var year regions with
              | [] => None
              | present => Some (mean_of id present)
              end).
Proof.
  intros Hkeys. unfold Plots.average_all_regions_over_time. cbn zeta.
  set (average := λ year : Z,
    match values_in var year regions with
    | [] => None
    | present => Some (mean_of id present)
    end).
  eexists. split_and!.
  - apply (for_each_pure (λ (values : gmap Z (option Qc)) year,
      <[year := average year]> values)).
    intros values year Hyear.
    rewrite average_inner_loop by (intros; by eapply Hkeys).
    cbn [mbind result_bind]. unfold average.
    destruct (values_in var year regions) as [|v vs] eqn:Hvs; [done|].
    change (0 + length (v :: vs))%nat with (length (v :: vs)).
    change (length (v :: vs) =? 0)%nat with false. cbn match.
    change (true_div (foldl num_add num_zero (v :: vs))
              (num_of_nat (length (v :: vs)))) with (mean (v :: vs)).
    by rewrite mean_mean_of.
  - rewrite foldl_insert_dom.
    pose proof (dom_defualt_dict (A:=Qc)) as Hdom. unfold defualt_dict in Hdom.
    rewrite Hdom. unfold window_set. by rewrite (idemp_L (∪)).
  - intros year Hyear. rewrite foldl_insert_lookup. by rewrite decide_True.
Qed.

(** X24. In exact arithmetic, when every region's series has an entry for
    every year of the window, [average_all_regions_over_time] returns a
    dictionary on the years 1951..2016 that has, for each year, the mean of
    the values of the regions that have one, and [None] when no region
    has. *)
Theorem average_all_regions_over_time_values (regions : list (string * Region Qc))
    (var : Region Qc → gmap Z (option Qc)) :
  (∀ k r year, (k, r) ∈ regions → year ∈ window → is_Some (var r !! year)) →
  ∃ values,
    Plots.average_all_regions_over_time regions var = Ok values ∧
    dom values = window_set ∧
    ∀ year, year ∈ window →
      values !! year =
        Some (match values_in var year regions with
              | [] => None
              | present => Some (mean_of id present)
              end).
Proof. apply average_all_regions_over_time_loop. Qed.

End Averages.

Lemma length_omap_le {X Y : Type} (f : X → option Y) (l : list X) :
  (length (omap f l) ≤ length l)%nat.
Proof. induction l as [|x l IH]; cbn; [done|]. destruct (f x); cbn; lia. Qed.

Lemma omap_nil {X Y : Type} (f : X → option Y) (l : list X) :
  omap f l = [] ↔ ∀ x, x ∈ l → f x = None.
Proof.
  induction l as [|x l IH]; cbn.
  - split; [by intros _ ? ?%elem_of_nil|done].
  - destruct (f x) as [y|] eqn:Hx.
    + split; [done|]. intros Hall. specialize (Hall x ltac:(left)). congruence.
    + rewrite IH. split.
      * intros Hall x' [->|?]%elem_of_cons; by eauto.
      * intros Hall x' ?. apply Hall. by right.
Qed.

Section AveragedPlot.
Context {A : Type} `{PyNum A}.
Implicit Types regions : list (string * Region A).

Lemma average_all_regions_over_time_quotients regions
    (var : Region A → gmap Z (option A)) :
  (∀ n : nat, (0 < n ≤ length regions)%nat → num_is_zero (num_of_nat n) = false) →
  (∀ k r year, (k, r) ∈ regions → year ∈ window → is_Some (var r !! year)) →
  ∃ values,
    Plots.average_all_regions_over_time regions var = Ok values ∧
    dom values = window_set ∧
    ∀ year, year ∈ window →
      values !! year =
        Some (match values_in var year regions with
              | [] => None
              | present =>
                  Some (num_quot (Regression.sum present)
                          (num_of_nat (length present)))
              end).
Proof.
  intros Hlengths Hkeys. unfold Plots.average_all_regions_over_time. cbn zeta.
  set (average := λ year : Z,
    match values_in var year regions with
    | [] => None
    | present =>
        Some (num_quot (Regression.sum present) (num_of_nat (length present)))
    end).
  eexists. split_and!.
  - apply (for_each_pure (λ (values : gmap Z (option A)) year,
      <[year := average year]> values)).
    intros values year Hyear.
    rewrite average_inner_loop by (intros; by eapply Hkeys).
    cbn [mbind result_bind]. unfold average.
    pose proof (length_omap_le (λ e : string * Region A, default None (var e.2 !! year))
                  regions) as Hle.
    fold (values_in var year regions) in Hle.
    destruct (values_in var year regions) as [|v vs] eqn:Hvs; [done|].
    change (0 + length (v :: vs))%nat with (length (v :: vs)).
    change (length (v :: vs) =? 0)%nat with false. cbn match.
    unfold true_div. rewrite Hlengths by (simpl in *; lia).
    done.
  - rewrite foldl_insert_dom.
    pose proof (dom_defualt_dict (A:=A)) as Hdom. unfold defualt_dict in Hdom.
    rewrite Hdom. unfold window_set. by rewrite (idemp_L (∪)).
  - intros year Hyear. rewrite foldl_insert_lookup. by rewrite decide_True.
Qed.

(** X25. For every number type in which the numbers [1 .. len(regions)]
    are not zero, when every region's series has an entry for every year of
    the window: [average_all_regions_over_time] returns a series, and
    [all_regions_over_time] displays nothing exactly when no region has a
    value in any year of the window; otherwise it plots the fit of the
    points (year, average) of the years in which some region has a value. *)
Theorem all_regions_over_time_cases regions (y_var : Region A → gmap Z (option A)) :
  (∀ n : nat, (0 < n ≤ length regions)%nat → num_is_zero (num_of_nat n) = false) →
  (∀ k r year, (k, r) ∈ regions → year ∈ window → is_Some (y_var r !! year)) →
  ∃ values,
    Plots.average_all_regions_over_time regions y_var = Ok values ∧
    Plots.all_regions_over_time regions y_var =
      match dated values with
      | [] => Ok None
      | _ :: _ =>
          fit ← Plots.linear_plot (dated values).*1 (dated values).*2;
          Ok (Some fit)
      end ∧
    (dated values = [] ↔
     ∀ year, year ∈ window → values_in y_var year regions = []).
Proof.
  intros Hlengths Hkeys.
  destruct (average_all_regions_over_time_quotients regions y_var Hlengths Hkeys)
    as (values & Hvalues & Hdom & Hyears).
  exists values. split_and!; [done| |].
  - unfold Plots.all_regions_over_time. cbn zeta. rewrite Hvalues.
    cbn [mbind result_bind]. rewrite clean_time_data_paired.
    2:{ intros year Hyear. split; [by rewrite lookup_years|].
        rewrite Hyears by done. by eexists. }
    cbn [mbind result_bind]. rewrite plot_of_points. by rewrite paired_years.
  - unfold dated. rewrite omap_nil. split.
    + intros Hnone year Hyear. specialize (Hnone year Hyear).
      rewrite Hyears in Hnone by done. cbn [default id] in Hnone.
      by destruct (values_in y_var year regions).
    + intros Hnone year Hyear. rewrite Hyears, Hnone by done. done.
Qed.
End AveragedPlot.

Lemma fill_defined {A : Type} `{PyNum A} (entries : list (Z * A)) (year : Z) :
  Forall (λ e, 1951 ≤ e.1 ≤ 2016) entries → year ∈ window →
  is_Some (fill entries !! year).
Proof.
  intros Hentries Hyear%elem_of_window.
  by apply well_keyed_lookup; [apply dom_fill|].
Qed.

Local Ltac window_years := repeat constructor; simpl; lia.

Lemma clean_time_data_points_witness :
  Plots.clean_time_data (fill [(2000, 1%float)])
    (fill [(2000, 2%float); (2001, 3%float)]) = Ok ([1%float], [2%float]) ∧
  Plots.clean_time_data (∅ : gmap Z (option float)) (fill []) = Err KeyError.
Proof.
  split.
  - apply (proj1 (clean_time_data_points (fill [(2000, 1%float)])
                    (fill [(2000, 2%float); (2001, 3%float)]))).
    intros year Hyear. split; apply fill_defined; first [done|window_years].
  - apply (proj2 (clean_time_data_points (∅ : gmap Z (option float)) (fill []))).
    exists 1951. split; [by apply elem_of_window|done].
Defined.

Lemma in_region_over_time_cases_witness :
  Plots.in_region_over_time
    (sample_region "X" [] [] [(2000, 1%float); (2001, 3%float); (2002, 5%float)] [] false)
    co2_emissions = Ok (Some (2, -3999, 1)%float) ∧
  Plots.in_region_over_time (sample_region (A:=float) "X" [] [] [] [] false)
    co2_emissions = Ok None ∧
  Plots.in_region_over_time
    (set_co2_emissions ∅ (sample_region (A:=float) "X" [] [] [] [] false))
    co2_emissions = Err KeyError.
Proof.
  split_and!.
  - rewrite (proj2 (in_region_over_time_cases
               (sample_region "X" [] []
                  [(2000, 1%float); (2001, 3%float); (2002, 5%float)] [] false)
               co2_emissions)).
    + vm_compute. reflexivity.
    + intros year Hyear. apply fill_defined; first [done|window_years].
  - rewrite (proj2 (in_region_over_time_cases
               (sample_region (A:=float) "X" [] [] [] [] false) co2_emissions)).
    + reflexivity.
    + intros year Hyear. by apply fill_defined.
  - apply (proj1 (in_region_over_time_cases
             (set_co2_emissions ∅ (sample_region (A:=float) "X" [] [] [] [] false))
             co2_emissions)).
    exists 1951. split; [by apply elem_of_window|done].
Defined.

Lemma in_region_cases_witness :
  Plots.in_region
    (sample_region "X" [] [(2000, 1%float); (2001, 2%float); (2002, 3%float)]
       [(2000, 1%float); (2001, 3%float); (2002, 5%float)] [] false)
    gdp co2_emissions = Ok (Some (2, -1, 1)%float) ∧
  Plots.in_region (sample_region (A:=float) "X" [] [(2000, 1%float)] [] [] false)
    gdp co2_emissions = Ok None.
Proof.
  split.
  - rewrite (in_region_cases
               (sample_region "X" [] [(2000, 1%float); (2001, 2%float); (2002, 3%float)]
                  [(2000, 1%float); (2001, 3%float); (2002, 5%float)] [] false)
               gdp co2_emissions).
    + vm_compute. reflexivity.
    + intros year Hyear. split; apply fill_defined; first [done|window_years].
  - rewrite (in_region_cases
               (sample_region (A:=float) "X" [] [(2000, 1%float)] [] [] false)
               gdp co2_emissions).
    + reflexivity.
    + intros year Hyear. split; apply fill_defined; first [done|window_years].
Defined.

Lemma all_regions_cases_witness :
  Plots.all_regions
    [("X", sample_region "X" [] [(2016, 1%float)] [(2016, 2%float)] [] false);
     ("Y", sample_region "Y" [] [(2016, 2%float)] [(2016, 4%float)] [] false);
     ("Z", sample_region "Z" [] [(2016, 3%float)] [(2016, 6%float)] [] false)]
    gdp co2_emissions = Ok (2, 0, 1)%float ∧
  Plots.all_regions
    [("X", sample_region "X" [] [(2016, 1%float)] [] [] false)]
    gdp co2_emissions = Err ZeroDivisionError.
Proof.
  split.
  - rewrite (proj1 (proj2 (all_regions_cases
      [("X", sample_region "X" [] [(2016, 1%float)] [(2016, 2%float)] [] false);
       ("Y", sample_region "Y" [] [(2016, 2%float)] [(2016, 4%float)] [] false);
       ("Z", sample_region "Z" [] [(2016, 3%float)] [(2016, 6%float)] [] false)]
      gdp co2_emissions) ltac:(
        intros k r Hin; registry_cases Hin;
        split; apply fill_defined; first [by apply elem_of_window|window_years]))).
    reflexivity.
  - apply (proj2 (all_regions_cases
      [("X", sample_region "X" [] [(2016, 1%float)] [] [] false)] gdp co2_emissions)).
    + intros k r Hin. registry_cases Hin.
      split; apply fill_defined; first [by apply elem_of_window|window_years].
    + reflexivity.
    + reflexivity.
Defined.

Lemma all_regions_over_time_cases_witness :
  Plots.all_regions_over_time
    [("X", sample_region "X" [] [] [(2000, 1%float); (2001, 3%float)] [] false);
     ("Y", sample_region "Y" [] [] [(2000, 3%float); (2001, 5%float)] [] false)]
    co2_emissions = Ok (Some (2, -3998, 1)%float) ∧
  Plots.all_regions_over_time
    [("X", sample_region (A:=float) "X" [] [] [] [] false)] co2_emissions = Ok None.
Proof.
  split.
  - destruct (all_regions_over_time_cases
                [("X", sample_region "X" [] [] [(2000, 1%float); (2001, 3%float)] [] false);
                 ("Y", sample_region "Y" [] [] [(2000, 3%float); (2001, 5%float)] [] false)]
                co2_emissions)
      as (values & Hvalues & -> & _).
    + intros n [Hn Hle]. simpl in Hle.
      assert (n = 1%nat ∨ n = 2%nat) as [-> | ->] by lia; reflexivity.
    + intros k r year Hin Hyear.
      registry_cases Hin; apply fill_defined; first [done|window_years].
    + vm_compute in Hvalues. injection Hvalues as <-. vm_compute. reflexivity.
  - destruct (all_regions_over_time_cases
                [("X", sample_region (A:=float) "X" [] [] [] [] false)] co2_emissions)
      as (values & _ & -> & Hnone).
    + intros n [Hn Hle]. simpl in Hle. assert (n = 1%nat) as -> by lia. reflexivity.
    + intros k r year Hin Hyear. registry_cases Hin. by apply fill_defined.
    + rewrite (proj2 Hnone); [done|].
      intros year Hyear. unfold values_in. cbn [omap list_omap snd].
      unfold sample_region, fill. cbn.
      rewrite lookup_defualt_dict. apply elem_of_window in Hyear.
      by rewrite decide_True.
Defined.

Lemma average_all_regions_over_time_values_witness :
  ∃ values,
    Plots.average_all_regions_over_time
      [("X", sample_region "X" [] [] [(2000, Qc_of_Z 1)] [] false);
       ("Y", sample_region "Y" [] [] [(2000, Qc_of_Z 3)] [] false)]
      co2_emissions = Ok values ∧
    dom values = window_set ∧
    ∀ year, year ∈ window →
      values !! year =
        Some (match values_in co2_emissions year
                      [("X", sample_region "X" [] [] [(2000, Qc_of_Z 1)] [] false);
                       ("Y", sample_region "Y" [] [] [(2000, Qc_of_Z 3)] [] false)] with
              | [] => None
              | present => Some (mean_of id present)
              end).
Proof.
  apply average_all_regions_over_time_values.
  intros k r year Hin Hyear. registry_cases Hin; apply fill_defined; first [done|window_years].
Defined.

(** ** twitter.py *)

Section Ratings.
Local Open Scope Qc_scope.

Lemma num_of_int_Qc (n : Z) : num_of_int n = Qc_of_Z n.
Proof.
  unfold num_of_int. cbn [num_sub num_zero num_of_nat Qc_num]. case_bool_decide.
  - rewrite Z2Nat.id by lia. rewrite Z2Qc_inj_opp. ring.
  - by rewrite Z2Nat.id by lia.
Qed.

Lemma count_matches_matched (test : string → bool) (step : Z) (words : list string)
    (score total : Z) :
  TweetAnalyser.count_matches test step words score total =
    ((score + step * matched test words)%Z, (total + matched test words)%Z).
Proof.
  unfold TweetAnalyser.count_matches, matched. revert score total.
  induction words as [|word words IH]; intros score total; cbn [foldl].
  - rewrite filter_nil. cbn [length]. f_equal; lia.
  - rewrite filter_cons. destruct (test word) eqn:Htest.
    + rewrite decide_True by done. rewrite IH. cbn [length]. f_equal; lia.
    + rewrite decide_False by (by intros ?). by rewrite IH.
Qed.

Lemma matched_nonneg (test : string → bool) (words : list string) :
  (0 ≤ matched test words)%Z.
Proof. unfold matched. lia. Qed.

(** A quotient whose numerator is within the denominator. *)
Lemma Qc_quotient_range (s t : Qc) :
  0 < t → - t ≤ s → s ≤ t → - (1) ≤ s / t ∧ s / t ≤ 1.
Proof.
  intros Hpos Hlo Hhi.
  assert (t ≠ 0) as Hne by by apply not_symmetry, Qclt_not_eq.
  split.
  - assert (- t / t = - (1)) as <- by by field.
    by apply Qc_div_le.
  - assert (t / t = 1) as <- by by field.
    by apply Qc_div_le.
Qed.

Lemma tweet_denial_rating_Qc (tweet : Tweet) :
  TweetAnalyser.tweet_denial_rating (A:=Qc) tweet = Ok (rating_of tweet).
Proof.
  unfold TweetAnalyser.tweet_denial_rating, rating_of. cbn zeta.
  repeat (rewrite count_matches_matched; cbv beta iota).
  unfold denying_matches, non_denying_matches.
  set (dw := matched _ DENYING_WORDS). set (nw := matched _ NON_DENYING_WORDS).
  set (dh := matched _ DENYING_HASHTAGS). set (nh := matched _ NON_DENYING_HASHTAGS).
  replace (0 + 1 * dw + -1 * nw)%Z with (dw - nw)%Z by lia.
  replace (0 + 1 * dh + -1 * nh)%Z with (dh - nh)%Z by lia.
  replace (0 + dw + nw + (0 + dh + nh))%Z with (dw + dh + (nw + nh))%Z by lia.
  replace (dh - nh + (dw - nw))%Z with (dw + dh - (nw + nh))%Z by lia.
  destruct (decide (dw + dh + (nw + nh) = 0)%Z) as [Hzero|Hne].
  - by rewrite Hzero.
  - apply Z.eqb_neq in Hne as Hne'. rewrite Hne'.
    unfold true_div. rewrite !num_of_int_Qc. cbn [num_is_zero num_quot Qc_num].
    rewrite bool_decide_false; [done|].
    rewrite <-Z2Qc_inj_0. by intros ?%Z2Qc_inj.
Qed.

Lemma rating_range (tweet : Tweet) : - (1) ≤ rating_of tweet ∧ rating_of tweet ≤ 1.
Proof.
  unfold rating_of.
  pose proof (matched_nonneg (λ word, TweetAnalyser.contains word (text tweet))
    DENYING_WORDS).
  pose proof (matched_nonneg (λ word, TweetAnalyser.contains word (text tweet))
    NON_DENYING_WORDS).
  pose proof (matched_nonneg (λ hashtag, bool_decide (hashtag ∈ hashtags tweet))
    DENYING_HASHTAGS).
  pose proof (matched_nonneg (λ hashtag, bool_decide (hashtag ∈ hashtags tweet))
    NON_DENYING_HASHTAGS).
  case_decide as Hzero; [done|].
  apply Qc_quotient_range.
  - rewrite <-Z2Qc_inj_0. apply (proj1 (Z2Qc_inj_lt _ _)).
    unfold denying_matches, non_denying_matches in *; lia.
  - rewrite <-Z2Qc_inj_opp. apply (proj1 (Z2Qc_inj_le _ _)).
    unfold denying_matches, non_denying_matches in *; lia.
  - apply (proj1 (Z2Qc_inj_le _ _)).
    unfold denying_matches, non_denying_matches in *; lia.
Qed.

(** X14. In exact arithmetic, [tweet_denial_rating] never raises: it is the
    number of denying words and hashtags matched minus the number of
    non-denying ones, over the number of all matches, and [0] when nothing
    matches; it lies between [-1] and [1]. *)
Theorem tweet_denial_rating_value (tweet : Tweet) :
  TweetAnalyser.tweet_denial_rating tweet = Ok (rating_of tweet) ∧
  - (1) ≤ rating_of tweet ∧ rating_of tweet ≤ 1.
Proof. split; [apply tweet_denial_rating_Qc|apply rating_range]. Qed.

Section Locations.
Variable lower : string → string.

Lemma sum_of_ratings_range (tweets : list Tweet) :
  - Qc_of_Z (Z.of_nat (length tweets)) ≤ sum_of rating_of tweets ∧
  sum_of rating_of tweets ≤ Qc_of_Z (Z.of_nat (length tweets)).
Proof.
  induction tweets as [|tweet tweets [IHlo IHhi]].
  - change (Z.of_nat (length [])) with 0%Z. rewrite Z2Qc_inj_0.
    by replace (- 0) with 0 by ring.
  - cbn [length]. rewrite sum_of_cons, Qc_of_nat_S.
    destruct (rating_range tweet) as [Hlo Hhi]. split.
    + replace (- (Qc_of_Z (Z.of_nat (length tweets)) + 1))
        with (- (1) + - Qc_of_Z (Z.of_nat (length tweets))) by ring.
      by apply Qcplus_le_compat.
    + rewrite (Qcplus_comm _ 1). by apply Qcplus_le_compat.
Qed.

Lemma location_score_loop (tweets : list Tweet) (place : string) (is_code : bool)
    (total : Qc) (amount : nat) :
  for_each (λ '(total, amount) tweet,
      if is_code then
        if TweetAnalyser.contains place (location tweet) then
          rating ← TweetAnalyser.tweet_denial_rating tweet;
          Ok (num_add total rating, S amount)
        else Ok (total, amount)
      else
        if TweetAnalyser.contains place (lower (location tweet)) then
          rating ← TweetAnalyser.tweet_denial_rating tweet;
          Ok (num_add total rating, S amount)
        else Ok (total, amount))
    tweets (total, amount) =
  Ok (total + sum_of rating_of (located lower place is_code tweets),
      (amount + length (located lower place is_code tweets))%nat).
Proof.
  revert total amount. induction tweets as [|tweet tweets IH]; intros total amount.
  - cbn. f_equal. f_equal; [ring|lia].
  - unfold located in *. rewrite filter_cons. cbn [for_each].
    rewrite tweet_denial_rating_Qc. destruct is_code.
    + destruct (TweetAnalyser.contains place (location tweet)) eqn:Hin.
      * rewrite decide_True by done. cbn [mbind result_bind]. rewrite IH.
        rewrite sum_of_cons. cbn [length num_add Qc_num]. f_equal. f_equal; [ring|lia].
      * rewrite decide_False by (by intros ?). cbn [mbind result_bind]. by rewrite IH.
    + destruct (TweetAnalyser.contains place (lower (location tweet))) eqn:Hin.
      * rewrite decide_True by done. cbn [mbind result_bind]. rewrite IH.
        rewrite sum_of_cons. cbn [length num_add Qc_num]. f_equal. f_equal; [ring|lia].
      * rewrite decide_False by (by intros ?). cbn [mbind result_bind]. by rewrite IH.
Qed.

Lemma location_score_Qc (tweets : list Tweet) (location : string) (is_code : bool) :
  TweetAnalyser.location_score lower tweets location is_code =
    Ok (sum_of rating_of (located lower location is_code tweets),
        length (located lower location is_code tweets)).
Proof.
  unfold TweetAnalyser.location_score. rewrite location_score_loop.
  f_equal. f_equal. cbn. ring.
Qed.

(** X16. In exact arithmetic, [location_score] never raises: it returns the
    sum of the ratings of the tweets whose location (lower-cased unless
    [is_code]) contains the given string, and the number of these tweets;
    the sum is between minus that number and that number. *)
Theorem location_score_value (tweets : list Tweet) (location : string)
    (is_code : bool) :
  ∃ total : Qc,
    TweetAnalyser.location_score lower tweets location is_code =
      Ok (total, length (located lower location is_code tweets)) ∧
    total = sum_of rating_of (located lower location is_code tweets) ∧
    - Qc_of_Z (Z.of_nat (length (located lower location is_code tweets))) ≤ total ∧
    total ≤ Qc_of_Z (Z.of_nat (length (located lower location is_code tweets))).
Proof.
  eexists. split; [apply location_score_Qc|]. split; [done|].
  apply sum_of_ratings_range.
Qed.

(** X18. In exact arithmetic, [average_score_of_state] raises
    [ZeroDivisionError] when no tweet is located in the state by its name or
    by its abbreviation; otherwise it is the mean of the ratings over the
    tweets located by name followed by those located by abbreviation (a
    tweet located both ways counts twice), between [-1] and [1]. *)
Theorem average_score_of_state_value (tweets : list Tweet)
    (state_name state_abbreviation : string) :
  (located lower state_name false tweets = [] →
   located lower state_abbreviation true tweets = [] →
   FinalReport.average_score_of_state (A:=Qc) lower tweets state_name state_abbreviation
     = Err ZeroDivisionError) ∧
  (located lower state_name false tweets ++
   located lower state_abbreviation true tweets ≠ [] →
   ∃ average : Qc,
     FinalReport.average_score_of_state lower tweets state_name state_abbreviation
       = Ok average ∧
     average =
       sum_of rating_of (located lower state_name false tweets ++
                      located lower state_abbreviation true tweets)
       / Qc_of_Z (Z.of_nat (length (located lower state_name false tweets ++
                                    located lower state_abbreviation true tweets))) ∧
     - (1) ≤ average ∧ average ≤ 1).
Proof.
  unfold FinalReport.average_score_of_state. rewrite !location_score_Qc.
  cbn [mbind result_bind]. split.
  - by intros -> ->.
  - intros Hne. set (l0 := located _ _ false _) in *. set (l1 := located _ _ true _) in *.
    assert (sum_of rating_of l0 + sum_of rating_of l1 = sum_of rating_of (l0 ++ l1)) as Hsum.
    { clear. induction l0 as [|t l0 IH]; [unfold sum_of at 1; simpl; ring|].
      rewrite <-app_comm_cons, !sum_of_cons, <-IH. ring. }
    unfold true_div. cbn [num_add num_is_zero num_quot num_of_nat Qc_num].
    rewrite <-length_app, Hsum.
    rewrite bool_decide_false by by apply length_nonzero.
    eexists. split; [done|]. split; [done|].
    destruct (sum_of_ratings_range (l0 ++ l1)).
    apply Qc_quotient_range; [|done..].
    apply Qc_nonneg_pos; [apply length_nonneg|by apply length_nonzero].
Qed.
End Locations.
End Ratings.

Section Overlaps.
Local Open Scope Qc_scope.

Lemma contains_prefix (sub s : string) :
  String.prefix sub s = true → TweetAnalyser.contains sub s = true.
Proof. intros Hsub. destruct s; unfold TweetAnalyser.contains; by rewrite Hsub. Qed.

Lemma contains_unfold (sub : string) (c : ascii) (s : string) :
  TweetAnalyser.contains sub (String c s) =
    String.prefix sub (String c s) || TweetAnalyser.contains sub s.
Proof. done. Qed.

Lemma contains_cons (sub : string) (c : ascii) (s : string) :
  TweetAnalyser.contains sub s = true →
  TweetAnalyser.contains sub (String c s) = true.
Proof.
  intros Hsub. cbn [TweetAnalyser.contains]. rewrite Hsub. apply orb_true_r.
Qed.

Lemma prefix_append_contains (p q s : string) :
  String.prefix (p +:+ q) s = true → TweetAnalyser.contains q s = true.
Proof.
  revert s. induction p as [|c p IH]; intros s.
  - apply contains_prefix.
  - change (String c p +:+ q) with (String c (p +:+ q)).
    destruct s as [|c' s]; [done|]. cbn [String.prefix].
    destruct (ascii_dec c c'); [|done]. intros Hp. by apply contains_cons, IH.
Qed.

(** A text that contains a string contains its endings. *)
Lemma contains_append (p q s : string) :
  TweetAnalyser.contains (p +:+ q) s = true → TweetAnalyser.contains q s = true.
Proof.
  induction s as [|c s IH].
  - cbn [TweetAnalyser.contains]. rewrite orb_false_r. apply prefix_append_contains.
  - intros Hin. rewrite contains_unfold in Hin.
    apply orb_true_iff in Hin as [Hp|Hs]; [by eapply prefix_append_contains|].
    by apply contains_cons, IH.
Qed.

Lemma matched_one (test : string → bool) (words : list string) (word : string) :
  word ∈ words → test word = true → (1 ≤ matched test words)%Z.
Proof.
  intros Hin Htest. unfold matched.
  assert (word ∈ filter (λ word, test word) words) as Hfilter.
  { apply list_elem_of_filter. split; [by rewrite Htest|done]. }
  destruct (filter _ words); [by apply elem_of_nil in Hfilter|]. cbn [length]. lia.
Qed.

(** X15. The words are matched as substrings, so a tweet with "not real"
    also matches "real", and one with "not a hoax" also matches "hoax": a
    tweet whose only denying match is "not real" has a rating of [0] at
    most, and a tweet whose only non-denying match is "not a hoax" has a
    rating of [0] at least. *)
Theorem rating_of_negated_words (tweet : Tweet) :
  ∃ rating : Qc,
    TweetAnalyser.tweet_denial_rating tweet = Ok rating ∧
    (TweetAnalyser.contains "not real" (text tweet) = true →
     denying_matches tweet = 1%Z → rating ≤ 0) ∧
    (TweetAnalyser.contains "not a hoax" (text tweet) = true →
     non_denying_matches tweet = 1%Z → 0 ≤ rating).
Proof.
  exists (rating_of tweet). split; [apply tweet_denial_rating_Qc|].
  pose proof (matched_nonneg (λ hashtag, bool_decide (hashtag ∈ hashtags tweet))
    NON_DENYING_HASHTAGS).
  pose proof (matched_nonneg (λ hashtag, bool_decide (hashtag ∈ hashtags tweet))
    DENYING_HASHTAGS).
  split.
  - intros Hnot Hd.
    assert (TweetAnalyser.contains "real" (text tweet) = true) as Hreal
      by by apply (contains_append "not " "real").
    pose proof (matched_one (λ word, TweetAnalyser.contains word (text tweet))
      NON_DENYING_WORDS "real" ltac:(in_list) Hreal).
    assert (1 ≤ non_denying_matches tweet)%Z as Hn
      by (unfold non_denying_matches; lia).
    unfold rating_of. rewrite Hd. case_decide; [done|].
    set (n := non_denying_matches tweet) in *.
    assert (0 < Qc_of_Z (1 + n)) as Hpos.
    { rewrite <-Z2Qc_inj_0. apply (proj1 (Z2Qc_inj_lt _ _)). lia. }
    assert (Qc_of_Z (1 - n) ≤ 0) as Hle.
    { rewrite <-Z2Qc_inj_0. apply (proj1 (Z2Qc_inj_le _ _)). lia. }
    replace 0 with (0 / Qc_of_Z (1 + n)).
    + by apply Qc_div_le.
    + field. by apply not_symmetry, Qclt_not_eq.
  - intros Hnot Hn.
    assert (TweetAnalyser.contains "hoax" (text tweet) = true) as Hhoax
      by by apply (contains_append "not a " "hoax").
    pose proof (matched_one (λ word, TweetAnalyser.contains word (text tweet))
      DENYING_WORDS "hoax" ltac:(in_list) Hhoax).
    assert (1 ≤ denying_matches tweet)%Z as Hd
      by (unfold denying_matches; lia).
    unfold rating_of. rewrite Hn. case_decide; [done|].
    set (d := denying_matches tweet) in *.
    assert (0 < Qc_of_Z (d + 1)) as Hpos.
    { rewrite <-Z2Qc_inj_0. apply (proj1 (Z2Qc_inj_lt _ _)). lia. }
    assert (0 ≤ Qc_of_Z (d - 1)) as Hle.
    { rewrite <-Z2Qc_inj_0. apply (proj1 (Z2Qc_inj_le _ _)). lia. }
    replace 0 with (0 / Qc_of_Z (d + 1)) at 1.
    + by apply Qc_div_le.
    + field. by apply not_symmetry, Qclt_not_eq.
Qed.
End Overlaps.

Lemma rating_of_negated_words_witness :
  ∃ rating : Qc,
    TweetAnalyser.tweet_denial_rating sample_tweet = Ok rating ∧ (rating ≤ 0)%Qc.
Proof.
  destruct (rating_of_negated_words sample_tweet) as (rating & Hrating & Hle & _).
  exists rating. split; [exact Hrating|]. apply Hle; reflexivity.
Defined.

Lemma average_score_of_state_value_witness :
  FinalReport.average_score_of_state (A:=Qc) id [sample_tweet] "ohio" "OH"
    = Err ZeroDivisionError ∧
  ∃ average : Qc,
    FinalReport.average_score_of_state id [sample_tweet] "texas" "TX" = Ok average ∧
    (- (1) ≤ average)%Qc ∧ (average ≤ 1)%Qc.
Proof.
  split.
  - apply (average_score_of_state_value id [sample_tweet] "ohio" "OH"); reflexivity.
  - destruct (proj2 (average_score_of_state_value id [sample_tweet] "texas" "TX"))
      as (average & Haverage & _ & Hrange); [discriminate|].
    exists average. split; [exact Haverage|exact Hrange].
Defined.

(** ** The damage projected for the regions that help most *)

Section HelpingRegions.
Local Open Scope Qc_scope.
Variable str : Qc → string.
Variable round : Qc → Z → Qc.
Implicit Types regions : list (string * Region Qc).

Lemma greatest_help_top10_of {A : Type} `{PyNum A} (regions : list (string * Region A)) :
  FinalReport.greatest_help regions = Ok (top10_of (candidates ByScore regions)).*1.
Proof.
  unfold FinalReport.greatest_help, top10_of.
  assert (∀ top, length top = 10%nat →
    for_each (λ top10 '(region, r),
        let score := region_score r in
        match score with
        | None => Ok top10
        | Some score => FinalReport.place top10 region score (range 10)
        end) regions top
      = Ok (foldl top10_step top (candidates ByScore regions))) as Hloop.
  { unfold candidates. induction regions as [|[k r] regions IH]; intros top Hlen; [done|].
    cbn [for_each fmap list_fmap foldl]. cbn zeta.
    unfold top10_step at 2. cbn [rank_score fst snd].
    destruct (region_score r) as [s|]; [|by apply IH].
    rewrite place_insert by done. cbn [mbind result_bind]. apply IH.
    rewrite length_take. pose proof (length_insert_before_lower (Some k, s) top). lia. }
  by rewrite Hloop by by rewrite length_replicate.
Qed.

Lemma length_omap_fst (top : list (option string * Qc)) :
  (length (omap fst top) ≤ length top)%nat.
Proof. induction top as [|[[n|] s] top IH]; csimpl; lia. Qed.

Lemma length_omap_fst_slot (top : list (option string * Qc)) (s : Qc) :
  (None, s) ∈ top → (length (omap fst top) < length top)%nat.
Proof.
  induction top as [|[o s'] top IH]; intros Hin; [by apply elem_of_nil in Hin|].
  pose proof (length_omap_fst top) as Hle.
  apply elem_of_cons in Hin as [[= <- <-]|Hin].
  - csimpl. lia.
  - specialize (IH Hin). destruct o; csimpl; lia.
Qed.

(** The ten leaders hold an empty slot exactly when fewer than ten
    candidates have a positive score. *)
Lemma leaders_slot regions (top : list (option string * Qc)) :
  NoDup (Dict.keys regions) → leaders top (candidates ByScore regions) →
  None ∈ top.*1 ↔
    (length (filter (λ e, positive (region_score e.2)) regions) < 10)%nat.
Proof.
  intros Hnd Hl. split.
  - intros (x & Hin)%elem_of_names.
    destruct (leaders_seen _ _ Hl _ Hin) as [[= ->]|(? & ? & [=] & _)].
    assert ((filter (λ e, positive (region_score e.2)) regions).*1 ⊆+ omap fst top)
      as Hsub.
    { apply NoDup_submseteq.
      - apply (sublist_NoDup _ (Dict.keys regions)); [done|].
        apply fmap_sublist, sublist_filter.
      - intros n ([n' r] & -> & [Hpos Hr]%list_elem_of_filter)%list_elem_of_fmap.
        cbn [fst snd] in *. apply positive_spec in Hpos as (s & Hs & Hpos).
        destruct (leaders_highest _ _ Hl n' s) as [Htop|Hle]; [|done| |].
        + apply elem_of_candidates. by exists r.
        + apply list_elem_of_omap. by exists (Some n', s).
        + apply Hle in Hin. cbn in Hin. by apply Qcle_not_lt in Hin. }
    apply submseteq_length in Hsub. rewrite length_fmap in Hsub.
    pose proof (length_omap_fst_slot top 0 Hin) as Hlt.
    rewrite (leaders_length _ _ Hl) in Hlt. lia.
  - intros Hfew. destruct (decide (None ∈ top.*1)) as [|Hfull]; [done|exfalso].
    apply length_omap_id in Hfull. rewrite omap_id_fst, length_fmap in Hfull.
    rewrite (leaders_length _ _ Hl) in Hfull.
    assert (omap fst top ⊆+
              (filter (λ e, positive (region_score e.2)) regions).*1) as Hsub.
    { apply NoDup_submseteq; [apply Hl|].
      intros n ([o s] & Hin & Ho)%list_elem_of_omap. simpl in Ho. subst o.
      apply (leaders_name _ _ _ _ Hl) in Hin
        as [(r & Hr & Hs)%elem_of_candidates Hpos].
      apply list_elem_of_fmap. exists (n, r). split; [done|].
      apply list_elem_of_filter. split; [|done].
      apply positive_spec. by exists s. }
    apply submseteq_length in Hsub. rewrite length_fmap in Hsub. lia.
Qed.

Lemma damage_loop regions (names : list string) (total : Qc) :
  (∀ n, n ∈ names → n ∈ Dict.keys regions) →
  for_each (λ total region,
      r ← FinalReport.get_opt regions region;
      match projected_damage r with
      | Some projected_damage => Ok (num_add total projected_damage)
      | None => Ok total
      end)
    (Some <$> names) total
  = Ok (total + sum_of (damage_in regions) names).
Proof.
  revert total. induction names as [|n names IH]; intros total Hkeys.
  - cbn. f_equal. ring.
  - rewrite fmap_cons. cbn [for_each FinalReport.get_opt].
    unfold Dict.get. rewrite sum_of_cons. unfold damage_in at 1.
    destruct (Dict.find regions n) as [r|] eqn:Hfind.
    2:{ apply Dict_find_None in Hfind. destruct Hfind. apply Hkeys. left. }
    cbn [mbind result_bind].
    destruct (projected_damage r) as [d|]; cbn [default id mbind result_bind];
      rewrite IH by (intros; apply Hkeys; by right); f_equal; cbn; ring.
Qed.

(** X20. In exact arithmetic, on a registry without repeated names: with
    fewer than ten regions of positive score, [average_damage_helping_regions]
    raises [KeyError] (an empty slot of the ranking is looked up); with ten
    or more it returns the string [str(round(total / 10, 3))], where
    [total] is the sum of the projected damages of the ten regions that
    [greatest_help] ranks, those without one counting as nothing. *)
Theorem average_damage_helping_regions_cases regions :
  NoDup (Dict.keys regions) →
  ((length (filter (λ e, positive (region_score e.2)) regions) < 10)%nat →
   FinalReport.average_damage_helping_regions str round regions = Err KeyError) ∧
  ((10 ≤ length (filter (λ e, positive (region_score e.2)) regions))%nat →
   ∃ names,
     FinalReport.greatest_help regions = Ok (Some <$> names) ∧
     FinalReport.average_damage_helping_regions str round regions
       = Ok (str (round (sum_of (damage_in regions) names / Qc_of_Z 10) 3))).
Proof.
  intros Hnd. unfold FinalReport.average_damage_helping_regions.
  rewrite greatest_help_top10_of. cbn [mbind result_bind].
  pose proof (top10_of_leaders (candidates ByScore regions)) as Hl.
  rewrite candidates_keys in Hl. specialize (Hl Hnd).
  set (top := top10_of (candidates ByScore regions)) in *.
  pose proof (leaders_slot regions top Hnd Hl) as Hslot. split.
  - intros Hfew%Hslot. rewrite (for_each_Err KeyError); [done| |].
    + intros total [n|] _; cbn [FinalReport.get_opt]; [|by right].
      unfold Dict.get. destruct (Dict.find regions n) as [r|]; [|by right].
      left. cbn [mbind result_bind]. destruct (projected_damage r); eauto.
    + by exists None.
  - intros Hmany.
    assert (None ∉ top.*1) as Hfull by (intros ?%Hslot; lia).
    exists (omap id top.*1).
    assert (top.*1 = Some <$> omap id top.*1) as Hnames.
    { clear -Hfull. induction top.*1 as [|[n|] l IH]; csimpl; [done| |].
      - f_equal. apply IH. intros ?. apply Hfull. by right.
      - destruct Hfull. left. }
    split; [by f_equal|]. rewrite Hnames at 1. rewrite damage_loop.
    + cbn [mbind result_bind]. unfold true_div.
      cbn [num_is_zero num_quot num_of_nat num_zero Qc_num].
      rewrite bool_decide_false by done. cbn [mbind result_bind].
      do 4 f_equal. ring.
    + intros n Hn. rewrite omap_id_fst in Hn.
      apply list_elem_of_omap in Hn as ([o s] & Hin & Ho). simpl in Ho. subst o.
      apply (leaders_name _ _ _ _ Hl) in Hin as [(r & Hr & _)%elem_of_candidates _].
      apply list_elem_of_fmap. by exists (n, r).
Qed.
End HelpingRegions.

(** ** The emissions of the continents *)

Section Continents.
Local Open Scope Qc_scope.
Implicit Types regions : list (string * Region Qc).

Lemma table_keys {V : Type} (keys : list string) (f : string → V) :
  Dict.keys (table_of keys f) = keys.
Proof. unfold table_of, Dict.keys. apply fst_tagged. Qed.

Lemma table_get {V : Type} (keys : list string) (f : string → V) (key : string) :
  key ∈ keys → Dict.get (table_of keys f) key = Ok (f key).
Proof.
  unfold Dict.get, table_of. induction keys as [|k keys IH]; intros Hin.
  - by apply elem_of_nil in Hin.
  - cbn [fmap list_fmap Dict.find]. case_decide as Hk; [by subst|].
    apply elem_of_cons in Hin as [->|Hin]; [done|]. by apply IH.
Qed.

Lemma table_set {V : Type} (keys : list string) (f : string → V) (key : string)
    (v : V) :
  NoDup keys → key ∈ keys →
  Dict.set key v (table_of keys f) =
    table_of keys (λ k, if decide (k = key) then v else f k).
Proof.
  unfold table_of. induction keys as [|k keys IH]; intros Hnd Hin.
  - by apply elem_of_nil in Hin.
  - apply NoDup_cons in Hnd as [Hk Hnd]. cbn [fmap list_fmap Dict.set].
    destruct (decide (k = key)) as [->|Hne].
    + f_equal. apply list_fmap_ext. intros i k' Hk'.
      rewrite decide_False; [done|]. intros ->. apply Hk.
      by eapply list_elem_of_lookup_2.
    + f_equal. apply elem_of_cons in Hin as [->|Hin]; [done|]. by apply IH.
Qed.

Lemma table_ext {V : Type} (keys : list string) (f g : string → V) :
  (∀ key, key ∈ keys → f key = g key) → table_of keys f = table_of keys g.
Proof.
  intros Hfg. apply list_fmap_ext. intros i k Hk. f_equal.
  apply Hfg. by eapply list_elem_of_lookup_2.
Qed.

Lemma NoDup_CONTINENTS : NoDup CONTINENTS.
Proof. apply (bool_decide_unpack _). by vm_compute. Qed.

Lemma emissions_of_cons (c k : string) (r : Region Qc) regions :
  emissions_of c ((k, r) :: regions) =
    match (if decide (continent r = Some c)
           then default None (co2_emissions r !! 2016) else None) with
    | Some e => e :: emissions_of c regions
    | None => emissions_of c regions
    end.
Proof. done. Qed.

(** The first loop: the sums and the numbers of regions of the
    continents. *)
Lemma tally_loop regions (sum : string → Qc) (count : string → nat) :
  (∀ k r, (k, r) ∈ regions → is_Some (co2_emissions r !! 2016)) →
  (∀ k r e, (k, r) ∈ regions → co2_emissions r !! 2016 = Some (Some e) →
     ∃ c, continent r = Some c ∧ c ∈ CONTINENTS) →
  for_each (λ '(continents_emissions, continents_total) '(region_name, region),
      let continent := continent region in
      emissions ← dict_get (co2_emissions region) 2016;
      match emissions with
      | None => Ok (continents_emissions, continents_total)
      | Some emissions =>
          match continent with
          | None => Err KeyError
          | Some continent =>
              total ← Dict.get continents_total continent;
              let continents_total := Dict.set continent (S total) continents_total in
              sum ← Dict.get continents_emissions continent;
              let continents_emissions :=
                Dict.set continent (num_add sum emissions) continents_emissions in
              Ok (continents_emissions, continents_total)
          end
      end)
    regions (table_of CONTINENTS sum, table_of CONTINENTS count) =
  Ok (table_of CONTINENTS (λ c, sum c + sum_of id (emissions_of c regions)),
      table_of CONTINENTS (λ c, (count c + length (emissions_of c regions))%nat)).
Proof.
  revert sum count. induction regions as [|[k r] regions IH];
    intros sum count Hkeys Hcont.
  - cbn [for_each]. f_equal. f_equal; apply table_ext; intros c _; cbn; [ring|lia].
  - cbn [for_each]. cbn zeta. destruct (Hkeys k r) as [o Ho]; [left|].
    rewrite (proj2 (dict_get_Ok _ _ _) Ho). cbn [mbind result_bind].
    assert (∀ k' r', (k', r') ∈ regions → is_Some (co2_emissions r' !! 2016))
      as Hkeys' by (intros; eapply Hkeys; by right).
    assert (∀ k' r' e, (k', r') ∈ regions →
      co2_emissions r' !! 2016 = Some (Some e) →
      ∃ c, continent r' = Some c ∧ c ∈ CONTINENTS)
      as Hcont' by (intros; eapply Hcont; [by right|done]).
    destruct o as [e|].
    + destruct (Hcont k r e) as (c & Hc & Hin); [left|done|]. rewrite Hc.
      repeat (rewrite table_get by done; cbn [mbind result_bind]; cbn zeta).
      rewrite !table_set by (done || apply NoDup_CONTINENTS).
      etrans; [by apply IH|]. f_equal. f_equal; apply table_ext; intros c' _;
        rewrite emissions_of_cons, Hc, Ho; cbn [default id].
      * destruct (decide (c' = c)) as [->|Hne].
        -- rewrite decide_True by done. rewrite sum_of_cons. cbn. ring.
        -- rewrite decide_False by congruence. done.
      * destruct (decide (c' = c)) as [->|Hne].
        -- rewrite decide_True by done. cbn [length]. lia.
        -- rewrite decide_False by congruence. done.
    + etrans; [by apply IH|]. f_equal. f_equal; apply table_ext; intros c' _;
        rewrite emissions_of_cons, Ho; cbn [default id]; by case_decide.
Qed.

(** The second loop: the rows of the table. *)
Lemma rows_loop (keys : list string) (sum : string → Qc) (count : string → nat)
    (continents_total : list (string * nat)) (names : list string)
    (averages : list Qc) :
  (∀ c, c ∈ keys → Dict.get continents_total c = Ok (count c)) →
  for_each (λ '(names, averages) '(continent, emissions),
      total ← Dict.get continents_total continent;
      if (total =? 0)%nat then Ok (names, averages)
      else
        average ← true_div emissions (num_of_nat total);
        Ok (names ++ [continent], averages ++ [average]))
    (table_of keys sum) (names, averages) =
  Ok (names ++ filter (λ c, count c ≠ 0%nat) keys,
      averages ++ ((λ c, sum c / Qc_of_Z (Z.of_nat (count c))) <$>
                     filter (λ c, count c ≠ 0%nat) keys)).
Proof.
  revert names averages. induction keys as [|c keys IH]; intros names averages Hget.
  - cbn. by rewrite !app_nil_r.
  - unfold table_of. cbn [fmap list_fmap for_each]. rewrite Hget by left.
    cbn [mbind result_bind]. rewrite filter_cons.
    fold (table_of keys sum). destruct (count c) as [|n] eqn:Hcount.
    + cbn [Nat.eqb]. rewrite decide_False by (by intros ?).
      apply IH. intros; apply Hget. by right.
    + cbn [Nat.eqb]. rewrite decide_True by done.
      unfold true_div. cbn [num_is_zero num_quot num_of_nat Qc_num].
      rewrite bool_decide_false by apply Qc_of_nat_S_nonzero.
      cbn [mbind result_bind]. rewrite IH by (intros; apply Hget; by right).
      rewrite fmap_cons, Hcount. by rewrite <-!(assoc_L (++)).
Qed.
Lemma bind_Ok_eq {T U : Type} (r : result T) (k : T → result U) (v : T)
    (res : result U) :
  r = Ok v → k v = res → r ≫= k = res.
Proof. by intros -> <-. Qed.

Lemma bind_Err_eq {T U : Type} (r : result T) (k : T → result U) (e : exn) :
  r = Err e → r ≫= k = Err e.
Proof. by intros ->. Qed.

Lemma Dict_get_cases {V : Type} (d : list (string * V)) (k : string) :
  (k ∈ Dict.keys d ∧ ∃ v, Dict.get d k = Ok v) ∨
  ((k ∉ Dict.keys d) ∧ Dict.get d k = Err KeyError).
Proof.
  unfold Dict.get. destruct (Dict.find d k) as [v|] eqn:Hfind.
  - left. split; [|by eauto]. destruct (decide (k ∈ Dict.keys d)) as [|Hk]; [done|].
    apply Dict_find_None in Hk. congruence.
  - right. split; [|done]. by apply Dict_find_None.
Qed.

(** The first loop fails at a region that has emissions and whose
    continent is not a key. *)
Lemma tally_loop_Err regions (continents_emissions : list (string * Qc))
    (continents_total : list (string * nat)) :
  Dict.keys continents_emissions = CONTINENTS →
  Dict.keys continents_total = CONTINENTS →
  (∀ k r, (k, r) ∈ regions → is_Some (co2_emissions r !! 2016)) →
  (∃ k r e, (k, r) ∈ regions ∧ co2_emissions r !! 2016 = Some (Some e) ∧
     ∀ c, continent r = Some c → c ∉ CONTINENTS) →
  for_each (λ '(continents_emissions, continents_total) '(region_name, region),
      let continent := continent region in
      emissions ← dict_get (co2_emissions region) 2016;
      match emissions with
      | None => Ok (continents_emissions, continents_total)
      | Some emissions =>
          match continent with
          | None => Err KeyError
          | Some continent =>
              total ← Dict.get continents_total continent;
              let continents_total := Dict.set continent (S total) continents_total in
              sum ← Dict.get continents_emissions continent;
              let continents_emissions :=
                Dict.set continent (num_add sum emissions) continents_emissions in
              Ok (continents_emissions, continents_total)
          end
      end)
    regions (continents_emissions, continents_total) = Err KeyError.
Proof.
  revert continents_emissions continents_total.
  induction regions as [|[k r] regions IH];
    intros ce ct Hce Hct Hkeys (k0 & r0 & e0 & Hin & He0 & Hbad).
  - by apply elem_of_nil in Hin.
  - assert (∀ k' r', (k', r') ∈ regions → is_Some (co2_emissions r' !! 2016))
      as Hkeys' by (intros; eapply Hkeys; by right).
    cbn [for_each]. destruct (Hkeys k r) as [o Ho]; [left|].
    rewrite (proj2 (dict_get_Ok _ _ _) Ho). cbn [mbind result_bind].
    destruct o as [e|].
    + destruct (continent r) as [c|] eqn:Hc; [|done].
      destruct (Dict_get_cases ct c) as [[Hmem [total ->]]|[_ ->]]; [|done].
      cbn [mbind result_bind].
      destruct (Dict_get_cases ce c) as [[Hmem' [sum ->]]|[_ ->]]; [|done].
      cbn [mbind result_bind]. apply IH; [by rewrite Dict_keys_set_mem..|done|].
      apply elem_of_cons in Hin as [[= <- <-]|Hin]; [|by eauto 10].
      destruct (Hbad c Hc). by rewrite <-Hct.
    + apply IH; [done..|].
      apply elem_of_cons in Hin as [[= <- <-]|Hin]; [congruence|by eauto 10].
Qed.

(** X19. In exact arithmetic, when every region has an entry for 2016 in
    its CO2 series: if every region with emissions in 2016 is of one of the
    seven continents, [location_and_emissions] lists the continents that
    have such a region, in the order of the dictionary, with the mean of
    their emissions of 2016; if a region with emissions in 2016 is of no
    continent of the seven, it raises [KeyError]. *)
Theorem location_and_emissions_table regions :
  (∀ k r, (k, r) ∈ regions → is_Some (co2_emissions r !! 2016)) →
  ((∀ k r e, (k, r) ∈ regions → co2_emissions r !! 2016 = Some (Some e) →
      ∃ c, continent r = Some c ∧ c ∈ CONTINENTS) →
   FinalReport.location_and_emissions regions =
     Ok (filter (λ c, length (emissions_of c regions) ≠ 0%nat) CONTINENTS,
         (λ c, mean_of id (emissions_of c regions)) <$>
           filter (λ c, length (emissions_of c regions) ≠ 0%nat) CONTINENTS)) ∧
  ((∃ k r e, (k, r) ∈ regions ∧ co2_emissions r !! 2016 = Some (Some e) ∧
      ∀ c, continent r = Some c → c ∉ CONTINENTS) →
   FinalReport.location_and_emissions regions = Err KeyError).
Proof.
  intros Hkeys. unfold FinalReport.location_and_emissions. cbn zeta. split.
  - intros Hcont.
    pose proof (tally_loop regions (λ _, 0) (λ _, 0%nat) Hkeys Hcont) as Hloop.
    eapply bind_Ok_eq; [exact Hloop|]. cbv beta iota.
    etrans; [apply (rows_loop CONTINENTS _
      (λ c, (0 + length (emissions_of c regions))%nat))|].
    + intros c Hc.
      exact (table_get CONTINENTS
               (λ c, (0 + length (emissions_of c regions))%nat) c Hc).
    + cbn [app]. f_equal. f_equal. apply list_fmap_ext. intros i c _.
      unfold mean_of. cbn [Nat.add]. f_equal. ring.
  - intros Hbad. eapply bind_Err_eq. by apply tally_loop_Err.
Qed.
End Continents.


Lemma average_damage_helping_regions_cases_witness :
  FinalReport.average_damage_helping_regions (λ _ : Qc, "") (λ (x : Qc) (_ : Z), x)
    [("X", scored_region "X" (Some (Qc_of_Z 1)))] = Err KeyError.
Proof.
  apply average_damage_helping_regions_cases.
  - apply (bool_decide_unpack _). by vm_compute.
  - simpl. lia.
Defined.

Lemma location_and_emissions_table_witness :
  FinalReport.location_and_emissions
    [("France", sample_emitter "France" "Europe" [(2016, Qc_of_Z 4)])]
    = Ok (["Europe"], [Qc_of_Z 4]) ∧
  FinalReport.location_and_emissions
    [("Atlantis", sample_emitter "Atlantis" "Atlantic" [(2016, Qc_of_Z 4)])]
    = Err KeyError.
Proof.
  split.
  - set (regions := [("France", sample_emitter "France" "Europe" [(2016, Qc_of_Z 4)])]).
    assert (∀ k r, (k, r) ∈ regions → is_Some (co2_emissions r !! 2016)) as Hkeys.
    { intros k r Hin. registry_cases Hin. by eexists. }
    rewrite (proj1 (location_and_emissions_table regions Hkeys)).
    + vm_compute. repeat first [ by apply Qc_is_canon | f_equal ].
    + intros k r e Hin He. registry_cases Hin. exists "Europe". split; [done|]. in_list.
  - set (regions :=
      [("Atlantis", sample_emitter "Atlantis" "Atlantic" [(2016, Qc_of_Z 4)])]).
    assert (∀ k r, (k, r) ∈ regions → is_Some (co2_emissions r !! 2016)) as Hkeys.
    { intros k r Hin. registry_cases Hin. by eexists. }
    apply (proj2 (location_and_emissions_table regions Hkeys)).
    exists "Atlantis", (sample_emitter "Atlantis" "Atlantic" [(2016, Qc_of_Z 4)]),
      (Qc_of_Z 4).
    split_and!; [by left|done|]. intros c [= <-].
    apply (bool_decide_unpack _). by vm_compute.
Defined.

(** ** The most common days *)

Section CommonTimes.
Implicit Types top : list (option (Z * Z * Z) * Z).
Implicit Types dates : list (Z * Z * Z * Z).

(** One run of the inner loop keeps the ten slots, and every slot it
    leaves is one it found or the new one. *)
Lemma common_place top (date : Z * Z * Z) (count : Z) (indices : list nat) top' :
  length top = 10%nat → (∀ i, i ∈ indices → (i < 10)%nat) →
  TweetAnalyser.place top date count indices = Ok top' →
  length top' = 10%nat ∧ ∀ e, e ∈ top' → e ∈ top ∨ e = (Some date, count).
Proof.
  intros Hlen. induction indices as [|i indices IH]; intros Hi; cbn [TweetAnalyser.place].
  - intros [= <-]. by eauto.
  - intros (e & He & Hrest)%bind_Ok. destruct (e.2 <? count).
    + injection Hrest as <-. assert (i < 10)%nat by (apply Hi; left). split.
      * rewrite length_take, length_app, length_take. cbn [length].
        rewrite length_drop. lia.
      * intros e' Hin%subseteq_take.
        apply elem_of_app in Hin as [Hin%subseteq_take|Hin]; [by left|].
        apply elem_of_cons in Hin as [->|Hin%subseteq_drop]; by eauto.
    + apply IH; [|done]. intros; apply Hi. by right.
Qed.

Lemma common_place_total top (date : Z * Z * Z) (count : Z) (indices : list nat) :
  length top = 10%nat → (∀ i, i ∈ indices → (i < 10)%nat) →
  ∃ top', TweetAnalyser.place top date count indices = Ok top'.
Proof.
  intros Hlen. induction indices as [|i indices IH]; intros Hi;
    cbn [TweetAnalyser.place]; [by eauto|].
  destruct (list_get_lt top i) as [e ->]; [rewrite Hlen; apply Hi; left|].
  cbn [mbind result_bind]. destruct (e.2 <? count); [by eauto|].
  apply IH. intros; apply Hi. by right.
Qed.

Lemma top10_loop dates top :
  length top = 10%nat →
  ∃ top',
    for_each (λ top10 '(date, count), TweetAnalyser.place top10 date count (range 10))
      dates top = Ok top' ∧
    length top' = 10%nat ∧
    ∀ e, e ∈ top' → e ∈ top ∨ ∃ d n, e = (Some d, n) ∧ (d, n) ∈ dates.
Proof.
  revert top. induction dates as [|[d n] dates IH]; intros top Hlen.
  - exists top. split_and!; [done..|]. by eauto.
  - assert (∀ i, i ∈ range 10 → (i < 10)%nat) as Hrange
      by (intros i [_ ?]%elem_of_seq; lia).
    destruct (common_place_total top d n (range 10) Hlen Hrange) as [top1 Htop1].
    destruct (common_place top d n (range 10) top1 Hlen Hrange Htop1)
      as [Hlen1 Hin1].
    destruct (IH top1 Hlen1) as (top' & Hloop & Hlen' & Hin').
    exists top'. cbn [for_each]. rewrite Htop1. cbn [mbind result_bind].
    split_and!; [done..|]. intros e He.
    destruct (Hin' e He) as [Hold|(d' & n' & -> & Hd')].
    + destruct (Hin1 e Hold) as [?| ->]; [by left|].
      right. exists d, n. split; [done|left].
    + right. exists d', n'. split; [done|by right].
Qed.

Lemma count_date_cases (date : Z * Z * Z) dates :
  ((date ∉ dates.*1) ∧ TweetAnalyser.count_date date dates = dates ++ [(date, 1)]) ∨
  (∃ l1 n l2, dates = l1 ++ (date, n) :: l2 ∧ (date ∉ l1.*1) ∧
     TweetAnalyser.count_date date dates = l1 ++ (date, n + 1) :: l2).
Proof.
  induction dates as [|[d n] dates IH]; cbn [TweetAnalyser.count_date].
  - left. split; [apply not_elem_of_nil|done].
  - destruct (decide (d = date)) as [->|Hne].
    + right. exists [], n, dates. split_and!; [done|apply not_elem_of_nil|done].
    + destruct IH as [[Hout ->]|(l1 & n' & l2 & -> & Hout & ->)].
      * left. split; [|done]. rewrite fmap_cons. by intros [?|?]%elem_of_cons.
      * right. exists ((d, n) :: l1), n', l2. split_and!; [done| |done].
        rewrite fmap_cons. by intros [?|?]%elem_of_cons.
Qed.

Lemma tweets_on_snoc (day : Z * Z * Z) (tweets : list Tweet) (tweet : Tweet) :
  tweets_on day (tweets ++ [tweet]) =
    tweets_on day tweets
    + (if decide (TweetAnalyser.date_of (date tweet) = day) then 1 else 0).
Proof.
  unfold tweets_on. rewrite filter_app, length_app, filter_cons, filter_nil.
  case_decide; cbn [length]; lia.
Qed.

(** The dictionary of the days: one entry for each day, not of 2020, that
    has a tweet, with the number of its tweets. *)
Lemma dates_dictionary (tweets : list Tweet) :
  let dates :=
    foldl (λ dates tweet,
        if datetime.year (date tweet) =? 2020 then dates
        else TweetAnalyser.count_date (TweetAnalyser.date_of (date tweet)) dates)
      [] tweets in
  NoDup dates.*1 ∧
  (∀ d n, (d, n) ∈ dates → d.1.1 ≠ 2020 ∧ n = tweets_on d tweets ∧ 0 < n) ∧
  (∀ tweet, tweet ∈ tweets → datetime.year (date tweet) ≠ 2020 →
     TweetAnalyser.date_of (date tweet) ∈ dates.*1).
Proof.
  induction tweets as [|tweet tweets IH] using rev_ind; cbn zeta in *.
  - cbn [foldl]. split_and!.
    + apply NoDup_nil_2.
    + by intros ?? ?%elem_of_nil.
    + by intros ? ?%elem_of_nil.
  - rewrite foldl_app. cbn [foldl].
    set (dates := foldl _ [] tweets) in *. destruct IH as (Hnd & Hcount & Hall).
    destruct (datetime.year (date tweet) =? 2020) eqn:Hyear.
    + apply Z.eqb_eq in Hyear. split_and!; [done| |].
      * intros d n Hin. destruct (Hcount d n Hin) as (Hd & -> & Hpos).
        rewrite tweets_on_snoc. split_and!; [done| |lia].
        rewrite decide_False; [lia|]. intros <-. by destruct Hd.
      * intros t [Ht|Ht%list_elem_of_singleton]%elem_of_app Hne;
          [by apply Hall|by subst].
    + apply Z.eqb_neq in Hyear.
      set (day := TweetAnalyser.date_of (date tweet)).
      assert (day.1.1 ≠ 2020) as Hday by done.
      destruct (count_date_cases day dates)
        as [[Hout ->]|(l1 & n0 & l2 & Hdates & Hout & ->)].
      * assert (tweets_on day tweets = 0) as Hzero.
        { unfold tweets_on.
          destruct (filter _ tweets) as [|t ts] eqn:Hfilter; [done|exfalso].
          assert (t ∈ filter (λ tweet, TweetAnalyser.date_of (date tweet) = day)
                    tweets) as [Ht Hin]%list_elem_of_filter
            by (rewrite Hfilter; left).
          apply Hout. rewrite <-Ht. apply Hall; [done|].
          by rewrite <-Ht in Hday. }
        split_and!.
        -- rewrite fmap_app. apply NoDup_app. split_and!; [done| |apply NoDup_singleton].
           intros d Hd Hd'%list_elem_of_singleton. by subst.
        -- intros d n [Hin|Hin%list_elem_of_singleton]%elem_of_app;
             [|injection Hin as -> ->].
           ++ destruct (Hcount d n Hin) as (Hd & -> & Hpos).
              rewrite tweets_on_snoc. split_and!; [done| |lia].
              rewrite decide_False; [lia|]. intros Heq. apply Hout.
              fold day in Heq. rewrite Heq.
              by apply (list_elem_of_fmap_2 fst _ (d, tweets_on d tweets)).
           ++ rewrite tweets_on_snoc, Hzero. fold day. rewrite decide_True by done.
              split_and!; [done|lia..].
        -- intros t [Ht|Ht%list_elem_of_singleton]%elem_of_app Hne.
           ++ rewrite fmap_app. apply elem_of_app. left. by apply Hall.
           ++ subst t. rewrite fmap_app. apply elem_of_app. right. by left.
      * rewrite Hdates in Hnd, Hcount, Hall.
        rewrite fmap_app, fmap_cons in Hnd, Hall |- *. cbn [fst] in *.
        split_and!; [done| |].
        2:{ intros t [Ht|Ht%list_elem_of_singleton]%elem_of_app Hne; [by apply Hall|].
            subst t. apply elem_of_app. right. left. }
        assert (day ∉ l2.*1) as Hout2.
        { apply NoDup_app in Hnd as (_ & _ & [? _]%NoDup_cons). done. }
        intros d n Hin.
        assert ((d ≠ day ∧ (d, n) ∈ l1 ++ (day, n0) :: l2) ∨ (d, n) = (day, n0 + 1))
          as [[Hne Hold]|[= -> ->]].
        { apply elem_of_app in Hin as [Hin|[?|Hin]%elem_of_cons]; [| by right|].
          - left. split; [|apply elem_of_app; by left].
            intros ->. apply Hout. by apply (list_elem_of_fmap_2 fst _ (day, n)).
          - left. split; [|apply elem_of_app; right; by right].
            intros ->. apply Hout2. by apply (list_elem_of_fmap_2 fst _ (day, n)). }
        -- destruct (Hcount d n Hold) as (Hd & -> & Hpos).
           rewrite tweets_on_snoc. fold day. rewrite decide_False by done.
           split_and!; [done|lia|lia].
        -- destruct (Hcount day n0) as (Hd & -> & Hpos).
           { apply elem_of_app. right. left. }
           rewrite tweets_on_snoc. fold day. rewrite decide_True by done.
           split_and!; [done|lia|lia].
Qed.

(** X17. [common_times] never raises and returns ten entries; each is an
    empty slot [(None, 0)] or a day, not of the year 2020, with the number
    of tweets of that day, which is positive. *)
Theorem common_times_entries (tweets : list Tweet) :
  ∃ top10,
    TweetAnalyser.common_times tweets = Ok top10 ∧
    length top10 = 10%nat ∧
    ∀ e, e ∈ top10 →
      e = (None, 0) ∨
      ∃ day, e = (Some day, tweets_on day tweets) ∧ day.1.1 ≠ 2020 ∧
             0 < tweets_on day tweets.
Proof.
  unfold TweetAnalyser.common_times. cbn zeta.
  destruct (dates_dictionary tweets) as (_ & Hcount & _). cbn zeta in Hcount.
  set (dates := foldl _ [] tweets) in *.
  destruct (top10_loop dates (replicate 10 (None, 0))) as (top10 & Hloop & Hlen & Hin);
    [apply length_replicate|].
  exists top10. split_and!; [done..|]. intros e He.
  destruct (Hin e He) as [Hslot|(d & n & -> & Hd)].
  - left. by apply elem_of_replicate in Hslot as [-> _].
  - right. destruct (Hcount d n Hd) as (Hyear & -> & Hpos). by exists d.
Qed.
End CommonTimes.

(** ** The file of the country names, and the aliases of the opinion file *)

Lemma for_each_Ok_each {S X : Type} (body : S → X → result S) (xs : list X) (s s' : S) :
  for_each body xs s = Ok s' → ∀ x, x ∈ xs → ∃ s1 s2, body s1 x = Ok s2.
Proof.
  revert s. induction xs as [|x0 xs IH]; intros s Hloop x Hx.
  - by apply elem_of_nil in Hx.
  - cbn [for_each] in Hloop. apply bind_Ok in Hloop as (s1 & Hs1 & Hrest).
    apply elem_of_cons in Hx as [->|Hx]; [by eauto|by eapply IH].
Qed.

Lemma Dict_keys_remove {V : Type} (d : list (string * V)) (k k' : string) :
  k' ∈ Dict.keys (Dict.remove k d) → k' ∈ Dict.keys d.
Proof.
  unfold Dict.keys. induction d as [|[k0 v0] d IH]; [done|]. cbn [Dict.remove].
  case_decide; rewrite !fmap_cons; [by right|].
  intros [->|Hin]%elem_of_cons; [left|right; by apply IH].
Qed.

Section CountryNames.
Context {A : Type} `{PyNum A}.
Implicit Types regions : list (string * Region A).

(** X8. When [initialise_regions] returns, every line of the file after
    the header parses, and the file has a line for "United Kingdom of Great
    Britain & Northern Ireland" and one for "United States of America": the
    two entries that are renamed are read from the dictionary, not looked
    for. *)
Theorem initialise_regions_requires (data : list string) regions :
  DataSet.initialise_regions data = Ok regions →
  (∀ line, line ∈ drop 1 data → ∃ name continent,
     DataSet.parse_csv_line line = Ok (name, continent)) ∧
  (∃ line continent, line ∈ drop 1 data ∧
     DataSet.parse_csv_line line =
       Ok ("United Kingdom of Great Britain & Northern Ireland", continent)) ∧
  (∃ line continent, line ∈ drop 1 data ∧
     DataSet.parse_csv_line line = Ok ("United States of America", continent)).
Proof.
  unfold DataSet.initialise_regions.
  intros (regs & Hloop & (uk & Huk & (regs1 & Hdel & Hrest)%bind_Ok)%bind_Ok)%bind_Ok.
  apply bind_Ok in Hrest as (us & Hus & _).
  assert (∀ name, name ∈ Dict.keys regs → ∃ line continent, line ∈ drop 1 data ∧
    DataSet.parse_csv_line line = Ok (name, continent)) as Hnames.
  { eapply (for_each_invariant (λ regs : list (string * Region A),
      ∀ name, name ∈ Dict.keys regs → ∃ line continent, line ∈ drop 1 data ∧
        DataSet.parse_csv_line line = Ok (name, continent))); [| |exact Hloop].
    - intros regs0 line regs' Hline Hregs0 ([name continent] & Hparse & [= <-])%bind_Ok.
      intros name' [->|Hin]%Dict_elem_of_keys_set; [by eauto|by apply Hregs0].
    - by intros name ?%elem_of_nil. }
  split_and!.
  - intros line Hline.
    destruct (for_each_Ok_each _ _ _ _ Hloop line Hline) as (s1 & s2 & Hbody).
    apply bind_Ok in Hbody as ([name continent] & Hparse & _). by eauto.
  - apply Hnames. by eapply Dict_get_Ok_mem.
  - apply Hnames. apply Dict_get_Ok_mem in Hus.
    apply Dict_elem_of_keys_set in Hus as [?|Hus]; [done|].
    unfold Dict.del in Hdel. destruct (Dict.mem _ regs); [|done].
    injection Hdel as <-. by eapply Dict_keys_remove.
Qed.
End CountryNames.

Lemma initialise_regions_requires_witness :
  (∀ line, line ∈ drop 1 sample_country_names → ∃ name continent,
     DataSet.parse_csv_line line = Ok (name, continent)) ∧
  (∃ line continent, line ∈ drop 1 sample_country_names ∧
     DataSet.parse_csv_line line =
       Ok ("United Kingdom of Great Britain & Northern Ireland", continent)) ∧
  (∃ line continent, line ∈ drop 1 sample_country_names ∧
     DataSet.parse_csv_line line = Ok ("United States of America", continent)).
Proof.
  destruct (DataSet.initialise_regions (A:=Qc) sample_country_names)
    as [regions|e] eqn:Hregions.
  - exact (initialise_regions_requires sample_country_names regions Hregions).
  - pose proof sample_regions_run as Hruns. by rewrite Hregions in Hruns.
Defined.

Section OpinionAliases.
Context {A : Type} `{PyNum A}.
Variable int : string → option Z.
Implicit Types regions : list (string * Region A).

(** X12. In the opinion file a line whose first cell is "U.S." (or "UK"),
    while the registry has no region of that name, is read as the same line
    with the first cell "United States" (or "United Kingdom") is. *)
Theorem climate_opinion_aliases (alias name : string) (data1 data2 : list string)
    (line line' : string) (cells : list string) regions :
  (alias, name) ∈ [("U.S.", "United States"); ("UK", "United Kingdom")] →
  alias ∉ Dict.keys regions → name ∈ Dict.keys regions →
  Str.split Str.tab line = alias :: cells →
  Str.split Str.tab line' = name :: cells →
  DataSet.initialise_climate_opinion int (data1 ++ line :: data2) regions =
    DataSet.initialise_climate_opinion int (data1 ++ line' :: data2) regions.
Proof.
  intros Halias Hout Hin Hline Hline'. unfold DataSet.initialise_climate_opinion.
  match goal with |- for_each ?f _ _ = _ => set (body := f) end.
  rewrite !for_each_app.
  destruct (for_each body data1 regions) as [regs|e] eqn:Hregs;
    cbn [mbind result_bind]; [|done].
  apply (initialise_climate_opinion_names int) in Hregs.
  cbn [for_each].
  assert (body regs line = body regs line') as ->; [|done].
  unfold body. rewrite Hline, Hline'.
  cbn [list_get lookup list_lookup mbind result_bind].
  rewrite <-Hregs in Hout, Hin. unfold Dict.mem.
  rewrite (bool_decide_false (alias ∈ _)), (bool_decide_true (name ∈ _)) by done.
  apply elem_of_cons in Halias as [[= -> ->]|Halias]; [done|].
  apply list_elem_of_singleton in Halias as [= -> ->]. done.
Qed.
End OpinionAliases.

Lemma climate_opinion_aliases_witness :
  DataSet.initialise_climate_opinion sample_int
    ([tsv ["France"; "60%."]] ++ tsv ["U.S."; "45%."] :: [])
    [("France", new_Region (A:=Qc) "France" "Europe");
     ("United States", new_Region "United States of America" "North America")] =
  DataSet.initialise_climate_opinion sample_int
    ([tsv ["France"; "60%."]] ++ tsv ["United States"; "45%."] :: [])
    [("France", new_Region "France" "Europe");
     ("United States", new_Region "United States of America" "North America")].
Proof.
  apply (climate_opinion_aliases sample_int "U.S." "United States" _ _ _ _ ["45%."]).
  - by left.
  - apply (bool_decide_unpack _). by vm_compute.
  - apply (bool_decide_unpack _). by vm_compute.
  - reflexivity.
  - reflexivity.
Defined.

(** ** The figures of final_report.py *)

Section Figures.
Context {A : Type} `{PyNum A}.
Implicit Types regions : list (string * Region A).
Implicit Types pts : list (A * A).

Lemma points_of_cons (x_of y_of : Region A → option A) (k : string)
    (r : Region A) regions :
  points_of x_of y_of ((k, r) :: regions) =
    match x_of r, y_of r with
    | Some x, Some y => (x, y) :: points_of x_of y_of regions
    | _, _ => points_of x_of y_of regions
    end.
Proof.
  unfold points_of. cbn [omap list_omap fst snd]. by destruct (x_of r), (y_of r).
Qed.

Lemma in_2016_lookup (var : Region A → gmap Z (option A)) (r : Region A)
    (v : option A) :
  var r !! 2016 = Some v → in_2016 var r = v.
Proof. unfold in_2016. by intros ->. Qed.

(** Without points there is no mean. *)
Lemma linear_plot_nil :
  num_is_zero (num_of_nat 0) = true →
  Plots.linear_plot (A:=A) [] [] = Err ZeroDivisionError.
Proof.
  intros Hzero.
  unfold Plots.linear_plot, Regression.linear_regression, Regression.mean, true_div.
  cbn [length]. by rewrite Hzero.
Qed.

(** The loops that collect the points. *)
Lemma denial_and_energy_production_loop regions (xs ys : list A) :
  (∀ k r, (k, r) ∈ regions → is_Some (percentage_concerned r) →
     is_Some (renewable_energy r !! 2016)) →
  for_each (λ '(x_values, y_values) '(region, r),
      let concerned := percentage_concerned r in
      match concerned with
      | Some concerned =>
          renewable_energy ← dict_get (renewable_energy r) 2016;
          match renewable_energy with
          | Some renewable_energy =>
              Ok (x_values ++ [num_of_int concerned], y_values ++ [renewable_energy])
          | None => Ok (x_values, y_values)
          end
      | None => Ok (x_values, y_values)
      end)
    regions (xs, ys) =
  Ok (xs ++ (points_of concerned_of (in_2016 renewable_energy) regions).*1,
      ys ++ (points_of concerned_of (in_2016 renewable_energy) regions).*2).
Proof.
  revert xs ys. induction regions as [|[k r] regions IH]; intros xs ys Hkeys.
  - cbn. by rewrite !app_nil_r.
  - assert (∀ k r, (k, r) ∈ regions → is_Some (percentage_concerned r) →
      is_Some (renewable_energy r !! 2016)) as Hkeys'
      by (intros; eapply Hkeys; [by right|done]).
    rewrite points_of_cons.
    assert (concerned_of r = num_of_int <$> percentage_concerned r) as -> by done.
    cbn [for_each]. cbn zeta.
    destruct (percentage_concerned r) as [c|] eqn:Hc;
      cbn [fmap option_fmap option_map mbind result_bind]; [|by apply IH].
    destruct (Hkeys k r) as [v Hv]; [left|by rewrite Hc|].
    rewrite (in_2016_lookup renewable_energy r v Hv).
    rewrite (proj2 (dict_get_Ok _ _ _) Hv). cbn [mbind result_bind].
    destruct v as [v|]; cbn [mbind result_bind]; [|by apply IH].
    etrans; [by apply IH|]. cbn [fmap list_fmap fst snd].
    by rewrite <-!(assoc_L (++)).
Qed.

Lemma denial_and_carbon_tax_loop regions (xs ys : list A) :
  for_each (λ '(x_values, y_values) '(region, r),
      let concerned := percentage_concerned r in
      match concerned with
      | Some concerned =>
          let carbon_tax := has_carbon_tax r in
          if carbon_tax
          then Ok (x_values ++ [num_of_int concerned], y_values ++ [num_of_int 1])
          else if negb carbon_tax
          then Ok (x_values ++ [num_of_int concerned], y_values ++ [num_of_int 0])
          else Ok (x_values, y_values)
      | None => Ok (x_values, y_values)
      end)
    regions (xs, ys) =
  Ok (xs ++ (points_of concerned_of tax_of regions).*1,
      ys ++ (points_of concerned_of tax_of regions).*2).
Proof.
  revert xs ys. induction regions as [|[k r] regions IH]; intros xs ys.
  - cbn. by rewrite !app_nil_r.
  - rewrite points_of_cons.
    assert (concerned_of r = num_of_int <$> percentage_concerned r) as -> by done.
    assert (tax_of r = Some (num_of_int (if has_carbon_tax r then 1 else 0))) as ->
      by done.
    cbn [for_each]. cbn zeta.
    destruct (percentage_concerned r) as [c|];
      cbn [fmap option_fmap option_map mbind result_bind]; [|by apply IH].
    destruct (has_carbon_tax r); cbn [negb mbind result_bind];
      (etrans; [by apply IH|]); cbn [fmap list_fmap fst snd];
      by rewrite <-!(assoc_L (++)).
Qed.

Lemma gdp_per_capita_and_carbon_taxes_loop regions (xs ys : list A) :
  (∀ k r, (k, r) ∈ regions → is_Some (gdp_per_capita r !! 2016)) →
  for_each (λ '(x_values, y_values) '(region, r),
      gdp_per_capita ← dict_get (gdp_per_capita r) 2016;
      match gdp_per_capita with
      | Some gdp_per_capita =>
          let carbon_tax := has_carbon_tax r in
          if carbon_tax
          then Ok (x_values ++ [gdp_per_capita], y_values ++ [num_of_int 1])
          else if negb carbon_tax
          then Ok (x_values ++ [gdp_per_capita], y_values ++ [num_of_int 0])
          else Ok (x_values, y_values)
      | None => Ok (x_values, y_values)
      end)
    regions (xs, ys) =
  Ok (xs ++ (points_of (in_2016 gdp_per_capita) tax_of regions).*1,
      ys ++ (points_of (in_2016 gdp_per_capita) tax_of regions).*2).
Proof.
  revert xs ys. induction regions as [|[k r] regions IH]; intros xs ys Hkeys.
  - cbn. by rewrite !app_nil_r.
  - destruct (Hkeys k r) as [v Hv]; [left|].
    assert (∀ k r, (k, r) ∈ regions → is_Some (gdp_per_capita r !! 2016)) as Hkeys'
      by (intros; eapply Hkeys; by right).
    rewrite points_of_cons, (in_2016_lookup gdp_per_capita r v Hv).
    assert (tax_of r = Some (num_of_int (if has_carbon_tax r then 1 else 0))) as ->
      by done.
    cbn [for_each]. cbn zeta.
    rewrite (proj2 (dict_get_Ok _ _ _) Hv). cbn [mbind result_bind].
    destruct v as [v|]; cbn [mbind result_bind]; [|by apply IH].
    destruct (has_carbon_tax r); cbn [negb mbind result_bind];
      (etrans; [by apply IH|]); cbn [fmap list_fmap fst snd];
      by rewrite <-!(assoc_L (++)).
Qed.

Lemma damage_and_emissions_loop regions (xs0 xs1 ys0 ys1 : list A) :
  (∀ k r, (k, r) ∈ regions → is_Some (projected_damage r) →
     is_Some (co2_emissions r !! 2016) ∧ is_Some (co2_emissions_per_capita r !! 2016)) →
  for_each (λ '(x0_values, x1_values, y0_values, y1_values) '(region, r),
      let concerned := projected_damage r in
      match concerned with
      | Some concerned =>
          emissions ← dict_get (co2_emissions r) 2016;
          emissions_per_capita ← dict_get (co2_emissions_per_capita r) 2016;
          let '(x0_values, y0_values) :=
            match emissions with
            | Some emissions => (x0_values ++ [concerned], y0_values ++ [emissions])
            | None => (x0_values, y0_values)
            end in
          let '(x1_values, y1_values) :=
            match emissions_per_capita with
            | Some emissions_per_capita =>
                (x1_values ++ [concerned], y1_values ++ [emissions_per_capita])
            | None => (x1_values, y1_values)
            end in
          Ok (x0_values, x1_values, y0_values, y1_values)
      | None => Ok (x0_values, x1_values, y0_values, y1_values)
      end)
    regions (xs0, xs1, ys0, ys1) =
  Ok (xs0 ++ (points_of projected_damage (in_2016 co2_emissions) regions).*1,
      xs1 ++ (points_of projected_damage (in_2016 co2_emissions_per_capita) regions).*1,
      ys0 ++ (points_of projected_damage (in_2016 co2_emissions) regions).*2,
      ys1 ++ (points_of projected_damage (in_2016 co2_emissions_per_capita) regions).*2).
Proof.
  revert xs0 xs1 ys0 ys1.
  induction regions as [|[k r] regions IH]; intros xs0 xs1 ys0 ys1 Hkeys.
  - cbn. by rewrite !app_nil_r.
  - assert (∀ k r, (k, r) ∈ regions → is_Some (projected_damage r) →
      is_Some (co2_emissions r !! 2016) ∧ is_Some (co2_emissions_per_capita r !! 2016))
      as Hkeys' by (intros; eapply Hkeys; [by right|done]).
    rewrite !points_of_cons. cbn [for_each]. cbn zeta.
    destruct (projected_damage r) as [c|] eqn:Hc; cbn [mbind result_bind];
      [|by apply IH].
    destruct (Hkeys k r) as [[v Hv] [w Hw]]; [left|by rewrite Hc|].
    rewrite (in_2016_lookup co2_emissions r v Hv),
      (in_2016_lookup co2_emissions_per_capita r w Hw).
    rewrite (proj2 (dict_get_Ok _ _ _) Hv), (proj2 (dict_get_Ok _ _ _) Hw).
    cbn [mbind result_bind].
    destruct v as [v|], w as [w|]; cbn [mbind result_bind];
      (etrans; [by apply IH|]);
      cbn [fmap list_fmap fst snd]; by rewrite <-?(assoc_L (++)).
Qed.

(** X27. For every number type.  [denial_and_energy_production] reads the
    renewable energy of 2016 of the regions that have a percentage
    concerned, and of no other: it raises [KeyError] when such a region
    lacks the year 2016.  Otherwise its numbers are the fit of the points
    (percentage, energy of 2016) of the regions that have both, in the
    order of the registry, and it raises [ZeroDivisionError] when no region
    has both (the length [0] being a number that is zero). *)
Theorem denial_and_energy_production_cases regions :
  ((∃ k r, (k, r) ∈ regions ∧ is_Some (percentage_concerned r) ∧
           renewable_energy r !! 2016 = None) →
   FinalReport.denial_and_energy_production regions = Err KeyError) ∧
  ((∀ k r, (k, r) ∈ regions → is_Some (percentage_concerned r) →
      is_Some (renewable_energy r !! 2016)) →
   FinalReport.denial_and_energy_production regions =
     Plots.linear_plot (points_of concerned_of (in_2016 renewable_energy) regions).*1
       (points_of concerned_of (in_2016 renewable_energy) regions).*2 ∧
   (num_is_zero (num_of_nat 0) = true →
    points_of concerned_of (in_2016 renewable_energy) regions = [] →
    FinalReport.denial_and_energy_production regions = Err ZeroDivisionError)).
Proof.
  unfold FinalReport.denial_and_energy_production. split.
  - intros (k & r & Hin & [c Hc] & Hmissing).
    rewrite (for_each_Err KeyError); [done| |].
    + intros [xs ys] [k' r'] _. cbn zeta.
      destruct (percentage_concerned r'); [|by eauto]. unfold dict_get.
      destruct (renewable_energy r' !! 2016) as [[v|]|]; cbn [mbind result_bind];
        by eauto.
    + exists (k, r). split; [done|]. intros [xs ys]. cbn zeta. rewrite Hc.
      unfold dict_get. by rewrite Hmissing.
  - intros Hkeys. rewrite denial_and_energy_production_loop by done.
    cbn [mbind result_bind app]. split; [done|]. intros Hzero ->.
    by apply linear_plot_nil.
Qed.

(** X28. For every number type.  The numbers of [denial_and_carbon_tax]
    are the fit of the points (percentage, mark) of the regions that have a
    percentage concerned, in the order of the registry, the mark being [1]
    with a carbon tax and [0] without; when no region has a percentage, it
    raises [ZeroDivisionError]. *)
Theorem denial_and_carbon_tax_cases regions :
  FinalReport.denial_and_carbon_tax regions =
    Plots.linear_plot (points_of concerned_of tax_of regions).*1
      (points_of concerned_of tax_of regions).*2 ∧
  (points_of concerned_of tax_of regions =
     omap (λ e, c ← percentage_concerned e.2;
                Some (num_of_int c, num_of_int (if has_carbon_tax e.2 then 1 else 0)))
       regions) ∧
  (num_is_zero (num_of_nat 0) = true →
   (∀ k r, (k, r) ∈ regions → percentage_concerned r = None) →
   FinalReport.denial_and_carbon_tax regions = Err ZeroDivisionError).
Proof.
  unfold FinalReport.denial_and_carbon_tax.
  rewrite denial_and_carbon_tax_loop. cbn [mbind result_bind app].
  assert (points_of concerned_of tax_of regions =
     omap (λ e, c ← percentage_concerned e.2;
                Some (num_of_int c, num_of_int (if has_carbon_tax e.2 then 1 else 0)))
       regions) as Hpts.
  { unfold points_of, concerned_of, tax_of. apply list_omap_ext, Forall2_same_length_lookup.
    split; [done|]. intros i e e' He He'. rewrite He in He'. injection He' as <-.
    by destruct (percentage_concerned e.2). }
  split_and!; [done|done|]. intros Hzero Hnone.
  assert (points_of concerned_of tax_of regions = []) as ->; [|by apply linear_plot_nil].
  rewrite Hpts. apply omap_nil. intros [k r] Hin. cbn [snd].
  by rewrite (Hnone k r Hin).
Qed.

(** X29. For every number type.  [gdp_per_capita_and_carbon_taxes] raises
    [KeyError] when a region lacks the year 2016 in its GDP per capita.
    Otherwise its numbers are the fit of the points (GDP per capita of
    2016, mark) of the regions that have a value in 2016, in the order of
    the registry, and it raises [ZeroDivisionError] when no region has
    one. *)
Theorem gdp_per_capita_and_carbon_taxes_cases regions :
  ((∃ k r, (k, r) ∈ regions ∧ gdp_per_capita r !! 2016 = None) →
   FinalReport.gdp_per_capita_and_carbon_taxes regions = Err KeyError) ∧
  ((∀ k r, (k, r) ∈ regions → is_Some (gdp_per_capita r !! 2016)) →
   FinalReport.gdp_per_capita_and_carbon_taxes regions =
     Plots.linear_plot (points_of (in_2016 gdp_per_capita) tax_of regions).*1
       (points_of (in_2016 gdp_per_capita) tax_of regions).*2 ∧
   (num_is_zero (num_of_nat 0) = true →
    points_of (in_2016 gdp_per_capita) tax_of regions = [] →
    FinalReport.gdp_per_capita_and_carbon_taxes regions = Err ZeroDivisionError)).
Proof.
  unfold FinalReport.gdp_per_capita_and_carbon_taxes. split.
  - intros (k & r & Hin & Hmissing).
    rewrite (for_each_Err KeyError); [done| |].
    + intros [xs ys] [k' r'] _. unfold dict_get.
      destruct (gdp_per_capita r' !! 2016) as [[v|]|]; cbn [mbind result_bind];
        [|by eauto..]. cbn zeta. destruct (has_carbon_tax r'); cbn [negb]; by eauto.
    + exists (k, r). split; [done|]. intros [xs ys]. unfold dict_get.
      by rewrite Hmissing.
  - intros Hkeys. rewrite gdp_per_capita_and_carbon_taxes_loop by done.
    cbn [mbind result_bind app]. split; [done|]. intros Hzero ->.
    by apply linear_plot_nil.
Qed.

(** Two figures: both lines are fitted before the first R² is computed,
    and the numbers of both are returned when each figure has its own. *)
Lemma two_figures (xs0 ys0 xs1 ys1 : list A) (f0 f1 : A * A * A) :
  ('(slope0, intercept0) ← Regression.linear_regression xs0 ys0;
   '(slope1, intercept1) ← Regression.linear_regression xs1 ys1;
   r_squared0 ← Regression.strength_of_correlation slope0 intercept0 xs0 ys0;
   r_squared1 ← Regression.strength_of_correlation slope1 intercept1 xs1 ys1;
   Ok ((slope0, intercept0, r_squared0), (slope1, intercept1, r_squared1)))
  = Ok (f0, f1) ↔
  Plots.linear_plot xs0 ys0 = Ok f0 ∧ Plots.linear_plot xs1 ys1 = Ok f1.
Proof.
  unfold Plots.linear_plot.
  destruct (Regression.linear_regression xs0 ys0) as [[s0 i0]|e0];
    cbn [mbind result_bind]; [|split; [done|by intros [? _]]].
  destruct (Regression.linear_regression xs1 ys1) as [[s1 i1]|e1];
    cbn [mbind result_bind].
  2:{ split; [done|]. intros [_ ?]. done. }
  destruct (Regression.strength_of_correlation s0 i0 xs0 ys0) as [r0|e0];
    cbn [mbind result_bind]; [|split; [done|by intros [? _]]].
  destruct (Regression.strength_of_correlation s1 i1 xs1 ys1) as [r1|e1];
    cbn [mbind result_bind].
  - split; [by intros [= <- <-]|by intros [[= <-] [= <-]]].
  - split; [done|]. intros [_ ?]. done.
Qed.

(** X30. For every number type.  [damage_and_emissions] reads the two CO2
    series of the regions that have a projected damage, and of no other: it
    raises [KeyError] when such a region lacks the year 2016 in one of
    them.  Otherwise it returns the numbers of two figures exactly when
    each of the two lists of points, (damage, emissions of 2016) and
    (damage, emissions per capita of 2016), has a fit, and the numbers are
    the two fits; it raises [ZeroDivisionError] when no region has a
    projected damage and a value of its emissions in 2016. *)
Theorem damage_and_emissions_cases regions :
  ((∃ k r, (k, r) ∈ regions ∧ is_Some (projected_damage r) ∧
           (co2_emissions r !! 2016 = None ∨
            co2_emissions_per_capita r !! 2016 = None)) →
   FinalReport.damage_and_emissions regions = Err KeyError) ∧
  ((∀ k r, (k, r) ∈ regions → is_Some (projected_damage r) →
      is_Some (co2_emissions r !! 2016) ∧
      is_Some (co2_emissions_per_capita r !! 2016)) →
   (∀ f0 f1,
      FinalReport.damage_and_emissions regions = Ok (f0, f1) ↔
      Plots.linear_plot (points_of projected_damage (in_2016 co2_emissions) regions).*1
        (points_of projected_damage (in_2016 co2_emissions) regions).*2 = Ok f0 ∧
      Plots.linear_plot
        (points_of projected_damage (in_2016 co2_emissions_per_capita) regions).*1
        (points_of projected_damage (in_2016 co2_emissions_per_capita) regions).*2
        = Ok f1) ∧
   (num_is_zero (num_of_nat 0) = true →
    points_of projected_damage (in_2016 co2_emissions) regions = [] →
    FinalReport.damage_and_emissions regions = Err ZeroDivisionError)).
Proof.
  unfold FinalReport.damage_and_emissions. split.
  - intros (k & r & Hin & [c Hc] & Hmissing).
    rewrite (for_each_Err KeyError); [done| |].
    + intros [[[xs0 xs1] ys0] ys1] [k' r'] _. cbn zeta.
      destruct (projected_damage r'); [|by eauto]. unfold dict_get.
      destruct (co2_emissions r' !! 2016) as [v|]; cbn [mbind result_bind];
        [|by right].
      destruct (co2_emissions_per_capita r' !! 2016) as [w|]; cbn [mbind result_bind];
        [|by right].
      left. destruct v, w; by eauto.
    + exists (k, r). split; [done|]. intros [[[xs0 xs1] ys0] ys1]. cbn zeta.
      rewrite Hc. unfold dict_get. destruct Hmissing as [-> | ->]; [done|].
      by destruct (co2_emissions r !! 2016).
  - intros Hkeys. rewrite damage_and_emissions_loop by done.
    cbn [mbind result_bind app]. split; [intros f0 f1; apply two_figures|].
    intros Hzero ->.
    assert (Regression.linear_regression (A:=A) [] [] = Err ZeroDivisionError) as Hnil.
    { unfold Regression.linear_regression, Regression.mean, true_div.
      cbn [length]. by rewrite Hzero. }
    cbn [fmap list_fmap]. by rewrite Hnil.
Qed.
End Figures.

Lemma denial_and_energy_production_cases_witness :
  FinalReport.denial_and_energy_production
    [("A", sample_polled "A" (Some 1) false [(2016, 2%float)] []);
     ("B", sample_polled "B" (Some 2) false [(2016, 4%float)] []);
     ("C", sample_polled "C" (Some 3) true [(2016, 6%float)] []);
     ("D", sample_polled "D" None true [] [])]
    = Ok (2, 0, 1)%float ∧
  FinalReport.denial_and_energy_production
    [("A", sample_polled (A:=float) "A" None false [(2016, 1%float)] [])]
    = Err ZeroDivisionError ∧
  FinalReport.denial_and_energy_production
    [("A", set_renewable_energy ∅ (sample_polled (A:=float) "A" (Some 40) false [] []))]
    = Err KeyError.
Proof.
  split_and!.
  - rewrite (proj1 (proj2 (denial_and_energy_production_cases
      [("A", sample_polled "A" (Some 1) false [(2016, 2%float)] []);
       ("B", sample_polled "B" (Some 2) false [(2016, 4%float)] []);
       ("C", sample_polled "C" (Some 3) true [(2016, 6%float)] []);
       ("D", sample_polled "D" None true [] [])]) ltac:(
         intros k r Hin _; registry_cases Hin;
         apply fill_defined; first [by apply elem_of_window|window_years]))).
    vm_compute. reflexivity.
  - apply (proj2 (denial_and_energy_production_cases
      [("A", sample_polled (A:=float) "A" None false [(2016, 1%float)] [])])).
    + intros k r Hin [c Hc]. registry_cases Hin. discriminate Hc.
    + reflexivity.
    + reflexivity.
  - apply (proj1 (denial_and_energy_production_cases
      [("A", set_renewable_energy ∅
               (sample_polled (A:=float) "A" (Some 40) false [] []))])).
    eexists _, _. split; [left|]. split; [by eexists|done].
Defined.

Lemma denial_and_carbon_tax_cases_witness :
  FinalReport.denial_and_carbon_tax
    [("A", sample_polled (A:=float) "A" (Some 1) false [] []);
     ("B", sample_polled "B" (Some 2) true [] []);
     ("C", sample_polled "C" None true [] [])] = Ok (1, -1, 1)%float ∧
  FinalReport.denial_and_carbon_tax
    [("A", sample_polled (A:=float) "A" None true [] [])] = Err ZeroDivisionError.
Proof.
  split.
  - rewrite (proj1 (denial_and_carbon_tax_cases
      [("A", sample_polled (A:=float) "A" (Some 1) false [] []);
       ("B", sample_polled "B" (Some 2) true [] []);
       ("C", sample_polled "C" None true [] [])])).
    vm_compute. reflexivity.
  - apply (proj2 (proj2 (denial_and_carbon_tax_cases
      [("A", sample_polled (A:=float) "A" None true [] [])]))).
    + reflexivity.
    + intros k r Hin. by registry_cases Hin.
Defined.

Lemma gdp_per_capita_and_carbon_taxes_cases_witness :
  FinalReport.gdp_per_capita_and_carbon_taxes
    [("A", sample_polled "A" None false [] [(2016, 1%float)]);
     ("B", sample_polled "B" None true [] [(2016, 2%float)]);
     ("C", sample_polled "C" None true [] [])] = Ok (1, -1, 1)%float ∧
  FinalReport.gdp_per_capita_and_carbon_taxes
    [("A", sample_polled (A:=float) "A" None true [] [])] = Err ZeroDivisionError ∧
  FinalReport.gdp_per_capita_and_carbon_taxes
    [("A", set_gdp_per_capita ∅ (sample_polled (A:=float) "A" None true [] []))]
    = Err KeyError.
Proof.
  split_and!.
  - rewrite (proj1 (proj2 (gdp_per_capita_and_carbon_taxes_cases
      [("A", sample_polled "A" None false [] [(2016, 1%float)]);
       ("B", sample_polled "B" None true [] [(2016, 2%float)]);
       ("C", sample_polled "C" None true [] [])]) ltac:(
         intros k r Hin; registry_cases Hin;
         apply fill_defined; first [by apply elem_of_window|window_years]))).
    vm_compute. reflexivity.
  - apply (proj2 (gdp_per_capita_and_carbon_taxes_cases
      [("A", sample_polled (A:=float) "A" None true [] [])])).
    + intros k r Hin. registry_cases Hin. by apply fill_defined; [|apply elem_of_window].
    + reflexivity.
    + reflexivity.
  - apply (proj1 (gdp_per_capita_and_carbon_taxes_cases
      [("A", set_gdp_per_capita ∅ (sample_polled (A:=float) "A" None true [] []))])).
    eexists _, _. split; [left|done].
Defined.

Lemma damage_and_emissions_cases_witness :
  FinalReport.damage_and_emissions
    [("A", sample_damaged "A" (Some 1%float) [(2016, 1%float)] [(2016, 2%float)]);
     ("B", sample_damaged "B" (Some 2%float) [(2016, 3%float)] [(2016, 4%float)]);
     ("C", sample_damaged "C" (Some 3%float) [(2016, 5%float)] [(2016, 6%float)])]
    = Ok ((2, -1, 1), (2, 0, 1))%float ∧
  FinalReport.damage_and_emissions
    [("A", sample_damaged (A:=float) "A" None [(2016, 1%float)] [(2016, 2%float)])]
    = Err ZeroDivisionError ∧
  FinalReport.damage_and_emissions
    [("A", set_co2_emissions ∅
             (sample_damaged (A:=float) "A" (Some 1%float) [] []))]
    = Err KeyError.
Proof.
  split_and!.
  - apply (proj1 (proj2 (damage_and_emissions_cases
      [("A", sample_damaged "A" (Some 1%float) [(2016, 1%float)] [(2016, 2%float)]);
       ("B", sample_damaged "B" (Some 2%float) [(2016, 3%float)] [(2016, 4%float)]);
       ("C", sample_damaged "C" (Some 3%float) [(2016, 5%float)] [(2016, 6%float)])])
      ltac:(intros k r Hin _; registry_cases Hin;
            split; apply fill_defined; first [by apply elem_of_window|window_years]))).
    split; vm_compute; reflexivity.
  - apply (proj2 (damage_and_emissions_cases
      [("A", sample_damaged (A:=float) "A" None [(2016, 1%float)] [(2016, 2%float)])])).
    + intros k r Hin [c Hc]. registry_cases Hin. discriminate Hc.
    + reflexivity.
    + reflexivity.
  - apply (proj1 (damage_and_emissions_cases
      [("A", set_co2_emissions ∅
               (sample_damaged (A:=float) "A" (Some 1%float) [] []))])).
    eexists _, _. split; [left|]. split; [by eexists|by left].
Defined.
